From Stdlib Require Import Reals Lra.
From Stdlib Require Import ZArith List String Bool Lia.
From Stdlib Require Import Floats.SpecFloat.
Import ListNotations.
Open Scope string_scope.
Open Scope list_scope.
Open Scope Z_scope.
(** * climate_model: a screening model of embodied carbon (A1-A5)

    Shallow embedding of [climate_model.py] and the properties of its
    estimation pipeline.

    Numbers are modelled as the program has them.  A Python [float] is an
    IEEE 754 binary64 value, here a [spec_float] with precision 53 and
    maximal exponent 1024, and every arithmetic operation is the correctly
    rounded one of [SpecFloat].  A Python [int] is unbounded, here [Z].
    A [dict] keeps its insertion order, which fixes the order in which
    [sum] adds the values, so it is an association list.  The three ways in
    which the arithmetic of the module can raise ([KeyError] of a lookup,
    [ZeroDivisionError] of a float division, [OverflowError] of an
    int-to-float conversion) are results of an error monad. *)


(** ** Binary64 arithmetic *)

Module F64.

Definition prec : Z := 53.
Definition emax : Z := 1024.

Definition float : Type := spec_float.

Definition add : float -> float -> float := SFadd prec emax.
Definition sub : float -> float -> float := SFsub prec emax.
Definition mul : float -> float -> float := SFmul prec emax.
Definition quot : float -> float -> float := SFdiv prec emax.

Definition ltb : float -> float -> bool := SFltb.
Definition leb : float -> float -> bool := SFleb.
Definition gtb (x y : float) : bool := SFltb y x.
Definition geb (x y : float) : bool := SFleb y x.

(** The correctly rounded double nearest to an integer; an infinity when
    the integer is beyond the range of the format. *)
Definition of_Z (z : Z) : float := binary_normalize prec emax z 0 false.

(** A decimal literal [n/d] with [n] and [d] exactly representable: the
    rounded quotient is the double nearest to the literal. *)
Definition dec (n d : Z) : float := quot (of_Z n) (of_Z d).

Definition is_zero (x : float) : bool :=
  match x with S754_zero _ => true | _ => false end.

Definition is_nan (x : float) : bool :=
  match x with S754_nan => true | _ => false end.

(** [bool(x)] of a Python float: false exactly for the two zeros. *)
Definition truthy (x : float) : bool := negb (is_zero x).

(** A value of the format: canonical mantissa and exponent in range. *)
Definition valid (x : float) : bool := valid_binary prec emax x.

(** The least exponent of the format and the exponent of a value of a
    given magnitude, [fexp] of [SpecFloat] at precision 53. *)
Definition emin : Z := -1074.
Definition fx (e : Z) : Z := Z.max (e - 53) emin.

(** The magnitude of [m * 2^e]: the value lies in [2^(mag-1), 2^mag). *)
Definition mag (m : positive) (e : Z) : Z := Zpos (digits2_pos m) + e.

(** The float that rounding builds from a final mantissa and exponent. *)
Definition bra_result (s : bool) (m e : Z) : float :=
  match m with
  | Z0 => S754_zero s
  | Zpos p => if e <=? 971 then S754_finite s p e else S754_infinity s
  | Zneg _ => S754_nan
  end.

(** Classes of values: positive and finite with a magnitude between two
    bounds; zero or positive and finite below a bound; not negative and
    not a NaN. *)
Definition FP (lo hi : Z) (x : float) : Prop :=
  match x with
  | S754_finite false m e => lo <= mag m e <= hi
  | _ => False
  end.

Definition NN (hi : Z) (x : float) : Prop :=
  match x with
  | S754_zero _ => True
  | S754_finite false m e => mag m e <= hi
  | _ => False
  end.

Definition P0 (x : float) : Prop :=
  match x with
  | S754_zero _ | S754_finite false _ _ | S754_infinity false => True
  | _ => False
  end.

Definition PF (x : float) : Prop :=
  match x with
  | S754_finite false _ _ => True
  | _ => False
  end.

(** The value of a finite float in units of [2^-1074], the least positive
    value of the format; [U] is the value of 1.0. *)
Definition U : Z := 2 ^ 1074.

Definition V (x : float) : Z :=
  match x with
  | S754_finite s m e => cond_Zopp s (Zpos m * 2 ^ (e + 1074))
  | _ => 0
  end.

(** [FP] and [NN] for values whose exponent is within the format. *)
Definition GP (lo hi : Z) (x : float) : Prop :=
  match x with
  | S754_finite false m e => lo <= mag m e <= hi /\ emin <= e
  | _ => False
  end.

Definition GN (hi : Z) (x : float) : Prop :=
  match x with
  | S754_zero _ => True
  | S754_finite false m e => mag m e <= hi /\ emin <= e
  | _ => False
  end.

(** Zero, or positive and valid below a bound; and the floats whose
    mantissa fits the precision. *)
Definition BN (hi : Z) (x : float) : Prop :=
  match x with
  | S754_zero _ => True
  | S754_finite false m e => bounded prec emax m e = true /\ mag m e <= hi
  | _ => False
  end.

Definition D53 (x : float) : Prop :=
  match x with
  | S754_finite _ m _ => Zpos (digits2_pos m) <= 53
  | _ => True
  end.

End F64.

Definition float : Type := F64.float.

(** ** Exceptions *)

Inductive exn : Type :=
| KeyError (k : string)
| ZeroDivisionError
| OverflowError.

Inductive result (A : Type) : Type :=
| Ok (a : A)
| Raise (e : exn).

Arguments Ok {A} a.
Arguments Raise {A} e.

Definition bind {A B : Type} (r : result A) (k : A -> result B) : result B :=
  match r with
  | Ok a => k a
  | Raise e => Raise e
  end.

Notation "x <- r ;; k" := (bind r (fun x => k))
  (at level 61, r at next level, right associativity).

Definition is_ok {A : Type} (r : result A) : bool :=
  match r with Ok _ => true | Raise _ => false end.

(** ** Python primitives on numbers *)

(** [a / b] on floats raises when the divisor compares equal to zero. *)
Definition fdiv (a b : float) : result float :=
  if F64.is_zero b then Raise ZeroDivisionError else Ok (F64.quot a b).

(** Conversion of an int to a float ([float(n)], and the implicit one of a
    mixed operation) raises when the rounded value is not finite. *)
Definition float_of_int (n : Z) : result float :=
  match F64.of_Z n with
  | S754_infinity _ => Raise OverflowError
  | f => Ok f
  end.

(** [max(a, b)] and [min(a, b)] keep the first argument unless the second
    compares strictly greater (smaller). *)
Definition pymax (a b : float) : float := if F64.gtb b a then b else a.
Definition pymin (a b : float) : float := if F64.ltb b a then b else a.

(** ** Python dicts with string keys, in insertion order *)

Definition dict : Type := list (string * float).

Fixpoint dict_get (k : string) (d : dict) : option float :=
  match d with
  | [] => None
  | (k', v) :: d' => if String.eqb k k' then Some v else dict_get k d'
  end.

Definition dict_mem (k : string) (d : dict) : bool :=
  match dict_get k d with Some _ => true | None => false end.

Definition dict_get_default (k : string) (dflt : float) (d : dict) : float :=
  match dict_get k d with Some v => v | None => dflt end.

(** [d[k]]: a missing key raises. *)
Definition dict_index (k : string) (d : dict) : result float :=
  match dict_get k d with Some v => Ok v | None => Raise (KeyError k) end.

(** [d[k] = v]: an existing key keeps its place, a new one goes last. *)
Fixpoint dict_set (k : string) (v : float) (d : dict) : dict :=
  match d with
  | [] => [(k, v)]
  | (k', v') :: d' =>
      if String.eqb k k' then (k', v) :: d' else (k', v') :: dict_set k v d'
  end.

Definition dict_keys (d : dict) : list string := map fst d.
Definition dict_values (d : dict) : list float := map snd d.

(** [sum(xs)] over floats as CPython up to 3.11 computes it: additions
    from left to right, from zero.  CPython 3.12 and later keep a
    compensation term beside the running sum, and their result can
    differ from this one in the last bit. *)
Definition fsum (xs : list float) : float :=
  fold_left F64.add xs (S754_zero false).

(** [d[k] *= x]: reads the entry, so a missing key raises. *)
Definition dict_imul (k : string) (x : float) (d : dict) : result dict :=
  match dict_get k d with
  | Some v => Ok (dict_set k (F64.mul v x) d)
  | None => Raise (KeyError k)
  end.

(** ** The data model *)

Inductive SystemBoundary : Type := B2022 | B2027.
Inductive StructuralSystem : Type := Betong | Tra | Stal.

Definition boundary_key (b : SystemBoundary) : string :=
  match b with B2022 => "2022" | B2027 => "2027" end.

Definition system_key (s : StructuralSystem) : string :=
  match s with Betong => "Betong" | Tra => "Trä" | Stal => "Stål" end.

Definition boundary_eqb (a b : SystemBoundary) : bool :=
  match a, b with
  | B2022, B2022 | B2027, B2027 => true
  | _, _ => false
  end.

Record ModelConfig : Type := {
  median_kg_per_m2 : dict;
  median_kg_per_m2_climate_improved : dict;
  shares_2022 : dict;
  shares_2027 : dict;
  ref_form_factor : float;
  ref_window_ratio : float;
  window_to_wall_intensity_ratio : float;
  method_multiplier : dict;
  structure_affected_share_2022 : float;
  structure_affected_share_2027 : float;
  garage_add_kg_per_m2_atemp_parking05 : float;
  timber_t_per_m2_default_by_system : dict;
  basement_add_kg_per_m2_bta : float
}.

Record ModelInputs : Type := {
  system_boundary : SystemBoundary;
  form_factor : float;
  window_ratio : float;
  floors : Z;
  building_height_m : option float;
  structural_system : StructuralSystem;
  method : string;
  heavy_concrete_design : bool;
  climate_improved_materials : bool;
  climate_improved_applicability : float;
  basement : bool;
  underground_garage : bool;
  parking_ratio : float;
  atemp_to_bta : float;
  timber_t_per_m2_override : option float
}.

Record ModelResult : Type := {
  total_kg_per_m2_bta : float;
  total_t_per_m2_bta : float;
  reference_kg_per_m2_bta : float;
  delta_vs_reference_kg : float;
  delta_vs_reference_percent : float;
  breakdown_kg_per_m2_bta : dict;
  timber_t_per_m2_bta : float;
  notes : list string
}.

(** ** Literals *)

Definition f0 : float := S754_zero false.
Definition f1 : float := F64.of_Z 1.

Definition Stomme : string := "Stomme".
Definition Grund : string := "Grund".
Definition Klimatskarm : string := "Klimatskärm".
Definition Innervaggar : string := "Innerväggar".
Definition Ytskikt : string := "Invändiga ytskikt & installationer".

Definition m_prefab : string := "Prefabricerad betong".
Definition m_platsgjuten_latta : string :=
  "Platsgjuten betong (lätta utfackningsväggar)".
Definition m_platsgjuten_form : string :=
  "Platsgjuten betong (kvarsittande form)".
Definition m_volym_tra : string := "Volymelement i trä".
Definition m_kl_tra : string := "KL-trä (massiv stomme)".

(** ** default_config *)

Definition default_config : ModelConfig := {|
  median_kg_per_m2 := [("2022", F64.of_Z 318); ("2027", F64.of_Z 373)];
  median_kg_per_m2_climate_improved :=
    [("2022", F64.of_Z 271); ("2027", F64.of_Z 325)];
  shares_2022 :=
    [(Stomme, F64.dec 50 100); (Grund, F64.dec 15 100);
     (Klimatskarm, F64.dec 25 100); (Innervaggar, F64.dec 10 100)];
  shares_2027 :=
    [(Stomme, F64.dec 45 100); (Grund, F64.dec 15 100);
     (Klimatskarm, F64.dec 20 100); (Innervaggar, F64.dec 10 100);
     (Ytskikt, F64.dec 10 100)];
  ref_form_factor := F64.dec 45 100;
  ref_window_ratio := F64.dec 20 100;
  window_to_wall_intensity_ratio := F64.of_Z 4;
  method_multiplier :=
    [(m_prefab, F64.of_Z 1);
     (m_platsgjuten_latta, F64.quot (F64.of_Z 290) (F64.of_Z 272));
     (m_platsgjuten_form, F64.quot (F64.of_Z 331) (F64.of_Z 272));
     (m_volym_tra, F64.of_Z 1);
     (m_kl_tra, F64.of_Z 1)];
  structure_affected_share_2022 := F64.dec 70 100;
  structure_affected_share_2027 := F64.dec 65 100;
  garage_add_kg_per_m2_atemp_parking05 := F64.of_Z 48;
  timber_t_per_m2_default_by_system :=
    [("Betong", F64.dec 5 1000); ("Trä", F64.dec 60 1000);
     ("Stål", F64.dec 2 1000)];
  basement_add_kg_per_m2_bta := F64.of_Z 25
|}.

(** ** _validate_inputs *)

Definition note_form_factor : string :=
  "Formfaktor verkar ligga utanför normalt intervall (0,2–1,5).".
Definition note_window_ratio : string :=
  "Fönsterandel bör ligga mellan 0 och 0,9.".
Definition note_floors : string :=
  "Antal våningar måste vara minst 1.".
Definition note_parking : string :=
  "Parkeringstal/garagefaktor bör normalt ligga mellan 0 och 2.".
Definition note_atemp : string :=
  "Atemp/BTA bör normalt ligga mellan 0,7 och 1,0.".
Definition note_applicability : string :=
  "Applicability för klimatförbättring måste ligga 0..1.".
Definition note_not_applied : string :=
  "Kunde inte applicera klimatförbättring (noll/negativt delbidrag).".

(** [lo <= x <= hi], the chained comparison. *)
Definition between (lo x hi : float) : bool :=
  F64.leb lo x && F64.leb x hi.

Definition note_if (c : bool) (s : string) : list string :=
  if c then [s] else [].

Definition validate_inputs (inp : ModelInputs) : list string :=
  note_if (negb (between (F64.dec 2 10) (form_factor inp) (F64.dec 15 10)))
          note_form_factor
  ++ note_if (negb (between f0 (window_ratio inp) (F64.dec 9 10)))
          note_window_ratio
  ++ note_if (floors inp <? 1) note_floors
  ++ note_if (negb (between f0 (parking_ratio inp) (F64.of_Z 2)))
          note_parking
  ++ note_if (negb (between (F64.dec 7 10) (atemp_to_bta inp) f1))
          note_atemp
  ++ note_if (F64.ltb (climate_improved_applicability inp) f0
              || F64.gtb (climate_improved_applicability inp) f1)
          note_applicability.

(** ** estimate *)

Definition f0_8 : float := F64.dec 8 10.
Definition f1_3 : float := F64.dec 13 10.
Definition ref_floor_height : float := F64.dec 28 10.

(** The "våningshöjdfaktor" of step 2.  The guard is the truth value of
    the optional height and [floors > 0]. *)
Definition height_factor (inp : ModelInputs) : result float :=
  match building_height_m inp with
  | Some h =>
      if F64.truthy h && (floors inp >? 0) then
        fl <- float_of_int (floors inp) ;;
        floor_height <- fdiv h fl ;;
        r <- fdiv floor_height ref_floor_height ;;
        Ok (pymax f0_8 (pymin f1_3 r))
      else Ok f1
  | None => Ok f1
  end.

(** [(w * r + (1 - w) * 1.0)] *)
Definition window_mix (w r : float) : float :=
  F64.add (F64.mul w r) (F64.mul (F64.sub f1 w) f1).

(** [form_factor_scale * height_factor * window_mix_factor] *)
Definition envelope_factor (ffs hf wmf : float) : float :=
  F64.mul (F64.mul ffs hf) wmf.

(** 2) Geometry: the envelope is scaled by form factor, floor height and
    window mix. *)
Definition step2_envelope (cfg : ModelConfig) (inp : ModelInputs)
    (breakdown : dict) : result dict :=
  if dict_mem Klimatskarm breakdown then
    form_factor_scale <- fdiv (form_factor inp) (ref_form_factor cfg) ;;
    hf <- height_factor inp ;;
    let r := window_to_wall_intensity_ratio cfg in
    window_mix_factor <-
      fdiv (window_mix (window_ratio inp) r)
           (window_mix (ref_window_ratio cfg) r) ;;
    dict_imul Klimatskarm
      (envelope_factor form_factor_scale hf window_mix_factor) breakdown
  else Ok breakdown.

(** [x if key in d else d], for [if key in d: d[key] *= x]. *)
Definition dict_imul_if_mem (k : string) (x : float) (d : dict) : result dict :=
  if dict_mem k d then dict_imul k x d else Ok d.

(** [1.0 + 0.05 * (4 - floors)], with [n] the converted [4 - floors]. *)
Definition lowrise_factor (n : float) : float :=
  F64.add f1 (F64.mul (F64.dec 5 100) n).

(** 3) Low-rise correction for fewer than four floors. *)
Definition step3_lowrise (inp : ModelInputs) (breakdown : dict) : result dict :=
  if floors inp <? 4 then
    n <- float_of_int (4 - floors inp) ;;
    b1 <- dict_imul_if_mem Grund (lowrise_factor n) breakdown ;;
    dict_imul_if_mem Klimatskarm (lowrise_factor n) b1
  else Ok breakdown.

Definition method_mult (cfg : ModelConfig) (inp : ModelInputs) : float :=
  dict_get_default (method inp) f1 (method_multiplier cfg).

Definition heavy_mult (inp : ModelInputs) : float :=
  if heavy_concrete_design inp then F64.dec 110 100 else f1.

Definition system_struct_mult (inp : ModelInputs) : float :=
  match structural_system inp with
  | Tra =>
      match system_boundary inp with
      | B2022 => F64.dec 47 100
      | B2027 => F64.dec 51 100
      end
  | Stal => F64.dec 105 100
  | Betong => f1
  end.

(** [method_mult * heavy_mult * system_struct_mult] *)
Definition struct_mult (cfg : ModelConfig) (inp : ModelInputs) : float :=
  F64.mul (F64.mul (method_mult cfg inp) (heavy_mult inp))
          (system_struct_mult inp).

(** 4) Structure, foundation and interior walls take the product of the
    method, heavy-design and structural-system multipliers. *)
Definition step4_structure (cfg : ModelConfig) (inp : ModelInputs)
    (breakdown : dict) : result dict :=
  let x := struct_mult cfg inp in
  b1 <- dict_imul_if_mem Stomme x breakdown ;;
  b2 <- dict_imul_if_mem Grund x b1 ;;
  dict_imul_if_mem Innervaggar x b2.

Definition garage_add (cfg : ModelConfig) (inp : ModelInputs) : result float :=
  let a := F64.mul (garage_add_kg_per_m2_atemp_parking05 cfg) (atemp_to_bta inp) in
  q <- fdiv (parking_ratio inp) (F64.dec 5 10) ;;
  Ok (F64.mul a q).

(** 5) Below grade: basement and garage are added to the foundation. *)
Definition step5_below_grade (cfg : ModelConfig) (inp : ModelInputs)
    (breakdown : dict) : result dict :=
  let b1 :=
    if basement inp then
      dict_set Grund
        (F64.add (dict_get_default Grund f0 breakdown)
                 (basement_add_kg_per_m2_bta cfg)) breakdown
    else breakdown in
  if underground_garage inp then
    add_kg_bta <- garage_add cfg inp ;;
    Ok (dict_set Grund (F64.add (dict_get_default Grund f0 b1) add_kg_bta) b1)
  else Ok b1.

Definition affected_keys : list string := [Stomme; Grund; Klimatskarm].

(** One round of the loop of step 6 for key [k]. *)
Definition reduce_key (target_reduction affected_sum : float) (k : string)
    (breakdown : dict) : result dict :=
  match dict_get k breakdown with
  | Some v =>
      share <- fdiv v affected_sum ;;
      let v' := F64.sub v (F64.mul target_reduction share) in
      Ok (dict_set k (pymax f0 v') breakdown)
  | None => Ok breakdown
  end.

Fixpoint reduce_keys (target_reduction affected_sum : float)
    (ks : list string) (breakdown : dict) : result dict :=
  match ks with
  | [] => Ok breakdown
  | k :: ks' =>
      b' <- reduce_key target_reduction affected_sum k breakdown ;;
      reduce_keys target_reduction affected_sum ks' b'
  end.

(** 6) Climate-improved materials; works on the breakdown and the notes. *)
Definition step6_improved (cfg : ModelConfig) (inp : ModelInputs)
    (st : dict * list string) : result (dict * list string) :=
  let '(breakdown, notes) := st in
  if climate_improved_materials inp then
    baseline_improved <-
      dict_index (boundary_key (system_boundary inp))
                 (median_kg_per_m2_climate_improved cfg) ;;
    baseline_generic <-
      dict_index (boundary_key (system_boundary inp)) (median_kg_per_m2 cfg) ;;
    let diff := pymax f0 (F64.sub baseline_generic baseline_improved) in
    let affected_sum :=
      fsum (map (fun k => dict_get_default k f0 breakdown) affected_keys) in
    let total_pre := fsum (dict_values breakdown) in
    if F64.gtb total_pre f0 && F64.gtb affected_sum f0 then
      scale <- fdiv total_pre baseline_generic ;;
      let target_reduction :=
        F64.mul (F64.mul diff scale) (climate_improved_applicability inp) in
      b' <- reduce_keys target_reduction affected_sum affected_keys breakdown ;;
      Ok (b', notes)
    else Ok (breakdown, (notes ++ [note_not_applied])%list)
  else Ok (breakdown, notes).

(** Step 6 with the builtin [sum] as a parameter.  The source calls
    [sum] on floats twice; CPython up to 3.11 adds from left to right
    ([fsum]), CPython 3.12 and later carry a compensation term, and the
    two can differ in the last bit.  [step6_improved] is this step with
    [fsum] for [sum]. *)
Definition step6_improved_sum (pysum : list float -> float)
    (cfg : ModelConfig) (inp : ModelInputs)
    (st : dict * list string) : result (dict * list string) :=
  let '(breakdown, notes) := st in
  if climate_improved_materials inp then
    baseline_improved <-
      dict_index (boundary_key (system_boundary inp))
                 (median_kg_per_m2_climate_improved cfg) ;;
    baseline_generic <-
      dict_index (boundary_key (system_boundary inp)) (median_kg_per_m2 cfg) ;;
    let diff := pymax f0 (F64.sub baseline_generic baseline_improved) in
    let affected_sum :=
      pysum (map (fun k => dict_get_default k f0 breakdown) affected_keys) in
    let total_pre := pysum (dict_values breakdown) in
    if F64.gtb total_pre f0 && F64.gtb affected_sum f0 then
      scale <- fdiv total_pre baseline_generic ;;
      let target_reduction :=
        F64.mul (F64.mul diff scale) (climate_improved_applicability inp) in
      b' <- reduce_keys target_reduction affected_sum affected_keys breakdown ;;
      Ok (b', notes)
    else Ok (breakdown, (notes ++ [note_not_applied])%list)
  else Ok (breakdown, notes).

Definition timber_mass (cfg : ModelConfig) (inp : ModelInputs) : result float :=
  match timber_t_per_m2_override inp with
  | Some v => Ok (pymax f0 v)
  | None =>
      dict_index (system_key (structural_system inp))
                 (timber_t_per_m2_default_by_system cfg)
  end.

Definition reference_threshold : float := F64.of_Z 375.

(** [cfg or default_config()]: a dataclass instance is always true. *)
Definition config_or_default (cfg : option ModelConfig) : ModelConfig :=
  match cfg with Some c => c | None => default_config end.

(** Steps 1 to 5: the baseline split and the four adjustments that come
    before the climate-improved reduction. *)
Definition breakdown_pre (cfg : ModelConfig) (inp : ModelInputs) : result dict :=
  baseline <-
    dict_index (boundary_key (system_boundary inp)) (median_kg_per_m2 cfg) ;;
  let shares :=
    if boundary_eqb (system_boundary inp) B2022
    then shares_2022 cfg else shares_2027 cfg in
  let breakdown := map (fun kv => (fst kv, F64.mul baseline (snd kv))) shares in
  b2 <- step2_envelope cfg inp breakdown ;;
  b3 <- step3_lowrise inp b2 ;;
  b4 <- step4_structure cfg inp b3 ;;
  step5_below_grade cfg inp b4.

Definition estimate (inp : ModelInputs) (cfg : option ModelConfig)
    : result ModelResult :=
  let cfg := config_or_default cfg in
  let notes := validate_inputs inp in
  b5 <- breakdown_pre cfg inp ;;
  st <- step6_improved cfg inp (b5, notes) ;;
  let '(b6, notes6) := st in
  let total := fsum (dict_values b6) in
  timber_t <- timber_mass cfg inp ;;
  let delta := F64.sub total reference_threshold in
  pct <- fdiv delta reference_threshold ;;
  let delta_pct := F64.mul pct (F64.of_Z 100) in
  t1000 <- fdiv total (F64.of_Z 1000) ;;
  Ok {| total_kg_per_m2_bta := total;
        total_t_per_m2_bta := t1000;
        reference_kg_per_m2_bta := reference_threshold;
        delta_vs_reference_kg := delta;
        delta_vs_reference_percent := delta_pct;
        breakdown_kg_per_m2_bta := b6;
        timber_t_per_m2_bta := timber_t;
        notes := notes6 |}.

(** ** Inputs of the scenarios *)

(** The baseline of the early scope: reference geometry, six floors,
    prefabricated concrete, every flag off. *)
Definition scenarioA : ModelInputs := {|
  system_boundary := B2022;
  form_factor := F64.dec 45 100;
  window_ratio := F64.dec 20 100;
  floors := 6;
  building_height_m := None;
  structural_system := Betong;
  method := m_prefab;
  heavy_concrete_design := false;
  climate_improved_materials := false;
  climate_improved_applicability := f1;
  basement := false;
  underground_garage := false;
  parking_ratio := F64.dec 5 10;
  atemp_to_bta := F64.dec 90 100;
  timber_t_per_m2_override := None
|}.

(** Functional updates of single fields ([dataclasses.replace]). *)
Definition with_boundary (b : SystemBoundary) (i : ModelInputs) : ModelInputs :=
  {| system_boundary := b;
     form_factor := form_factor i;
     window_ratio := window_ratio i;
     floors := floors i;
     building_height_m := building_height_m i;
     structural_system := structural_system i;
     method := method i;
     heavy_concrete_design := heavy_concrete_design i;
     climate_improved_materials := climate_improved_materials i;
     climate_improved_applicability := climate_improved_applicability i;
     basement := basement i;
     underground_garage := underground_garage i;
     parking_ratio := parking_ratio i;
     atemp_to_bta := atemp_to_bta i;
     timber_t_per_m2_override := timber_t_per_m2_override i |}.

Definition with_form_factor (x : float) (i : ModelInputs) : ModelInputs :=
  {| system_boundary := system_boundary i;
     form_factor := x;
     window_ratio := window_ratio i;
     floors := floors i;
     building_height_m := building_height_m i;
     structural_system := structural_system i;
     method := method i;
     heavy_concrete_design := heavy_concrete_design i;
     climate_improved_materials := climate_improved_materials i;
     climate_improved_applicability := climate_improved_applicability i;
     basement := basement i;
     underground_garage := underground_garage i;
     parking_ratio := parking_ratio i;
     atemp_to_bta := atemp_to_bta i;
     timber_t_per_m2_override := timber_t_per_m2_override i |}.

Definition with_floors (n : Z) (i : ModelInputs) : ModelInputs :=
  {| system_boundary := system_boundary i;
     form_factor := form_factor i;
     window_ratio := window_ratio i;
     floors := n;
     building_height_m := building_height_m i;
     structural_system := structural_system i;
     method := method i;
     heavy_concrete_design := heavy_concrete_design i;
     climate_improved_materials := climate_improved_materials i;
     climate_improved_applicability := climate_improved_applicability i;
     basement := basement i;
     underground_garage := underground_garage i;
     parking_ratio := parking_ratio i;
     atemp_to_bta := atemp_to_bta i;
     timber_t_per_m2_override := timber_t_per_m2_override i |}.

Definition with_height (h : option float) (i : ModelInputs) : ModelInputs :=
  {| system_boundary := system_boundary i;
     form_factor := form_factor i;
     window_ratio := window_ratio i;
     floors := floors i;
     building_height_m := h;
     structural_system := structural_system i;
     method := method i;
     heavy_concrete_design := heavy_concrete_design i;
     climate_improved_materials := climate_improved_materials i;
     climate_improved_applicability := climate_improved_applicability i;
     basement := basement i;
     underground_garage := underground_garage i;
     parking_ratio := parking_ratio i;
     atemp_to_bta := atemp_to_bta i;
     timber_t_per_m2_override := timber_t_per_m2_override i |}.

Definition with_system (s : StructuralSystem) (i : ModelInputs) : ModelInputs :=
  {| system_boundary := system_boundary i;
     form_factor := form_factor i;
     window_ratio := window_ratio i;
     floors := floors i;
     building_height_m := building_height_m i;
     structural_system := s;
     method := method i;
     heavy_concrete_design := heavy_concrete_design i;
     climate_improved_materials := climate_improved_materials i;
     climate_improved_applicability := climate_improved_applicability i;
     basement := basement i;
     underground_garage := underground_garage i;
     parking_ratio := parking_ratio i;
     atemp_to_bta := atemp_to_bta i;
     timber_t_per_m2_override := timber_t_per_m2_override i |}.

Definition with_method (m : string) (i : ModelInputs) : ModelInputs :=
  {| system_boundary := system_boundary i;
     form_factor := form_factor i;
     window_ratio := window_ratio i;
     floors := floors i;
     building_height_m := building_height_m i;
     structural_system := structural_system i;
     method := m;
     heavy_concrete_design := heavy_concrete_design i;
     climate_improved_materials := climate_improved_materials i;
     climate_improved_applicability := climate_improved_applicability i;
     basement := basement i;
     underground_garage := underground_garage i;
     parking_ratio := parking_ratio i;
     atemp_to_bta := atemp_to_bta i;
     timber_t_per_m2_override := timber_t_per_m2_override i |}.

Definition with_improved (b : bool) (i : ModelInputs) : ModelInputs :=
  {| system_boundary := system_boundary i;
     form_factor := form_factor i;
     window_ratio := window_ratio i;
     floors := floors i;
     building_height_m := building_height_m i;
     structural_system := structural_system i;
     method := method i;
     heavy_concrete_design := heavy_concrete_design i;
     climate_improved_materials := b;
     climate_improved_applicability := climate_improved_applicability i;
     basement := basement i;
     underground_garage := underground_garage i;
     parking_ratio := parking_ratio i;
     atemp_to_bta := atemp_to_bta i;
     timber_t_per_m2_override := timber_t_per_m2_override i |}.

(** The garage of scenario C: flag, parking ratio and heated-area ratio. *)
Definition with_garage (g : bool) (pr at_ : float) (i : ModelInputs)
    : ModelInputs :=
  {| system_boundary := system_boundary i;
     form_factor := form_factor i;
     window_ratio := window_ratio i;
     floors := floors i;
     building_height_m := building_height_m i;
     structural_system := structural_system i;
     method := method i;
     heavy_concrete_design := heavy_concrete_design i;
     climate_improved_materials := climate_improved_materials i;
     climate_improved_applicability := climate_improved_applicability i;
     basement := basement i;
     underground_garage := g;
     parking_ratio := pr;
     atemp_to_bta := at_;
     timber_t_per_m2_override := timber_t_per_m2_override i |}.

Definition with_timber_override (o : option float) (i : ModelInputs)
    : ModelInputs :=
  {| system_boundary := system_boundary i;
     form_factor := form_factor i;
     window_ratio := window_ratio i;
     floors := floors i;
     building_height_m := building_height_m i;
     structural_system := structural_system i;
     method := method i;
     heavy_concrete_design := heavy_concrete_design i;
     climate_improved_materials := climate_improved_materials i;
     climate_improved_applicability := climate_improved_applicability i;
     basement := basement i;
     underground_garage := underground_garage i;
     parking_ratio := parking_ratio i;
     atemp_to_bta := atemp_to_bta i;
     timber_t_per_m2_override := o |}.

(** [replace(cfg, structure_affected_share_2022=a, ..._2027=b)]. *)
Definition with_structure_shares (a b : float) (c : ModelConfig) : ModelConfig :=
  {| median_kg_per_m2 := median_kg_per_m2 c;
     median_kg_per_m2_climate_improved := median_kg_per_m2_climate_improved c;
     shares_2022 := shares_2022 c;
     shares_2027 := shares_2027 c;
     ref_form_factor := ref_form_factor c;
     ref_window_ratio := ref_window_ratio c;
     window_to_wall_intensity_ratio := window_to_wall_intensity_ratio c;
     method_multiplier := method_multiplier c;
     structure_affected_share_2022 := a;
     structure_affected_share_2027 := b;
     garage_add_kg_per_m2_atemp_parking05 :=
       garage_add_kg_per_m2_atemp_parking05 c;
     timber_t_per_m2_default_by_system := timber_t_per_m2_default_by_system c;
     basement_add_kg_per_m2_bta := basement_add_kg_per_m2_bta c |}.

(** Python's [x >= 0] on a float. *)
Definition nonneg (x : float) : bool := F64.geb x f0.

(** The share table that [estimate] selects in the default configuration. *)
Definition default_shares (b : SystemBoundary) : dict :=
  if boundary_eqb b B2022
  then shares_2022 default_config else shares_2027 default_config.


(** ** The breakdown before step 6, category by category

    Under the default configuration the five categories evolve
    independently through steps 1 to 5; [hf] is the floor-height factor
    and [lf] the low-rise factor, present when there are fewer than four
    floors. *)

Definition base_of (b : SystemBoundary) : float :=
  match b with B2022 => F64.of_Z 318 | B2027 => F64.of_Z 373 end.

Definition share_of (b : SystemBoundary) (k : string) : float :=
  dict_get_default k f0 (default_shares b).

Definition scale_opt (lf : option float) (v : float) : float :=
  match lf with Some l => F64.mul v l | None => v end.

Definition lowrise_opt (inp : ModelInputs) : result (option float) :=
  if floors inp <? 4 then
    n <- float_of_int (4 - floors inp) ;; Ok (Some (lowrise_factor n))
  else Ok None.

Definition envelope_of (inp : ModelInputs) (hf : float) : float :=
  envelope_factor
    (F64.quot (form_factor inp) (F64.dec 45 100)) hf
    (F64.quot (window_mix (window_ratio inp) (F64.of_Z 4))
              (window_mix (F64.dec 20 100) (F64.of_Z 4))).

Definition garage_of (inp : ModelInputs) : float :=
  F64.mul (F64.mul (F64.of_Z 48) (atemp_to_bta inp))
          (F64.quot (parking_ratio inp) (F64.dec 5 10)).

Definition stomme_pre (inp : ModelInputs) : float :=
  F64.mul (F64.mul (base_of (system_boundary inp))
                   (share_of (system_boundary inp) Stomme))
          (struct_mult default_config inp).

(** The foundation after the basement add-on. *)
Definition grund_base (inp : ModelInputs) (lf : option float) : float :=
  let g4 :=
    F64.mul (scale_opt lf (F64.mul (base_of (system_boundary inp))
                                   (share_of (system_boundary inp) Grund)))
            (struct_mult default_config inp) in
  if basement inp then F64.add g4 (F64.of_Z 25) else g4.

Definition grund_pre (inp : ModelInputs) (lf : option float) : float :=
  if underground_garage inp
  then F64.add (grund_base inp lf) (garage_of inp)
  else grund_base inp lf.

Definition klimat_pre (inp : ModelInputs) (hf : float) (lf : option float)
    : float :=
  scale_opt lf (F64.mul (F64.mul (base_of (system_boundary inp))
                                 (share_of (system_boundary inp) Klimatskarm))
                        (envelope_of inp hf)).

Definition inner_pre (inp : ModelInputs) : float :=
  F64.mul (F64.mul (base_of (system_boundary inp))
                   (share_of (system_boundary inp) Innervaggar))
          (struct_mult default_config inp).

Definition ytskikt_pre (inp : ModelInputs) : float :=
  F64.mul (base_of (system_boundary inp))
          (share_of (system_boundary inp) Ytskikt).

Definition pre_closed (inp : ModelInputs) (hf : float) (lf : option float)
    : dict :=
  [(Stomme, stomme_pre inp); (Grund, grund_pre inp lf);
   (Klimatskarm, klimat_pre inp hf lf); (Innervaggar, inner_pre inp)]
  ++ match system_boundary inp with
     | B2022 => []
     | B2027 => [(Ytskikt, ytskikt_pre inp)]
     end.

(** [max(0.0, override)] or the default of the structural system. *)
Definition timber_of (inp : ModelInputs) : float :=
  match timber_t_per_m2_override inp with
  | Some v => pymax f0 v
  | None =>
      match structural_system inp with
      | Betong => F64.dec 5 1000
      | Tra => F64.dec 60 1000
      | Stal => F64.dec 2 1000
      end
  end.

(** ** Step 6 in closed form *)

Definition improved_of (b : SystemBoundary) : float :=
  match b with B2022 => F64.of_Z 271 | B2027 => F64.of_Z 325 end.

Definition diff_of (b : SystemBoundary) : float :=
  pymax f0 (F64.sub (base_of b) (improved_of b)).

(** [diff * (total_pre / baseline_generic) * applicability] *)
Definition target_reduction_of (inp : ModelInputs) (total_pre : float) : float :=
  F64.mul (F64.mul (diff_of (system_boundary inp))
                   (F64.quot total_pre (base_of (system_boundary inp))))
          (climate_improved_applicability inp).

(** [max(0.0, v - target_reduction * (v / affected_sum))] *)
Definition reduced (tr asum v : float) : float :=
  pymax f0 (F64.sub v (F64.mul tr (F64.quot v asum))).

(** The guard of the reduction: both sums strictly positive. *)
Definition reduction_applies (total_pre affected_sum : float) : bool :=
  F64.gtb total_pre f0 && F64.gtb affected_sum f0.

Definition step6_closed (inp : ModelInputs) (s g k i : float) (tl : dict)
    (ns : list string) : dict * list string :=
  let b := [(Stomme, s); (Grund, g); (Klimatskarm, k); (Innervaggar, i)] ++ tl in
  if climate_improved_materials inp then
    let asum := fsum [s; g; k] in
    let tot := fsum (dict_values b) in
    if reduction_applies tot asum then
      let tr := target_reduction_of inp tot in
      ([(Stomme, reduced tr asum s); (Grund, reduced tr asum g);
        (Klimatskarm, reduced tr asum k); (Innervaggar, i)] ++ tl, ns)
    else (b, ns ++ [note_not_applied])
  else (b, ns).

Definition tail_of (inp : ModelInputs) : dict :=
  match system_boundary inp with
  | B2022 => []
  | B2027 => [(Ytskikt, ytskikt_pre inp)]
  end.

(** The result record built from the final breakdown and notes. *)
Definition result_of (inp : ModelInputs) (timber : float)
    (st : dict * list string) : ModelResult :=
  let total := fsum (dict_values (fst st)) in
  let delta := F64.sub total reference_threshold in
  {| total_kg_per_m2_bta := total;
     total_t_per_m2_bta := F64.quot total (F64.of_Z 1000);
     reference_kg_per_m2_bta := reference_threshold;
     delta_vs_reference_kg := delta;
     delta_vs_reference_percent :=
       F64.mul (F64.quot delta reference_threshold) (F64.of_Z 100);
     breakdown_kg_per_m2_bta := fst st;
     timber_t_per_m2_bta := timber;
     notes := snd st |}.

Definition estimate_closed (inp : ModelInputs) (hf : float)
    (lf : option float) (timber : float) : ModelResult :=
  result_of inp timber
    (step6_closed inp (stomme_pre inp) (grund_pre inp lf)
       (klimat_pre inp hf lf) (inner_pre inp) (tail_of inp)
       (validate_inputs inp)).

(** ** Inputs and predicates of the claims *)

(** Scenario D: no floors and a form factor of 5.0. *)
Definition scenarioD : ModelInputs :=
  with_floors 0 (with_form_factor (F64.of_Z 5) scenarioA).

(** The breakdown that a calculation over the reals gives for scenario A. *)
Definition scenarioA_real_breakdown : dict :=
  [(Stomme, F64.of_Z 159); (Grund, F64.dec 477 10);
   (Klimatskarm, F64.dec 795 10); (Innervaggar, F64.dec 318 10)].

(** The breakdown in double precision: the foundation is the product
    [318.0 * 0.15]. *)
Definition scenarioA_breakdown : dict :=
  [(Stomme, F64.of_Z 159);
   (Grund, F64.mul (F64.of_Z 318) (F64.dec 15 100));
   (Klimatskarm, F64.dec 795 10); (Innervaggar, F64.dec 318 10)].

(** Two configurations that agree on every field but the two
    structure-affected shares. *)
Definition same_but_structure_shares (c1 c2 : ModelConfig) : Prop :=
  median_kg_per_m2 c1 = median_kg_per_m2 c2
  /\ median_kg_per_m2_climate_improved c1 = median_kg_per_m2_climate_improved c2
  /\ shares_2022 c1 = shares_2022 c2
  /\ shares_2027 c1 = shares_2027 c2
  /\ ref_form_factor c1 = ref_form_factor c2
  /\ ref_window_ratio c1 = ref_window_ratio c2
  /\ window_to_wall_intensity_ratio c1 = window_to_wall_intensity_ratio c2
  /\ method_multiplier c1 = method_multiplier c2
  /\ garage_add_kg_per_m2_atemp_parking05 c1
     = garage_add_kg_per_m2_atemp_parking05 c2
  /\ timber_t_per_m2_default_by_system c1 = timber_t_per_m2_default_by_system c2
  /\ basement_add_kg_per_m2_bta c1 = basement_add_kg_per_m2_bta c2.

(** The clamp of step 2 as the code writes it:
    [max(0.8, min(1.3, x))]. *)
Definition clamp_height (x : float) : float := pymax f0_8 (pymin f1_3 x).

(** A method whose multiplier is 1.0 in the default table: the reference
    method, the two timber methods, and every string that is not a key. *)
Definition neutral_method (m : string) : Prop :=
  m = m_prefab \/ m = m_volym_tra \/ m = m_kl_tra
  \/ dict_mem m (method_multiplier default_config) = false.

Definition cast_in_place (m : string) : Prop :=
  m = m_platsgjuten_latta \/ m = m_platsgjuten_form.

(** Scenario C: the garage flag with parking ratio 0.5 and heated-area
    ratio 0.90, against the same input without the flag. *)
Definition garage_on (i : ModelInputs) : ModelInputs :=
  with_garage true (F64.dec 5 10) (F64.dec 90 100) i.

Definition garage_off (i : ModelInputs) : ModelInputs :=
  with_garage false (F64.dec 5 10) (F64.dec 90 100) i.

Definition is_affected (k : string) : bool :=
  existsb (String.eqb k) affected_keys.

(** Every float field of the input is a value of the binary64 format. *)
Definition opt_valid (o : option float) : bool :=
  match o with Some x => F64.valid x | None => true end.

Definition floats_valid (inp : ModelInputs) : bool :=
  F64.valid (form_factor inp) && F64.valid (window_ratio inp)
  && opt_valid (building_height_m inp)
  && F64.valid (climate_improved_applicability inp)
  && F64.valid (parking_ratio inp) && F64.valid (atemp_to_bta inp)
  && opt_valid (timber_t_per_m2_override inp).

(** Scenario B: the same input with a timber and with a concrete
    structure. *)
Definition timber_run (i : ModelInputs) : ModelInputs := with_system Tra i.
Definition concrete_run (i : ModelInputs) : ModelInputs := with_system Betong i.

(** The value added to the foundation by the garage, in units of
    [2^-1074]. *)
Definition garage_value (inp : ModelInputs) : Z :=
  if underground_garage inp then F64.V (garage_of inp) else 0.

Definition is_structural (k : string) : bool :=
  existsb (String.eqb k) [Stomme; Grund; Innervaggar].

(** Scenario B without its structural system: Scenario A with the
    extended boundary; [timber_run] and [concrete_run] set the system. *)
Definition scenarioB : ModelInputs := with_boundary B2027 scenarioA.

(** Scenario B with a form factor of 1e20. *)
Definition scenarioB_wide : ModelInputs :=
  with_form_factor (F64.of_Z (10 ^ 20)) scenarioB.

(** A configuration whose extended-boundary breakdown has the envelope as
    its only category. *)
Definition envelope_only_config : ModelConfig :=
  {| median_kg_per_m2 := median_kg_per_m2 default_config;
     median_kg_per_m2_climate_improved :=
       median_kg_per_m2_climate_improved default_config;
     shares_2022 := shares_2022 default_config;
     shares_2027 := [(Klimatskarm, f1)];
     ref_form_factor := ref_form_factor default_config;
     ref_window_ratio := ref_window_ratio default_config;
     window_to_wall_intensity_ratio :=
       window_to_wall_intensity_ratio default_config;
     method_multiplier := method_multiplier default_config;
     structure_affected_share_2022 :=
       structure_affected_share_2022 default_config;
     structure_affected_share_2027 :=
       structure_affected_share_2027 default_config;
     garage_add_kg_per_m2_atemp_parking05 :=
       garage_add_kg_per_m2_atemp_parking05 default_config;
     timber_t_per_m2_default_by_system :=
       timber_t_per_m2_default_by_system default_config;
     basement_add_kg_per_m2_bta := basement_add_kg_per_m2_bta default_config |}.

(** The real value of a finite float (0 for the others), and the two
    bounds of the rounding errors: the relative error [2^-50] and the
    absolute error of two units of the least positive value. *)
Definition value (x : float) : R := (IZR (F64.V x) / IZR F64.U)%R.
Definition u_rel : R := (1 / IZR (2 ^ 50))%R.
Definition u_abs : R := (2 / IZR F64.U)%R.

(** * app.py: from the sidebar widgets to [estimate] *)

(** [if x <= 0: x = None], applied to the building height and to the
    timber override that the number inputs return. *)
Definition none_if_not_positive (x : float) : option float :=
  if F64.leb x f0 then None else Some x.

(** The values returned by the widgets of the sidebar. *)
Record Widgets : Type := {
  ui_system_boundary : SystemBoundary;
  ui_form_factor : float;
  ui_window_percent : Z;
  ui_r_win : float;
  ui_floors : Z;
  ui_building_height_m : float;
  ui_structural_system : StructuralSystem;
  ui_method : string;
  ui_heavy_concrete_design : bool;
  ui_climate_improved : bool;
  ui_applicability_percent : Z;
  ui_basement : bool;
  ui_underground_garage : bool;
  ui_parking_ratio : float;
  ui_atemp_to_bta : float;
  ui_timber_override : float
}.

(** [st.slider(...) / 100.0] on an int slider: the int is converted to a
    float and divided. *)
Definition percent (n : Z) : result float :=
  x <- float_of_int n ;; fdiv x (F64.of_Z 100).

(** [replace(cfg, window_to_wall_intensity_ratio=r_win)]. *)
Definition with_window_intensity (r : float) (c : ModelConfig) : ModelConfig :=
  {| median_kg_per_m2 := median_kg_per_m2 c;
     median_kg_per_m2_climate_improved := median_kg_per_m2_climate_improved c;
     shares_2022 := shares_2022 c;
     shares_2027 := shares_2027 c;
     ref_form_factor := ref_form_factor c;
     ref_window_ratio := ref_window_ratio c;
     window_to_wall_intensity_ratio := r;
     method_multiplier := method_multiplier c;
     structure_affected_share_2022 := structure_affected_share_2022 c;
     structure_affected_share_2027 := structure_affected_share_2027 c;
     garage_add_kg_per_m2_atemp_parking05 :=
       garage_add_kg_per_m2_atemp_parking05 c;
     timber_t_per_m2_default_by_system := timber_t_per_m2_default_by_system c;
     basement_add_kg_per_m2_bta := basement_add_kg_per_m2_bta c |}.

Definition app_config (w : Widgets) : ModelConfig :=
  with_window_intensity (ui_r_win w) default_config.

(** [inp = ModelInputs(...)] of the script. *)
Definition app_inputs (w : Widgets) : result ModelInputs :=
  wr <- percent (ui_window_percent w) ;;
  ap <- percent (ui_applicability_percent w) ;;
  Ok {| system_boundary := ui_system_boundary w;
        form_factor := ui_form_factor w;
        window_ratio := wr;
        floors := ui_floors w;
        building_height_m := none_if_not_positive (ui_building_height_m w);
        structural_system := ui_structural_system w;
        method := ui_method w;
        heavy_concrete_design := ui_heavy_concrete_design w;
        climate_improved_materials := ui_climate_improved w;
        climate_improved_applicability := ap;
        basement := ui_basement w;
        underground_garage := ui_underground_garage w;
        parking_ratio := ui_parking_ratio w;
        atemp_to_bta := ui_atemp_to_bta w;
        timber_t_per_m2_override :=
          none_if_not_positive (ui_timber_override w) |}.

(** [res = estimate(inp, cfg)] of the script. *)
Definition app_estimate (w : Widgets) : result ModelResult :=
  inp <- app_inputs w ;; estimate inp (Some (app_config w)).

(** The options of the method select box for each structural system. *)
Definition ui_methods (s : StructuralSystem) : list string :=
  match s with
  | Betong => [m_prefab; m_platsgjuten_latta; m_platsgjuten_form]
  | Tra => [m_volym_tra; m_kl_tra]
  | Stal => [m_prefab; m_platsgjuten_latta]
  end.

(** The bounds that the widgets are declared with: slider minima and
    maxima, the minimum 0.0 of the two number inputs, the options of the
    select boxes. *)
Definition in_widget_ranges (w : Widgets) : Prop :=
  F64.valid (ui_form_factor w) = true
  /\ between (F64.dec 25 100) (ui_form_factor w) (F64.dec 120 100) = true
  /\ 5 <= ui_window_percent w <= 70
  /\ F64.valid (ui_r_win w) = true
  /\ between (F64.dec 15 10) (ui_r_win w) (F64.of_Z 8) = true
  /\ 1 <= ui_floors w <= 16
  /\ F64.valid (ui_building_height_m w) = true
  /\ F64.leb f0 (ui_building_height_m w) = true
  /\ In (ui_method w) (ui_methods (ui_structural_system w))
  /\ 0 <= ui_applicability_percent w <= 100
  /\ F64.valid (ui_parking_ratio w) = true
  /\ between f0 (ui_parking_ratio w) (F64.dec 15 10) = true
  /\ F64.valid (ui_atemp_to_bta w) = true
  /\ between (F64.dec 75 100) (ui_atemp_to_bta w) (F64.dec 98 100) = true
  /\ F64.valid (ui_timber_override w) = true
  /\ F64.leb f0 (ui_timber_override w) = true.

(** The widgets at their initial values. *)
Definition widgets_default : Widgets :=
  {| ui_system_boundary := B2022;
     ui_form_factor := F64.dec 45 100;
     ui_window_percent := 20;
     ui_r_win := F64.of_Z 4;
     ui_floors := 6;
     ui_building_height_m := f0;
     ui_structural_system := Betong;
     ui_method := m_prefab;
     ui_heavy_concrete_design := false;
     ui_climate_improved := false;
     ui_applicability_percent := 100;
     ui_basement := false;
     ui_underground_garage := false;
     ui_parking_ratio := F64.dec 5 10;
     ui_atemp_to_bta := F64.dec 90 100;
     ui_timber_override := f0 |}.

(** * Predicates and updates of the further properties *)

(** The six tests of the validator, all passed. *)
Definition in_validated_ranges (inp : ModelInputs) : bool :=
  between (F64.dec 2 10) (form_factor inp) (F64.dec 15 10)
  && between f0 (window_ratio inp) (F64.dec 9 10)
  && (1 <=? floors inp)
  && between f0 (parking_ratio inp) (F64.of_Z 2)
  && between (F64.dec 7 10) (atemp_to_bta inp) f1
  && negb (F64.ltb (climate_improved_applicability inp) f0
           || F64.gtb (climate_improved_applicability inp) f1).

(** Two results that agree on every field but the notes, and two
    outcomes that are such results or the same exception. *)
Definition same_numbers (r1 r2 : ModelResult) : Prop :=
  total_kg_per_m2_bta r1 = total_kg_per_m2_bta r2
  /\ total_t_per_m2_bta r1 = total_t_per_m2_bta r2
  /\ reference_kg_per_m2_bta r1 = reference_kg_per_m2_bta r2
  /\ delta_vs_reference_kg r1 = delta_vs_reference_kg r2
  /\ delta_vs_reference_percent r1 = delta_vs_reference_percent r2
  /\ breakdown_kg_per_m2_bta r1 = breakdown_kg_per_m2_bta r2
  /\ timber_t_per_m2_bta r1 = timber_t_per_m2_bta r2.

Definition same_outcome_but_notes (o1 o2 : result ModelResult) : Prop :=
  match o1, o2 with
  | Ok r1, Ok r2 => same_numbers r1 r2
  | Raise e1, Raise e2 => e1 = e2
  | _, _ => False
  end.

Definition with_applicability (x : float) (i : ModelInputs) : ModelInputs :=
  {| system_boundary := system_boundary i;
     form_factor := form_factor i;
     window_ratio := window_ratio i;
     floors := floors i;
     building_height_m := building_height_m i;
     structural_system := structural_system i;
     method := method i;
     heavy_concrete_design := heavy_concrete_design i;
     climate_improved_materials := climate_improved_materials i;
     climate_improved_applicability := x;
     basement := basement i;
     underground_garage := underground_garage i;
     parking_ratio := parking_ratio i;
     atemp_to_bta := atemp_to_bta i;
     timber_t_per_m2_override := timber_t_per_m2_override i |}.

(** Two configurations that agree on every field but one table. *)
Definition with_timber_table (d : dict) (c : ModelConfig) : ModelConfig :=
  {| median_kg_per_m2 := median_kg_per_m2 c;
     median_kg_per_m2_climate_improved := median_kg_per_m2_climate_improved c;
     shares_2022 := shares_2022 c;
     shares_2027 := shares_2027 c;
     ref_form_factor := ref_form_factor c;
     ref_window_ratio := ref_window_ratio c;
     window_to_wall_intensity_ratio := window_to_wall_intensity_ratio c;
     method_multiplier := method_multiplier c;
     structure_affected_share_2022 := structure_affected_share_2022 c;
     structure_affected_share_2027 := structure_affected_share_2027 c;
     garage_add_kg_per_m2_atemp_parking05 :=
       garage_add_kg_per_m2_atemp_parking05 c;
     timber_t_per_m2_default_by_system := d;
     basement_add_kg_per_m2_bta := basement_add_kg_per_m2_bta c |}.

Definition with_median_improved (d : dict) (c : ModelConfig) : ModelConfig :=
  {| median_kg_per_m2 := median_kg_per_m2 c;
     median_kg_per_m2_climate_improved := d;
     shares_2022 := shares_2022 c;
     shares_2027 := shares_2027 c;
     ref_form_factor := ref_form_factor c;
     ref_window_ratio := ref_window_ratio c;
     window_to_wall_intensity_ratio := window_to_wall_intensity_ratio c;
     method_multiplier := method_multiplier c;
     structure_affected_share_2022 := structure_affected_share_2022 c;
     structure_affected_share_2027 := structure_affected_share_2027 c;
     garage_add_kg_per_m2_atemp_parking05 :=
       garage_add_kg_per_m2_atemp_parking05 c;
     timber_t_per_m2_default_by_system := timber_t_per_m2_default_by_system c;
     basement_add_kg_per_m2_bta := basement_add_kg_per_m2_bta c |}.

(** The shares of the boundary of an input, and the keys of the
    breakdown that [estimate] builds from them: the keys of the shares,
    and the foundation last when a basement or a garage adds it. *)
Definition shares_of (cfg : ModelConfig) (inp : ModelInputs) : dict :=
  if boundary_eqb (system_boundary inp) B2022
  then shares_2022 cfg else shares_2027 cfg.

Definition breakdown_keys (cfg : ModelConfig) (inp : ModelInputs)
    : list string :=
  dict_keys (shares_of cfg inp)
  ++ (if (basement inp || underground_garage inp)
         && negb (dict_mem Grund (shares_of cfg inp))
      then [Grund] else []).

(** The same input with a steel structure. *)
Definition steel_run (i : ModelInputs) : ModelInputs := with_system Stal i.

(** ** The envelope when the window intensity of the configuration is [r]

    [replace(cfg, window_to_wall_intensity_ratio=r)] changes the
    envelope category only; the other categories are those of the
    default configuration. *)

Definition envelope_with (r : float) (inp : ModelInputs) (hf : float) : float :=
  envelope_factor
    (F64.quot (form_factor inp) (F64.dec 45 100)) hf
    (F64.quot (window_mix (window_ratio inp) r)
              (window_mix (F64.dec 20 100) r)).

Definition klimat_with (r : float) (inp : ModelInputs) (hf : float)
    (lf : option float) : float :=
  scale_opt lf (F64.mul (F64.mul (base_of (system_boundary inp))
                                 (share_of (system_boundary inp) Klimatskarm))
                        (envelope_with r inp hf)).

Definition pre_closed_with (r : float) (inp : ModelInputs) (hf : float)
    (lf : option float) : dict :=
  [(Stomme, stomme_pre inp); (Grund, grund_pre inp lf);
   (Klimatskarm, klimat_with r inp hf lf); (Innervaggar, inner_pre inp)]
  ++ tail_of inp.

(** A float that compares strictly greater than 0.0 and is not so small
    that a sum with it could round to zero: positive infinity, or
    positive and finite of a magnitude above the least exponent. *)
Definition positive_float (x : float) : Prop :=
  match x with
  | S754_finite false m e => F64.emin < F64.mag m e
  | S754_infinity false => True
  | _ => False
  end.

(** The same input with another floor count is [with_floors]; the same
    widgets with another window intensity: *)
Definition with_ui_r_win (r : float) (w : Widgets) : Widgets :=
  {| ui_system_boundary := ui_system_boundary w;
     ui_form_factor := ui_form_factor w;
     ui_window_percent := ui_window_percent w;
     ui_r_win := r;
     ui_floors := ui_floors w;
     ui_building_height_m := ui_building_height_m w;
     ui_structural_system := ui_structural_system w;
     ui_method := ui_method w;
     ui_heavy_concrete_design := ui_heavy_concrete_design w;
     ui_climate_improved := ui_climate_improved w;
     ui_applicability_percent := ui_applicability_percent w;
     ui_basement := ui_basement w;
     ui_underground_garage := ui_underground_garage w;
     ui_parking_ratio := ui_parking_ratio w;
     ui_atemp_to_bta := ui_atemp_to_bta w;
     ui_timber_override := ui_timber_override w |}.

(** Configurations that differ from a given one in the table of generic
    medians, or in the reference form factor. *)
Definition with_median (d : dict) (c : ModelConfig) : ModelConfig :=
  {| median_kg_per_m2 := d;
     median_kg_per_m2_climate_improved := median_kg_per_m2_climate_improved c;
     shares_2022 := shares_2022 c;
     shares_2027 := shares_2027 c;
     ref_form_factor := ref_form_factor c;
     ref_window_ratio := ref_window_ratio c;
     window_to_wall_intensity_ratio := window_to_wall_intensity_ratio c;
     method_multiplier := method_multiplier c;
     structure_affected_share_2022 := structure_affected_share_2022 c;
     structure_affected_share_2027 := structure_affected_share_2027 c;
     garage_add_kg_per_m2_atemp_parking05 :=
       garage_add_kg_per_m2_atemp_parking05 c;
     timber_t_per_m2_default_by_system := timber_t_per_m2_default_by_system c;
     basement_add_kg_per_m2_bta := basement_add_kg_per_m2_bta c |}.

Definition with_ref_form_factor (x : float) (c : ModelConfig) : ModelConfig :=
  {| median_kg_per_m2 := median_kg_per_m2 c;
     median_kg_per_m2_climate_improved := median_kg_per_m2_climate_improved c;
     shares_2022 := shares_2022 c;
     shares_2027 := shares_2027 c;
     ref_form_factor := x;
     ref_window_ratio := ref_window_ratio c;
     window_to_wall_intensity_ratio := window_to_wall_intensity_ratio c;
     method_multiplier := method_multiplier c;
     structure_affected_share_2022 := structure_affected_share_2022 c;
     structure_affected_share_2027 := structure_affected_share_2027 c;
     garage_add_kg_per_m2_atemp_parking05 :=
       garage_add_kg_per_m2_atemp_parking05 c;
     timber_t_per_m2_default_by_system := timber_t_per_m2_default_by_system c;
     basement_add_kg_per_m2_bta := basement_add_kg_per_m2_bta c |}.


(** * Facts on binary64 rounding

    [SpecFloat] defines the operations; the facts below are what the
    pipeline needs of them: the sign of a rounded result, and its
    magnitude [digits + exponent] when no overflow or underflow is
    possible. *)

Module F64Facts.

Import F64.

Lemma fexp_eq e : fexp prec emax e = Z.max (e - 53) emin.
Proof. reflexivity. Qed.

(** ** Number of binary digits *)

Lemma digits2_pos_size p : digits2_pos p = Pos.size p.
Proof. induction p; simpl; congruence. Qed.

Lemma Zdigits2_log2 m : 0 < m -> Zdigits2 m = Z.log2 m + 1.
Proof.
  destruct m as [|p|p]; try lia. intros _. simpl.
  rewrite digits2_pos_size.
  destruct p; simpl; lia.
Qed.

Lemma Zdigits2_0 : Zdigits2 0 = 0.
Proof. reflexivity. Qed.

Lemma Zdigits2_pos m : 0 < m -> 0 < Zdigits2 m.
Proof.
  intros H. rewrite Zdigits2_log2 by assumption.
  pose proof (Z.log2_nonneg m). lia.
Qed.

Lemma Zdigits2_bounds m :
  0 < m -> 2 ^ (Zdigits2 m - 1) <= m < 2 ^ Zdigits2 m.
Proof.
  intros H. rewrite Zdigits2_log2 by assumption.
  replace (Z.log2 m + 1 - 1) with (Z.log2 m) by lia.
  replace (Z.log2 m + 1) with (Z.succ (Z.log2 m)) by lia.
  apply Z.log2_spec; assumption.
Qed.

Lemma Zdigits2_unique m d :
  0 < d -> 2 ^ (d - 1) <= m < 2 ^ d -> Zdigits2 m = d.
Proof.
  intros Hd H.
  assert (0 < m) by (pose proof (Z.pow_pos_nonneg 2 (d - 1)); lia).
  rewrite Zdigits2_log2 by assumption.
  rewrite (Z.log2_unique m (d - 1)); try lia.
  replace (Z.succ (d - 1)) with d by lia. lia.
Qed.

Lemma Zdigits2_mono a b : 0 < a -> a <= b -> Zdigits2 a <= Zdigits2 b.
Proof.
  intros Ha Hab. rewrite !Zdigits2_log2 by lia.
  pose proof (Z.log2_le_mono a b Hab). lia.
Qed.

Lemma Zdigits2_lt_pow m d : 0 < m -> 0 <= d -> m < 2 ^ d -> Zdigits2 m <= d.
Proof.
  intros Hm Hd H.
  destruct (Z_le_gt_dec (Zdigits2 m) d) as [|Hgt]; [assumption|exfalso].
  pose proof (Zdigits2_bounds m Hm) as [Hlo _].
  assert (2 ^ d <= 2 ^ (Zdigits2 m - 1)) by (apply Z.pow_le_mono_r; lia).
  lia.
Qed.

Lemma Zdigits2_ge_pow m d : 0 <= d -> 2 ^ d <= m -> d + 1 <= Zdigits2 m.
Proof.
  intros Hd H.
  assert (Hm : 0 < m) by (pose proof (Z.pow_pos_nonneg 2 d); lia).
  destruct (Z_le_gt_dec (d + 1) (Zdigits2 m)) as [|Hgt]; [assumption|exfalso].
  pose proof (Zdigits2_bounds m Hm) as [_ Hhi].
  pose proof (Zdigits2_pos m Hm).
  assert (2 ^ Zdigits2 m <= 2 ^ d) by (apply Z.pow_le_mono_r; lia).
  lia.
Qed.

Lemma Zdigits2_succ m : 0 < m -> Zdigits2 (m + 1) <= Zdigits2 m + 1.
Proof.
  intros Hm. pose proof (Zdigits2_bounds m Hm) as [_ Hhi].
  pose proof (Zdigits2_pos m Hm).
  apply Zdigits2_lt_pow; try lia.
  rewrite Z.pow_add_r by lia. change (2 ^ 1) with 2. lia.
Qed.

Lemma Zdigits2_shiftl m k :
  0 < m -> 0 <= k -> Zdigits2 (m * 2 ^ k) = Zdigits2 m + k.
Proof.
  intros Hm Hk.
  pose proof (Zdigits2_bounds m Hm) as [Hlo Hhi].
  pose proof (Zdigits2_pos m Hm).
  pose proof (Z.pow_pos_nonneg 2 k).
  apply Zdigits2_unique; try lia.
  replace (Zdigits2 m + k - 1) with (Zdigits2 m - 1 + k) by lia.
  rewrite !Z.pow_add_r by lia. nia.
Qed.

Lemma Zdigits2_div_pow m k :
  0 < m -> 0 <= k -> k < Zdigits2 m ->
  0 < m / 2 ^ k /\ Zdigits2 (m / 2 ^ k) = Zdigits2 m - k.
Proof.
  intros Hm Hk Hlt.
  pose proof (Zdigits2_bounds m Hm) as [Hlo Hhi].
  pose proof (Z.pow_pos_nonneg 2 k).
  assert (Hq : 2 ^ (Zdigits2 m - k - 1) <= m / 2 ^ k < 2 ^ (Zdigits2 m - k)).
  { split.
    - apply Z.div_le_lower_bound; try lia.
      rewrite <- Z.pow_add_r by lia.
      replace (k + (Zdigits2 m - k - 1)) with (Zdigits2 m - 1) by lia.
      assumption.
    - apply Z.div_lt_upper_bound; try lia.
      rewrite <- Z.pow_add_r by lia.
      replace (k + (Zdigits2 m - k)) with (Zdigits2 m) by lia.
      assumption. }
  pose proof (Z.pow_pos_nonneg 2 (Zdigits2 m - k - 1)).
  split; [lia|].
  apply Zdigits2_unique; lia.
Qed.

Lemma div_pow_small m k : 0 <= m -> 0 <= k -> Zdigits2 m <= k -> m / 2 ^ k = 0.
Proof.
  intros Hm Hk Hd.
  destruct (Z.eq_dec m 0) as [->|Hne]; [apply Z.div_0_l; pose proof (Z.pow_pos_nonneg 2 k); lia|].
  apply Z.div_small.
  pose proof (Zdigits2_bounds m ltac:(lia)) as [_ Hhi].
  assert (2 ^ Zdigits2 m <= 2 ^ k) by (apply Z.pow_le_mono_r; lia).
  lia.
Qed.

(** ** Shifting a mantissa to the right *)

Lemma shr_1_m r : 0 <= shr_m r -> shr_m (shr_1 r) = shr_m r / 2.
Proof.
  destruct r as [m rb sb]. simpl. intros Hm.
  destruct m as [|p|p]; try lia.
  - reflexivity.
  - destruct p; simpl shr_m.
    + rewrite Pos2Z.inj_xI. apply (Z.div_unique _ _ _ 1); lia.
    + rewrite Pos2Z.inj_xO. apply (Z.div_unique _ _ _ 0); lia.
    + reflexivity.
Qed.

Lemma div_pow_nonneg m k : 0 <= m -> 0 <= m / 2 ^ k.
Proof.
  intros Hm. destruct (Z_le_gt_dec 0 k).
  - apply Z.div_pos; [assumption|apply Z.pow_pos_nonneg; lia].
  - rewrite Z.pow_neg_r by lia. rewrite Z.div_0_r. lia.
Qed.

Lemma iter_shr_1_m p : forall r,
  0 <= shr_m r -> shr_m (iter_pos shr_1 p r) = shr_m r / 2 ^ Zpos p.
Proof.
  pose proof (Z.pow_pos_nonneg 2 (Z.pos p)) as Hpp.
  induction p as [p IH|p IH|]; intros r Hr; simpl iter_pos.
  - pose proof (Z.pow_pos_nonneg 2 (Z.pos p)) as Hp.
    assert (H1 : 0 <= shr_m (shr_1 r))
      by (rewrite shr_1_m by assumption; apply Z.div_pos; lia).
    assert (H2 : 0 <= shr_m (iter_pos shr_1 p (shr_1 r)))
      by (rewrite IH by (try assumption; lia); apply div_pow_nonneg; assumption).
    rewrite IH by (try assumption; lia).
    rewrite IH by (try assumption; lia).
    rewrite shr_1_m by assumption.
    rewrite !Z.div_div by lia.
    f_equal.
    assert (E : Z.pos p~1 = 1 + Z.pos p + Z.pos p) by lia.
    rewrite E, !Z.pow_add_r by lia. change (2 ^ 1) with 2. lia.
  - pose proof (Z.pow_pos_nonneg 2 (Z.pos p)) as Hp.
    assert (H2 : 0 <= shr_m (iter_pos shr_1 p r))
      by (rewrite IH by (try assumption; lia); apply div_pow_nonneg; assumption).
    rewrite IH by (try assumption; lia).
    rewrite IH by (try assumption; lia).
    rewrite Z.div_div by lia.
    f_equal.
    assert (E : Z.pos p~0 = Z.pos p + Z.pos p) by lia.
    rewrite E, Z.pow_add_r by lia. reflexivity.
  - rewrite shr_1_m by assumption. reflexivity.
Qed.

Lemma shr_record_of_loc_m m l : shr_m (shr_record_of_loc m l) = m.
Proof. destruct l as [|[]]; reflexivity. Qed.

Lemma loc_of_shr_record_of_loc m l :
  loc_of_shr_record (shr_record_of_loc m l) = l.
Proof. destruct l as [|[]]; reflexivity. Qed.

(** The mantissa and exponent after [shr]: a division by a power of two
    when the shift is positive, nothing otherwise. *)
Lemma shr_m_spec r e n :
  0 <= shr_m r ->
  shr_m (fst (shr r e n)) = shr_m r / 2 ^ Z.max n 0
  /\ snd (shr r e n) = e + Z.max n 0.
Proof.
  intros Hr. destruct n as [|p|p]; simpl.
  - rewrite Z.div_1_r. lia.
  - rewrite iter_shr_1_m by assumption. split; [reflexivity|lia].
  - rewrite Z.div_1_r. lia.
Qed.

Lemma round_nearest_even_bounds m l :
  m <= round_nearest_even m l <= m + 1.
Proof.
  destruct l as [|[]]; simpl; try lia.
  destruct (Z.even m); lia.
Qed.

(** ** The arithmetic content of [binary_round_aux] *)

Lemma shr_fexp_spec m e l :
  0 <= m ->
  let k := Z.max (fx (Zdigits2 m + e) - e) 0 in
  shr_m (fst (shr_fexp prec emax m e l)) = m / 2 ^ k
  /\ snd (shr_fexp prec emax m e l) = e + k.
Proof.
  intros Hm k. unfold shr_fexp.
  pose proof (shr_m_spec (shr_record_of_loc m l) e
                (fexp prec emax (Zdigits2 m + e) - e)) as H.
  rewrite shr_record_of_loc_m in H. specialize (H Hm).
  rewrite fexp_eq in H. exact H.
Qed.

Lemma bra_spec s mx ex lx :
  0 <= mx ->
  exists mr,
    let k1 := Z.max (fx (Zdigits2 mx + ex) - ex) 0 in
    let m1 := mx / 2 ^ k1 in
    let e1 := ex + k1 in
    let k2 := Z.max (fx (Zdigits2 mr + e1) - e1) 0 in
    m1 <= mr <= m1 + 1
    /\ binary_round_aux prec emax s mx ex lx
       = bra_result s (mr / 2 ^ k2) (e1 + k2).
Proof.
  intros Hm. unfold binary_round_aux.
  pose proof (shr_fexp_spec mx ex lx Hm) as [Hm1 He1].
  destruct (shr_fexp prec emax mx ex lx) as [mrs1 e1]. simpl in Hm1, He1.
  set (mr := round_nearest_even (shr_m mrs1) (loc_of_shr_record mrs1)).
  exists mr.
  pose proof (round_nearest_even_bounds (shr_m mrs1) (loc_of_shr_record mrs1))
    as Hb. fold mr in Hb. rewrite Hm1 in Hb.
  assert (Hmr : 0 <= mr)
    by (pose proof (div_pow_nonneg mx
          (Z.max (fx (Zdigits2 mx + ex) - ex) 0) Hm); lia).
  pose proof (shr_fexp_spec mr e1 loc_Exact Hmr) as [Hm2 He2].
  destruct (shr_fexp prec emax mr e1 loc_Exact) as [mrs2 e2].
  simpl in Hm2, He2. subst e1 e2.
  split; [exact Hb|]. rewrite Hm2. reflexivity.
Qed.

(** ** Sign and magnitude of a rounded result *)

Lemma bounded_intro m e :
  fx (mag m e) = e -> e <= 971 -> bounded prec emax m e = true.
Proof.
  intros Hc He. unfold bounded, canonical_mantissa.
  rewrite fexp_eq. fold (mag m e). fold (fx (mag m e)). rewrite Hc.
  rewrite Z.eqb_refl. simpl. apply Z.leb_le. exact He.
Qed.

Lemma bra_mag s mx ex lx :
  0 < mx ->
  match binary_round_aux prec emax s mx ex lx with
  | S754_zero s' => s' = s /\ Zdigits2 mx + ex <= emin
  | S754_finite s' m e =>
      s' = s /\ mag m e <= Z.max (Zdigits2 mx + ex) emin + 1
      /\ (emin < Zdigits2 mx + ex -> Zdigits2 mx + ex <= mag m e)
      /\ (ex <= fx (Zdigits2 mx + ex) -> bounded prec emax m e = true)
  | S754_infinity s' =>
      s' = s /\ (1023 < Zdigits2 mx + ex \/ 971 < ex)
  | S754_nan => False
  end.
Proof.
  intros Hmx.
  destruct (bra_spec s mx ex lx) as [mr [Hb E]]; [lia|]. rewrite E. clear E.
  pose proof (Zdigits2_pos mx Hmx) as Hd.
  remember (Zdigits2 mx) as d eqn:Ed.
  remember (Z.max (fx (d + ex) - ex) 0) as k1 eqn:Ek1.
  remember (mx / 2 ^ k1) as m1 eqn:Em1.
  remember (Z.max (fx (Zdigits2 mr + (ex + k1)) - (ex + k1)) 0) as k2 eqn:Ek2.
  unfold fx in Ek1. unfold emin in *.
  destruct (Z_le_gt_dec (d + ex) (-1074)) as [Hsub|Hnorm].
  - (* below the subnormal range: the mantissa is shifted out *)
    assert (Hk1 : k1 = -1074 - ex) by lia.
    assert (Hm1 : m1 = 0).
    { subst m1. apply div_pow_small; lia. }
    assert (Hmr : mr = 0 \/ mr = 1) by lia.
    destruct Hmr as [-> | ->].
    + assert (Hk2 : k2 = 0)
        by (rewrite Ek2, Zdigits2_0; unfold fx, emin; lia).
      rewrite Hk2, Z.pow_0_r, Z.div_1_r. simpl. split; [reflexivity|lia].
    + assert (Hk2 : k2 = 0)
        by (rewrite Ek2; change (Zdigits2 1) with 1; unfold fx, emin; lia).
      rewrite Hk2, Z.pow_0_r, Z.div_1_r. unfold bra_result.
      replace (ex + k1 + 0) with (-1074) by lia.
      change (-1074 <=? 971) with true. cbv iota.
      split; [reflexivity|]. unfold mag. change (Z.pos (digits2_pos 1)) with 1.
      split; [lia|]. split; [lia|]. intros _. reflexivity.
  - (* the mantissa keeps at least one digit *)
    assert (Hk1d : 0 <= k1 < d) by lia.
    destruct (Zdigits2_div_pow mx k1 Hmx ltac:(lia) ltac:(lia)) as [Hm1 Hd1].
    rewrite <- Em1 in Hm1, Hd1. rewrite <- Ed in Hd1.
    assert (Hmr : 0 < mr) by lia.
    pose proof (Zdigits2_mono m1 mr Hm1 ltac:(lia)) as Hlo.
    pose proof (Zdigits2_mono mr (m1 + 1) Hmr ltac:(lia)) as Hhi.
    pose proof (Zdigits2_succ m1 Hm1) as Hs.
    remember (Zdigits2 mr) as dr eqn:Edr.
    remember (Zdigits2 m1) as d1 eqn:Ed1.
    unfold fx, emin in Ek2.
    assert (Hk2 : k2 = 0 \/ (k2 = 1 /\ dr = 54)) by lia.
    destruct Hk2 as [-> | [-> Hdr]].
    + rewrite Z.pow_0_r, Z.div_1_r.
      destruct mr as [|pr|pr]; try lia.
      unfold bra_result. simpl in Edr.
      destruct (Z.leb_spec (ex + k1 + 0) 971) as [Hle|Hgt].
      * unfold mag. rewrite <- Edr.
        split; [reflexivity|]. split; [lia|]. split; [lia|].
        intros Hcan. unfold fx, emin in Hcan.
        apply bounded_intro; unfold mag, fx, emin; rewrite <- ?Edr; lia.
      * split; [reflexivity|lia].
    + change (2 ^ 1) with 2.
      destruct (Zdigits2_div_pow mr 1 Hmr ltac:(lia) ltac:(lia)) as [Hm2 Hd2].
      change (2 ^ 1) with 2 in Hm2, Hd2. rewrite <- Edr in Hd2.
      destruct (mr / 2) as [|p2|p2]; try lia.
      unfold bra_result. simpl in Hd2.
      destruct (Z.leb_spec (ex + k1 + 1) 971) as [Hle|Hgt].
      * unfold mag. rewrite Hd2.
        split; [reflexivity|]. split; [lia|]. split; [lia|].
        intros Hcan. unfold fx, emin in Hcan.
        apply bounded_intro; unfold mag, fx, emin; rewrite ?Hd2; lia.
      * split; [reflexivity|lia].
Qed.

Lemma bra_sign s mx ex lx :
  0 <= mx ->
  match binary_round_aux prec emax s mx ex lx with
  | S754_zero s' | S754_infinity s' | S754_finite s' _ _ => s' = s
  | S754_nan => False
  end.
Proof.
  intros Hmx. destruct (bra_spec s mx ex lx Hmx) as [mr [Hb E]]. rewrite E.
  assert (Hmr : 0 <= mr)
    by (pose proof (div_pow_nonneg mx
          (Z.max (fx (Zdigits2 mx + ex) - ex) 0) Hmx); lia).
  pose proof (div_pow_nonneg mr
    (Z.max (fx (Zdigits2 mr + (ex + Z.max (fx (Zdigits2 mx + ex) - ex) 0))
            - (ex + Z.max (fx (Zdigits2 mx + ex) - ex) 0)) 0) Hmr) as Hq.
  unfold bra_result.
  destruct (mr / 2 ^ _) as [|p|p]; try lia; try reflexivity.
  destruct (_ <=? 971); reflexivity.
Qed.

(** ** Alignment to the left and [binary_round] *)

Lemma pos_iter_xO m d : Zpos (Pos.iter xO m d) = Zpos m * 2 ^ Zpos d.
Proof.
  induction d as [|d IH] using Pos.peano_ind.
  - simpl. lia.
  - rewrite Pos.iter_succ, Pos2Z.inj_xO, IH, Pos2Z.inj_succ.
    rewrite Z.pow_succ_r by lia. lia.
Qed.

Lemma shl_align_spec mx ex ex' :
  Zpos (fst (shl_align mx ex ex')) = Zpos mx * 2 ^ (ex - Z.min ex ex')
  /\ snd (shl_align mx ex ex') = Z.min ex ex'.
Proof.
  unfold shl_align.
  destruct (ex' - ex) as [|d|d] eqn:E; cbn [fst snd].
  - replace (Z.min ex ex') with ex by lia.
    rewrite Z.sub_diag, Z.pow_0_r. lia.
  - replace (Z.min ex ex') with ex by lia.
    rewrite Z.sub_diag, Z.pow_0_r. lia.
  - replace (Z.min ex ex') with ex' by lia.
    rewrite pos_iter_xO. replace (ex - ex') with (Z.pos d) by lia. lia.
Qed.

Lemma mag_Zdigits2 m e : mag m e = Zdigits2 (Zpos m) + e.
Proof. reflexivity. Qed.

Lemma binary_round_mag s m e :
  match binary_round prec emax s m e with
  | S754_zero s' => s' = s /\ mag m e <= emin
  | S754_finite s' m' e' =>
      s' = s /\ mag m' e' <= Z.max (mag m e) emin + 1
      /\ (emin < mag m e -> mag m e <= mag m' e')
      /\ bounded prec emax m' e' = true
  | S754_infinity s' => s' = s /\ 1023 < mag m e
  | S754_nan => False
  end.
Proof.
  unfold binary_round.
  pose proof (shl_align_spec m e (fexp prec emax (Z.pos (digits2_pos m) + e)))
    as [Hmz Hez].
  destruct (shl_align m e _) as [mz ez]. cbn [fst snd] in Hmz, Hez.
  rewrite <- Hez in Hmz.
  rewrite fexp_eq in Hez. fold (mag m e) in Hez. fold (fx (mag m e)) in Hez.
  assert (Hmag : Zdigits2 (Zpos mz) + ez = mag m e).
  { rewrite Hmz, Zdigits2_shiftl by lia. rewrite mag_Zdigits2. lia. }
  pose proof (bra_mag s (Zpos mz) ez loc_Exact ltac:(lia)) as H.
  rewrite Hmag in H.
  destruct (binary_round_aux prec emax s (Z.pos mz) ez loc_Exact);
    try assumption.
  - destruct H as [H1 H2]. split; [assumption|].
    unfold fx, emin in Hez. lia.
  - destruct H as (H1 & H2 & H3 & H4).
    repeat split; try assumption. apply H4. lia.
Qed.

(** ** Conversion of integers *)

Lemma of_Z_pos z :
  0 < z ->
  (exists s, of_Z z = S754_infinity s /\ 1023 < Zdigits2 z)
  \/ (exists m e, of_Z z = S754_finite false m e
        /\ Zdigits2 z <= mag m e <= Zdigits2 z + 1
        /\ bounded prec emax m e = true).
Proof.
  intros Hz. destruct z as [|p|p]; try lia.
  unfold of_Z, binary_normalize.
  pose proof (binary_round_mag false p 0) as H.
  rewrite mag_Zdigits2, Z.add_0_r in H.
  pose proof (Zdigits2_pos (Zpos p) Hz) as Hpos.
  destruct (binary_round prec emax false p 0) as [s'|s'| |s' m' e'];
    try contradiction.
  - unfold emin in H. lia.
  - left. exists s'. split; [reflexivity|tauto].
  - right. destruct H as (-> & H2 & H3 & H4). exists m', e'.
    unfold emin in *. repeat split; try assumption; lia.
Qed.

Lemma Zdigits2_le_1023 z : 0 < z -> z < 2 ^ 1023 -> Zdigits2 z <= 1023.
Proof. intros Hz H. apply Zdigits2_lt_pow; lia. Qed.

(** ** Digits of products, sums and quotients *)

Lemma Zdigits2_mul a b :
  0 < a -> 0 < b ->
  Zdigits2 a + Zdigits2 b - 1 <= Zdigits2 (a * b) <= Zdigits2 a + Zdigits2 b.
Proof.
  intros Ha Hb.
  pose proof (Zdigits2_bounds a Ha) as [Ha1 Ha2].
  pose proof (Zdigits2_bounds b Hb) as [Hb1 Hb2].
  pose proof (Zdigits2_pos a Ha). pose proof (Zdigits2_pos b Hb).
  pose proof (Z.pow_pos_nonneg 2 (Zdigits2 a - 1)).
  pose proof (Z.pow_pos_nonneg 2 (Zdigits2 b - 1)).
  split.
  - replace (Zdigits2 a + Zdigits2 b - 1)
      with ((Zdigits2 a - 1) + (Zdigits2 b - 1) + 1) by lia.
    apply Zdigits2_ge_pow; [lia|].
    rewrite Z.pow_add_r by lia. nia.
  - apply Zdigits2_lt_pow; [nia|lia|].
    rewrite Z.pow_add_r by lia. nia.
Qed.

Lemma Zdigits2_add a b :
  0 < a -> 0 <= b ->
  Zdigits2 a <= Zdigits2 (a + b) <= Z.max (Zdigits2 a) (Zdigits2 b) + 1.
Proof.
  intros Ha Hb. split; [apply Zdigits2_mono; lia|].
  pose proof (Zdigits2_bounds a Ha) as [_ Ha2].
  pose proof (Zdigits2_pos a Ha).
  assert (Hb2 : b < 2 ^ Zdigits2 b \/ b = 0).
  { destruct (Z.eq_dec b 0); [auto|left].
    apply (Zdigits2_bounds b); lia. }
  assert (0 <= Zdigits2 b).
  { destruct (Z.eq_dec b 0) as [->|]; [rewrite Zdigits2_0; lia|].
    pose proof (Zdigits2_pos b); lia. }
  apply Zdigits2_lt_pow; [lia|lia|].
  rewrite Z.pow_add_r by lia. change (2 ^ 1) with 2.
  assert (2 ^ Zdigits2 a <= 2 ^ Z.max (Zdigits2 a) (Zdigits2 b))
    by (apply Z.pow_le_mono_r; lia).
  assert (2 ^ Zdigits2 b <= 2 ^ Z.max (Zdigits2 a) (Zdigits2 b))
    by (apply Z.pow_le_mono_r; lia).
  destruct Hb2; lia.
Qed.

Lemma Zdigits2_quot a b :
  0 < a -> 0 < b -> Zdigits2 b < Zdigits2 a ->
  0 < a / b
  /\ Zdigits2 a - Zdigits2 b <= Zdigits2 (a / b)
     <= Zdigits2 a - Zdigits2 b + 1.
Proof.
  intros Ha Hb Hd.
  pose proof (Zdigits2_bounds a Ha) as [Ha1 Ha2].
  pose proof (Zdigits2_bounds b Hb) as [Hb1 Hb2].
  pose proof (Zdigits2_pos b Hb) as Hdb.
  set (da := Zdigits2 a) in *. set (db := Zdigits2 b) in *.
  assert (Hlo : 2 ^ (da - db - 1) <= a / b).
  { apply Z.div_le_lower_bound; [lia|].
    assert (b * 2 ^ (da - db - 1) <= 2 ^ db * 2 ^ (da - db - 1))
      by (apply Z.mul_le_mono_nonneg_r;
          [apply Z.pow_nonneg|]; lia).
    rewrite <- Z.pow_add_r in H by lia.
    replace (db + (da - db - 1)) with (da - 1) in H by lia. lia. }
  assert (Hhi : a / b < 2 ^ (da - db + 1)).
  { apply Z.div_lt_upper_bound; [lia|].
    assert (2 ^ (db - 1) * 2 ^ (da - db + 1) <= b * 2 ^ (da - db + 1))
      by (apply Z.mul_le_mono_nonneg_r;
          [apply Z.pow_nonneg|]; lia).
    rewrite <- Z.pow_add_r in H by lia.
    replace (db - 1 + (da - db + 1)) with da in H by lia. lia. }
  pose proof (Z.pow_pos_nonneg 2 (da - db - 1)).
  assert (Hq : 0 < a / b) by lia.
  split; [assumption|]. split.
  - replace (da - db) with ((da - db - 1) + 1) by lia.
    apply Zdigits2_ge_pow; lia.
  - apply Zdigits2_lt_pow; lia.
Qed.

(** ** Sign of products, sums and quotients *)

Lemma mul_finite sx mx ex sy my ey :
  mul (S754_finite sx mx ex) (S754_finite sy my ey)
  = binary_round_aux prec emax (xorb sx sy) (Zpos (mx * my)) (ex + ey)
      loc_Exact.
Proof. reflexivity. Qed.

Lemma add_finite_pos mx ex my ey :
  add (S754_finite false mx ex) (S754_finite false my ey)
  = binary_round prec emax false
      (fst (shl_align mx ex (Z.min ex ey)) + fst (shl_align my ey (Z.min ex ey)))
      (Z.min ex ey).
Proof. reflexivity. Qed.

Lemma quot_finite sx mx ex sy my ey :
  quot (S754_finite sx mx ex) (S754_finite sy my ey)
  = let '(mz, ez, lz) := SFdiv_core_binary prec emax (Zpos mx) ex (Zpos my) ey in
    binary_round_aux prec emax (xorb sx sy) mz ez lz.
Proof. reflexivity. Qed.

Lemma P0_bra mx ex lx :
  0 <= mx -> P0 (binary_round_aux prec emax false mx ex lx).
Proof.
  intros H. pose proof (bra_sign false mx ex lx H) as Hs.
  destruct (binary_round_aux prec emax false mx ex lx); try subst; simpl; auto.
Qed.

Lemma P0_binary_round m e : P0 (binary_round prec emax false m e).
Proof.
  pose proof (binary_round_mag false m e) as H.
  destruct (binary_round prec emax false m e); simpl; try tauto;
    destruct H as [-> _]; exact I.
Qed.

Lemma mul_P0_PF x y : P0 x -> PF y -> P0 (mul x y).
Proof.
  destruct x as [sx|[]| |[] mx ex]; destruct y as [sy|[]| |[] my ey];
    try (simpl; tauto).
  intros _ _. rewrite mul_finite. apply P0_bra. lia.
Qed.

Lemma mul_PF_P0 x y : PF x -> P0 y -> P0 (mul x y).
Proof.
  destruct x as [sx|[]| |[] mx ex]; destruct y as [sy|[]| |[] my ey];
    try (simpl; tauto).
  intros _ _. rewrite mul_finite. apply P0_bra. lia.
Qed.

Lemma add_P0_P0 x y : P0 x -> P0 y -> P0 (add x y).
Proof.
  destruct x as [[]|[]| |[] mx ex]; destruct y as [[]|[]| |[] my ey];
    try (simpl; tauto).
  intros _ _. rewrite add_finite_pos. apply P0_binary_round.
Qed.

Lemma div_core_spec mx ex my ey :
  let e' := Z.min (fx (Zdigits2 (Zpos mx) + ex - (Zdigits2 (Zpos my) + ey)))
                  (ex - ey) in
  let s := ex - ey - e' in
  exists l,
    SFdiv_core_binary prec emax (Zpos mx) ex (Zpos my) ey
    = (Zpos mx * 2 ^ s / Zpos my, e', l).
Proof.
  intros e' s. unfold SFdiv_core_binary.
  rewrite fexp_eq. fold (fx (Zdigits2 (Zpos mx) + ex - (Zdigits2 (Zpos my) + ey))).
  fold e'. fold s.
  assert (Hs : 0 <= s) by (subst s e'; lia).
  set (m' := match s with
             | 0 => Z.pos mx
             | Z.pos _ => Z.shiftl (Z.pos mx) s
             | Z.neg _ => 0
             end).
  assert (Hm' : m' = Z.pos mx * 2 ^ s).
  { subst m'. destruct s as [|p|p]; try lia.
    apply Z.shiftl_mul_pow2. lia. }
  unfold Z.div. rewrite <- Hm'.
  destruct (Z.div_eucl m' (Z.pos my)) as [q r]. eexists. reflexivity.
Qed.

Lemma quot_P0_PF x y : P0 x -> PF y -> P0 (quot x y).
Proof.
  destruct x as [sx|[]| |[] mx ex]; destruct y as [sy|[]| |[] my ey];
    try (simpl; tauto).
  intros _ _. rewrite quot_finite.
  destruct (div_core_spec mx ex my ey) as [l ->].
  apply P0_bra. apply Z.div_pos; [|lia].
  apply Z.mul_nonneg_nonneg; [lia|]. apply Z.pow_nonneg. lia.
Qed.

(** ** Magnitude of products, sums and quotients *)

Lemma mag_pos m e : e < mag m e.
Proof.
  unfold mag. pose proof (Zdigits2_pos (Zpos m) ltac:(lia)) as H.
  simpl in H. lia.
Qed.

Lemma mul_FP a b c d x y :
  FP a b x -> FP c d y -> emin < a + c - 1 -> b + d <= 972 ->
  FP (a + c - 1) (b + d + 1) (mul x y).
Proof.
  destruct x as [sx|sx| |[] mx ex]; destruct y as [sy|sy| |[] my ey];
    try (simpl; tauto).
  unfold FP at 1 2. intros Hx Hy Hlo Hhi. rewrite mul_finite. cbn [xorb].
  pose proof (bra_mag false (Zpos (mx * my)) (ex + ey) loc_Exact ltac:(lia))
    as H.
  pose proof (Zdigits2_mul (Zpos mx) (Zpos my) ltac:(lia) ltac:(lia)) as Hd.
  rewrite <- Pos2Z.inj_mul in Hd.
  pose proof (mag_pos mx ex). pose proof (mag_pos my ey).
  unfold mag in *. unfold emin in *.
  change (Zdigits2 (Z.pos mx)) with (Z.pos (digits2_pos mx)) in Hd.
  change (Zdigits2 (Z.pos my)) with (Z.pos (digits2_pos my)) in Hd.
  destruct (binary_round_aux prec emax false (Z.pos (mx * my)) (ex + ey)
              loc_Exact) as [s|s| |s m e]; try contradiction.
  - lia.
  - lia.
  - destruct H as (-> & Hr1 & Hr2 & _). unfold FP, mag. lia.
Qed.

Lemma mul_NN_FP h c d x y :
  NN h x -> FP c d y -> emin <= h + d -> h + d <= 972 ->
  NN (h + d + 1) (mul x y).
Proof.
  destruct x as [sx|sx| |[] mx ex]; destruct y as [sy|sy| |[] my ey];
    try (simpl; tauto).
  unfold NN at 1, FP at 1. intros Hx Hy Hlo Hhi. rewrite mul_finite. cbn [xorb].
  pose proof (bra_mag false (Zpos (mx * my)) (ex + ey) loc_Exact ltac:(lia))
    as H.
  pose proof (Zdigits2_mul (Zpos mx) (Zpos my) ltac:(lia) ltac:(lia)) as Hd.
  rewrite <- Pos2Z.inj_mul in Hd.
  pose proof (mag_pos mx ex). pose proof (mag_pos my ey).
  unfold mag in *. unfold emin in *.
  change (Zdigits2 (Z.pos mx)) with (Z.pos (digits2_pos mx)) in Hd.
  change (Zdigits2 (Z.pos my)) with (Z.pos (digits2_pos my)) in Hd.
  destruct (binary_round_aux prec emax false (Z.pos (mx * my)) (ex + ey)
              loc_Exact) as [s|s| |s m e]; try contradiction.
  - exact I.
  - lia.
  - destruct H as (-> & Hr1 & Hr2 & _). unfold NN, mag. lia.
Qed.

Lemma shl_align_le mx ex ez :
  ez <= ex ->
  Zpos (fst (shl_align mx ex ez)) = Zpos mx * 2 ^ (ex - ez).
Proof.
  intros H. pose proof (shl_align_spec mx ex ez) as [E _].
  rewrite E. replace (Z.min ex ez) with ez by lia. reflexivity.
Qed.


Lemma quot_FP a b c d x y :
  FP a b x -> FP c d y -> emin < a - d -> b - c <= 970 ->
  FP (a - d) (b - c + 2) (quot x y).
Proof.
  destruct x as [sx|sx| |[] mx ex]; destruct y as [sy|sy| |[] my ey];
    try (simpl; tauto).
  unfold FP at 1 2. intros Hx Hy Hlo Hhi. rewrite quot_finite.
  destruct (div_core_spec mx ex my ey) as [l ->]. cbn [xorb].
  set (dx := Zdigits2 (Zpos mx)). set (dy := Zdigits2 (Zpos my)).
  set (e' := Z.min (fx (dx + ex - (dy + ey))) (ex - ey)).
  set (s := ex - ey - e').
  assert (Hs : 0 <= s) by (subst s e'; lia).
  pose proof (Zdigits2_pos (Zpos mx) ltac:(lia)) as Hdx. fold dx in Hdx.
  pose proof (Zdigits2_pos (Zpos my) ltac:(lia)) as Hdy. fold dy in Hdy.
  unfold mag in Hx, Hy. fold (Zdigits2 (Zpos mx)) in Hx.
  fold (Zdigits2 (Zpos my)) in Hy. fold dx in Hx. fold dy in Hy.
  assert (Hm' : 0 < Zpos mx * 2 ^ s)
    by (apply Z.mul_pos_pos; [lia|apply Z.pow_pos_nonneg; lia]).
  assert (Hdm : Zdigits2 (Zpos mx * 2 ^ s) = dx + s)
    by (apply Zdigits2_shiftl; lia).
  assert (Hlt : dy < dx + s)
    by (subst s e'; unfold fx, emin in *; lia).
  destruct (Zdigits2_quot (Zpos mx * 2 ^ s) (Zpos my) Hm' ltac:(lia)
              ltac:(fold dy; lia)) as [Hq Hdq].
  rewrite Hdm in Hdq. fold dy in Hdq.
  pose proof (bra_mag false (Zpos mx * 2 ^ s / Zpos my) e' l Hq) as H.
  unfold emin in *.
  assert (He' : e' <= 971) by (subst e'; unfold fx, emin; lia).
  assert (Hse : s + e' = ex - ey) by (subst s; lia).
  destruct (binary_round_aux prec emax false (Z.pos mx * 2 ^ s / Z.pos my)
              e' l) as [s0|s0| |s0 m0 e0]; try contradiction.
  - lia.
  - lia.
  - destruct H as (-> & Hr1 & Hr2 & _). unfold FP. lia.
Qed.

Lemma add_NN_FP a b c x y :
  NN c x -> FP a b y -> emin < a -> Z.max b c <= 1021 ->
  FP a (Z.max b c + 2) (add x y).
Proof.
  destruct x as [sx|sx| |[] mx ex]; destruct y as [sy|sy| |[] my ey];
    try (simpl; tauto).
  - simpl. lia.
  - unfold FP at 1, NN at 1. intros Hx Hy Hlo Hhi. rewrite add_finite_pos.
    set (ez := Z.min ex ey).
    pose proof (shl_align_le mx ex ez ltac:(lia)) as Ex.
    pose proof (shl_align_le my ey ez ltac:(lia)) as Ey.
    set (px := fst (shl_align mx ex ez)) in *.
    set (py := fst (shl_align my ey ez)) in *.
    pose proof (binary_round_mag false (px + py) ez) as H.
    pose proof (Zdigits2_add (Zpos py) (Zpos px) ltac:(lia) ltac:(lia)) as Hd.
    rewrite Z.add_comm, <- Pos2Z.inj_add in Hd.
    rewrite Ex, Ey in Hd.
    rewrite !Zdigits2_shiftl in Hd by lia.
    unfold mag in *. unfold emin in *.
    change (Zdigits2 (Z.pos mx)) with (Z.pos (digits2_pos mx)) in Hd.
    change (Zdigits2 (Z.pos my)) with (Z.pos (digits2_pos my)) in Hd.
    change (Zdigits2 (Z.pos (px + py)))
      with (Z.pos (digits2_pos (px + py))) in Hd.
    destruct (binary_round prec emax false (px + py) ez) as [s|s| |s m e];
      try contradiction.
    + lia.
    + lia.
    + destruct H as (-> & Hr1 & Hr2 & _). unfold FP, mag. lia.
Qed.

(** ** Comparisons of positive finite values *)

Lemma leb_finite m1 e1 m2 e2 :
  leb (S754_finite false m1 e1) (S754_finite false m2 e2) = true ->
  e1 < e2 \/ (e1 = e2 /\ Zpos m1 <= Zpos m2).
Proof.
  unfold leb, SFleb, SFcompare.
  destruct (Z.compare_spec e1 e2) as [E|E|E]; try (intros; lia).
  - change (PosDef.Pos.compare_cont Eq m1 m2) with (Pos.compare m1 m2).
    destruct (Pos.compare_spec m1 m2); try discriminate; intros _; lia.
Qed.

Lemma ltb_finite m1 e1 m2 e2 :
  ltb (S754_finite false m1 e1) (S754_finite false m2 e2) = true ->
  e1 < e2 \/ (e1 = e2 /\ Zpos m1 < Zpos m2).
Proof.
  unfold ltb, SFltb, SFcompare.
  destruct (Z.compare_spec e1 e2) as [E|E|E]; try (intros; lia).
  - change (PosDef.Pos.compare_cont Eq m1 m2) with (Pos.compare m1 m2).
    destruct (Pos.compare_spec m1 m2); try discriminate; intros _; lia.
Qed.

Lemma bounded_inv m e :
  bounded prec emax m e = true -> fx (mag m e) = e /\ e <= 971.
Proof.
  unfold bounded, canonical_mantissa. rewrite fexp_eq.
  fold (mag m e). fold (fx (mag m e)).
  intros H. apply andb_true_iff in H as [H1 H2].
  apply Z.eqb_eq in H1. apply Z.leb_le in H2.
  change (emax - prec) with 971 in H2. auto.
Qed.

Lemma bounded_digits m e :
  bounded prec emax m e = true -> Zpos m < 2 ^ 53 /\ mag m e <= e + 53.
Proof.
  intros H. apply bounded_inv in H as [H _]. unfold fx, emin in H.
  assert (Hm : mag m e <= e + 53) by lia. split; [|assumption].
  unfold mag in Hm.
  pose proof (Zdigits2_bounds (Zpos m) ltac:(lia)) as [_ Hhi].
  change (Zdigits2 (Z.pos m)) with (Z.pos (digits2_pos m)) in Hhi.
  assert (2 ^ Z.pos (digits2_pos m) <= 2 ^ 53)
    by (apply Z.pow_le_mono_r; lia).
  lia.
Qed.

(** ** One minus a window ratio *)

Lemma sub_finite_pos mx ex my ey :
  sub (S754_finite false mx ex) (S754_finite false my ey)
  = binary_normalize prec emax
      (Zpos (fst (shl_align mx ex (Z.min ex ey)))
       - Zpos (fst (shl_align my ey (Z.min ex ey))))
      (Z.min ex ey) false.
Proof. reflexivity. Qed.

Lemma sub_one_FP m e :
  bounded prec emax m e = true ->
  (e < -53 \/ (e = -53 /\ Zpos m <= 8106479329266893)) ->
  FP (-3) 1 (sub (S754_finite false 4503599627370496 (-52))
                 (S754_finite false m e)).
Proof.
  intros Hb Hle. rewrite sub_finite_pos.
  replace (Z.min (-52) e) with e by lia.
  rewrite !shl_align_le by lia.
  rewrite Z.sub_diag, Z.pow_0_r, Z.mul_1_r.
  destruct (bounded_digits m e Hb) as [Hm _].
  assert (Hpx : 4503599627370496 * 2 ^ (-52 - e) = 2 ^ (- e)).
  { change 4503599627370496 with (2 ^ 52).
    rewrite <- Z.pow_add_r by lia. f_equal. lia. }
  rewrite Hpx.
  assert (HN : 2 ^ (- e - 4) <= 2 ^ (- e) - Zpos m < 2 ^ (- e)).
  { split; [|lia].
    destruct Hle as [Hlt | [-> Hle]].
    - assert (2 ^ 54 <= 2 ^ (- e)) by (apply Z.pow_le_mono_r; lia).
      replace (- e) with ((- e - 4) + 4) at 2 by lia.
      rewrite Z.pow_add_r by lia. change (2 ^ 4) with 16.
      replace (- e) with ((- e - 4) + 4) in H by lia.
      rewrite Z.pow_add_r in H by lia. change (2 ^ 4) with 16 in H.
      change (2 ^ 53) with 9007199254740992 in Hm.
      change (2 ^ 54) with 18014398509481984 in H. lia.
    - change (- -53 - 4) with 49. change (- -53) with 53.
      change (2 ^ 49) with 562949953421312.
      change (2 ^ 53) with 9007199254740992. lia. }
  destruct (2 ^ (- e) - Zpos m) as [|p|p] eqn:EN.
  - pose proof (Z.pow_pos_nonneg 2 (- e - 4)). lia.
  - unfold binary_normalize.
    pose proof (binary_round_mag false p e) as H.
    assert (Hd : - e - 3 <= Zdigits2 (Zpos p) <= - e).
    { split.
      - replace (- e - 3) with ((- e - 4) + 1) by lia.
        apply Zdigits2_ge_pow; lia.
      - apply Zdigits2_lt_pow; lia. }
    unfold mag in *. unfold emin in *.
    change (Zdigits2 (Z.pos p)) with (Z.pos (digits2_pos p)) in Hd.
    destruct (binary_round prec emax false p e) as [s|s| |s m' e'];
      try contradiction.
    + lia.
    + lia.
    + destruct H as (-> & Hr1 & Hr2 & _). unfold FP, mag. lia.
  - pose proof (Z.pow_pos_nonneg 2 (- e - 4)). lia.
Qed.

(** ** Exponent and digits of any rounded result *)

Lemma bra_exp_digits s mx ex lx s' m e :
  0 <= mx ->
  binary_round_aux prec emax s mx ex lx = S754_finite s' m e ->
  emin <= e /\ Zpos (digits2_pos m) <= 53.
Proof.
  intros Hmx E.
  destruct (bra_spec s mx ex lx Hmx) as [mr [Hb E']]. rewrite E' in E.
  clear E'. cbv zeta in Hb.
  remember (Z.max (fx (Zdigits2 mx + ex) - ex) 0) as k1 eqn:Ek1.
  remember (Z.max (fx (Zdigits2 mr + (ex + k1)) - (ex + k1)) 0) as k2 eqn:Ek2.
  assert (Hm1 : 0 <= mx / 2 ^ k1) by (apply div_pow_nonneg; assumption).
  assert (Hmr : 0 <= mr) by lia.
  unfold bra_result in E.
  destruct (mr / 2 ^ k2) as [|p|p] eqn:Eq; try discriminate.
  destruct (ex + k1 + k2 <=? 971); try discriminate.
  injection E as _ <- <-.
  unfold fx, emin in *. split; [lia|].
  assert (Hk2 : 0 <= k2) by lia.
  destruct (Z_lt_le_dec k2 (Zdigits2 mr)) as [Hlt|Hge].
  - assert (Hmr' : 0 < mr).
    { destruct (Z.eq_dec mr 0) as [->|]; [|lia].
      rewrite Zdigits2_0 in Hlt. lia. }
    destruct (Zdigits2_div_pow mr k2 Hmr' Hk2 Hlt) as [_ Hd].
    rewrite Eq in Hd. simpl in Hd. lia.
  - rewrite (div_pow_small mr k2 Hmr Hk2 Hge) in Eq. discriminate.
Qed.

Lemma mul_exp_digits x y s m e :
  mul x y = S754_finite s m e -> emin <= e /\ Zpos (digits2_pos m) <= 53.
Proof.
  destruct x as [sx|sx| |sx mx ex]; destruct y as [sy|sy| |sy my ey];
    try discriminate.
  rewrite mul_finite. apply bra_exp_digits. lia.
Qed.

Lemma quot_exp_digits x y s m e :
  quot x y = S754_finite s m e -> emin <= e /\ Zpos (digits2_pos m) <= 53.
Proof.
  destruct x as [sx|sx| |sx mx ex]; destruct y as [sy|sy| |sy my ey];
    try discriminate.
  rewrite quot_finite. destruct (div_core_spec mx ex my ey) as [l ->].
  apply bra_exp_digits. apply Z.div_pos; [|lia].
  apply Z.mul_nonneg_nonneg; [lia|]. apply Z.pow_nonneg. lia.
Qed.

End F64Facts.

(** * Facts on the primitives *)

(** The arithmetic is kept folded while the pipeline is unfolded. *)
Arguments F64.add : simpl never.
Arguments F64.sub : simpl never.
Arguments F64.mul : simpl never.
Arguments F64.quot : simpl never.
Arguments F64.of_Z : simpl never.
Arguments F64.dec : simpl never.
Arguments F64.ltb : simpl never.
Arguments F64.leb : simpl never.
Arguments F64.gtb : simpl never.
Arguments F64.geb : simpl never.
Arguments Z.pow : simpl never.

Lemma bind_ok {A B : Type} (r : result A) (k : A -> result B) (b : B) :
  bind r k = Ok b -> exists a, r = Ok a /\ k a = Ok b.
Proof. destruct r as [a|e]; simpl; [eauto|discriminate]. Qed.

Ltac inv_bind H :=
  repeat (apply bind_ok in H;
          let a := fresh "a" in
          let E := fresh "E" in
          destruct H as (a & E & H)).

Lemma fdiv_ok a b : F64.is_zero b = false -> fdiv a b = Ok (F64.quot a b).
Proof. unfold fdiv. intros ->. reflexivity. Qed.

Lemma fdiv_inv a b q :
  fdiv a b = Ok q -> F64.is_zero b = false /\ q = F64.quot a b.
Proof.
  unfold fdiv. destruct (F64.is_zero b); [discriminate|].
  intros [= <-]. auto.
Qed.

Lemma gtb_f0_not_zero x : F64.gtb x f0 = true -> F64.is_zero x = false.
Proof. destruct x as [[]|[]| |[] m e]; simpl; try reflexivity; discriminate. Qed.

(** A positive int converts to a positive finite float or overflows. *)
Lemma float_of_int_pos_inv z f :
  0 < z -> float_of_int z = Ok f -> exists m e, f = S754_finite false m e.
Proof.
  intros Hz. unfold float_of_int.
  destruct (F64Facts.of_Z_pos z Hz) as [(s & -> & _) | (m & e & -> & _)].
  - discriminate.
  - intros [= <-]. eauto.
Qed.

Lemma float_of_int_pos z :
  0 < z < 2 ^ 1023 ->
  exists m e, float_of_int z = Ok (S754_finite false m e).
Proof.
  intros [Hz Hlt]. unfold float_of_int.
  pose proof (F64Facts.Zdigits2_le_1023 z Hz Hlt) as Hd.
  destruct (F64Facts.of_Z_pos z Hz) as [(s & _ & H) | (m & e & -> & _)].
  - lia.
  - eauto.
Qed.

(** [max(0.0, x)] is never negative and never a NaN. *)
Lemma pymax_f0_nonneg x : nonneg (pymax f0 x) = true.
Proof.
  unfold pymax, nonneg, F64.geb, F64.gtb.
  destruct (SFltb f0 x) eqn:E; [|reflexivity].
  destruct x as [[]|[]| |[] m e]; simpl in *; try reflexivity; discriminate.
Qed.

(** ** Dict lookups after updates *)

Lemma dict_get_set_same k v d : dict_get k (dict_set k v d) = Some v.
Proof.
  induction d as [|[k' v'] d IH]; simpl.
  - rewrite String.eqb_refl. reflexivity.
  - destruct (String.eqb k k') eqn:E; simpl; rewrite E; auto.
Qed.

Lemma dict_get_set_other k k' v d :
  k <> k' -> dict_get k' (dict_set k v d) = dict_get k' d.
Proof.
  intros Hne. induction d as [|[k0 v0] d IH]; simpl.
  - destruct (String.eqb k' k) eqn:E; [|reflexivity].
    apply String.eqb_eq in E. congruence.
  - destruct (String.eqb k k0) eqn:E; simpl.
    + apply String.eqb_eq in E. subst k0.
      destruct (String.eqb k' k) eqn:E'; [|reflexivity].
      apply String.eqb_eq in E'. congruence.
    + rewrite IH. reflexivity.
Qed.

Lemma dict_keys_set_mem k v d :
  dict_mem k d = true -> dict_keys (dict_set k v d) = dict_keys d.
Proof.
  unfold dict_mem, dict_keys.
  induction d as [|[k' v'] d IH]; simpl; [discriminate|].
  destruct (String.eqb k k') eqn:E; simpl; intros H.
  - reflexivity.
  - rewrite IH by assumption. reflexivity.
Qed.

Lemma dict_mem_keys k d : dict_mem k d = true <-> In k (dict_keys d).
Proof.
  unfold dict_mem, dict_keys. induction d as [|[k' v'] d IH]; simpl.
  - split; [discriminate|tauto].
  - destruct (String.eqb k k') eqn:E.
    + apply String.eqb_eq in E. subst. split; auto.
    + apply String.eqb_neq in E. rewrite IH. split; [auto|].
      intros [H|H]; [congruence|assumption].
Qed.

Lemma dict_mem_set k k' v d :
  dict_mem k' (dict_set k v d) = (String.eqb k' k || dict_mem k' d)%bool.
Proof.
  unfold dict_mem. destruct (String.eqb k' k) eqn:E.
  - apply String.eqb_eq in E. subst. rewrite dict_get_set_same. reflexivity.
  - apply String.eqb_neq in E. rewrite dict_get_set_other by congruence.
    reflexivity.
Qed.

Lemma dict_keys_map (f : string * float -> float) d :
  dict_keys (map (fun kv => (fst kv, f kv)) d) = dict_keys d.
Proof. unfold dict_keys. rewrite map_map. reflexivity. Qed.

(** ** The steps never fail on their own *)

Lemma dict_imul_if_mem_ok k x d :
  exists d', dict_imul_if_mem k x d = Ok d' /\ dict_keys d' = dict_keys d.
Proof.
  unfold dict_imul_if_mem, dict_imul.
  destruct (dict_mem k d) eqn:E; [|eauto].
  pose proof E as E'. unfold dict_mem in E'.
  destruct (dict_get k d); [|discriminate].
  eexists. split; [reflexivity|]. apply dict_keys_set_mem. assumption.
Qed.

Lemma step4_ok cfg inp b :
  exists b', step4_structure cfg inp b = Ok b' /\ dict_keys b' = dict_keys b.
Proof.
  unfold step4_structure. cbv zeta.
  set (x := struct_mult cfg inp).
  destruct (dict_imul_if_mem_ok Stomme x b) as (b1 & -> & K1).
  destruct (dict_imul_if_mem_ok Grund x b1) as (b2 & E2 & K2).
  destruct (dict_imul_if_mem_ok Innervaggar x b2) as (b3 & E3 & K3).
  exists b3. cbn [bind]. rewrite E2. cbn [bind]. rewrite E3. split; congruence.
Qed.

Lemma step3_ok inp b :
  - 2 ^ 1023 + 4 < floors inp ->
  exists b', step3_lowrise inp b = Ok b' /\ dict_keys b' = dict_keys b.
Proof.
  intros Hf. unfold step3_lowrise.
  destruct (floors inp <? 4) eqn:E; [|eauto].
  apply Z.ltb_lt in E.
  destruct (float_of_int_pos (4 - floors inp) ltac:(lia)) as (m & e & ->).
  cbn [bind].
  set (x := lowrise_factor _).
  destruct (dict_imul_if_mem_ok Grund x b) as (b1 & -> & K1).
  destruct (dict_imul_if_mem_ok Klimatskarm x b1) as (b2 & E2 & K2).
  exists b2. cbn [bind]. rewrite E2. split; congruence.
Qed.

Lemma height_factor_ok inp :
  floors inp < 2 ^ 1023 -> exists hf, height_factor inp = Ok hf.
Proof.
  intros Hf. unfold height_factor.
  destruct (building_height_m inp) as [h|]; [|eauto].
  destruct (F64.truthy h && (floors inp >? 0))%bool eqn:E; [|eauto].
  apply andb_true_iff in E. destruct E as [_ E]. apply Z.gtb_lt in E.
  destruct (float_of_int_pos (floors inp) ltac:(lia)) as (m & e & ->).
  cbn [bind fdiv F64.is_zero].
  rewrite (fdiv_ok _ ref_floor_height) by reflexivity.
  cbn [bind]. eauto.
Qed.

Lemma step2_ok cfg inp b :
  F64.is_zero (ref_form_factor cfg) = false ->
  F64.is_zero (window_mix (ref_window_ratio cfg)
                 (window_to_wall_intensity_ratio cfg)) = false ->
  floors inp < 2 ^ 1023 ->
  exists b', step2_envelope cfg inp b = Ok b' /\ dict_keys b' = dict_keys b.
Proof.
  intros Hr Hw Hf. unfold step2_envelope.
  destruct (dict_mem Klimatskarm b) eqn:E; [|eauto].
  rewrite fdiv_ok by assumption. cbn [bind].
  destruct (height_factor_ok inp Hf) as [hf ->]. cbn [bind].
  rewrite fdiv_ok by assumption. cbn [bind].
  unfold dict_imul. pose proof E as E'. unfold dict_mem in E'.
  destruct (dict_get Klimatskarm b); [|discriminate].
  eexists. split; [reflexivity|]. apply dict_keys_set_mem. assumption.
Qed.

Lemma garage_add_ok cfg inp : exists a, garage_add cfg inp = Ok a.
Proof.
  unfold garage_add. rewrite fdiv_ok by reflexivity. cbn [bind]. eauto.
Qed.

Lemma step5_ok cfg inp b :
  dict_mem Grund b = true ->
  exists b', step5_below_grade cfg inp b = Ok b' /\ dict_keys b' = dict_keys b.
Proof.
  intros Hg. unfold step5_below_grade.
  set (b1 := if basement inp then _ else b).
  assert (K1 : dict_keys b1 = dict_keys b).
  { subst b1. destruct (basement inp); [|reflexivity].
    apply dict_keys_set_mem. assumption. }
  assert (G1 : dict_mem Grund b1 = true).
  { apply dict_mem_keys. rewrite K1. apply dict_mem_keys. assumption. }
  destruct (underground_garage inp); [|eauto].
  destruct (garage_add_ok cfg inp) as [a ->]. cbn [bind].
  eexists. split; [reflexivity|].
  rewrite dict_keys_set_mem by assumption. assumption.
Qed.

Lemma reduce_key_ok tr asum k b :
  F64.is_zero asum = false ->
  exists b', reduce_key tr asum k b = Ok b' /\ dict_keys b' = dict_keys b.
Proof.
  intros Hz. unfold reduce_key.
  destruct (dict_get k b) as [v|] eqn:E; [|eauto].
  rewrite fdiv_ok by assumption. cbn [bind].
  eexists. split; [reflexivity|].
  apply dict_keys_set_mem. unfold dict_mem. rewrite E. reflexivity.
Qed.

Lemma reduce_keys_ok tr asum ks : forall b,
  F64.is_zero asum = false ->
  exists b', reduce_keys tr asum ks b = Ok b' /\ dict_keys b' = dict_keys b.
Proof.
  induction ks as [|k ks IH]; intros b Hz; simpl; [eauto|].
  destruct (reduce_key_ok tr asum k b Hz) as (b1 & -> & K1). cbn [bind].
  destruct (IH b1 Hz) as (b2 & -> & K2). exists b2. split; congruence.
Qed.

Lemma step6_ok cfg inp b ns gi gg :
  dict_get (boundary_key (system_boundary inp))
           (median_kg_per_m2_climate_improved cfg) = Some gi ->
  dict_get (boundary_key (system_boundary inp)) (median_kg_per_m2 cfg)
    = Some gg ->
  F64.is_zero gg = false ->
  exists b' ns',
    step6_improved cfg inp (b, ns) = Ok (b', ns')
    /\ dict_keys b' = dict_keys b
    /\ (ns' = ns \/ ns' = (ns ++ [note_not_applied])%list).
Proof.
  intros Hi Hg Hz. unfold step6_improved.
  destruct (climate_improved_materials inp); [|eauto 6].
  unfold dict_index. rewrite Hi, Hg. cbn [bind].
  set (asum := fsum (map _ affected_keys)).
  set (tot := fsum (dict_values b)).
  destruct (F64.gtb tot f0 && F64.gtb asum f0)%bool eqn:E; [|eauto 6].
  apply andb_true_iff in E. destruct E as [_ Ea].
  rewrite fdiv_ok by assumption. cbn [bind].
  set (tr := F64.mul _ _).
  destruct (reduce_keys_ok tr asum affected_keys b (gtb_f0_not_zero _ Ea))
    as (b' & -> & K). cbn [bind]. eauto 6.
Qed.

(** ** Totality of [estimate] under the default configuration *)

Lemma default_baseline b :
  exists v, dict_get (boundary_key b) (median_kg_per_m2 default_config) = Some v
            /\ F64.is_zero v = false.
Proof. destruct b; eexists; split; reflexivity. Qed.

Lemma default_baseline_improved b :
  exists v, dict_get (boundary_key b)
              (median_kg_per_m2_climate_improved default_config) = Some v.
Proof. destruct b; eexists; reflexivity. Qed.

Lemma default_timber s :
  exists v, dict_get (system_key s)
              (timber_t_per_m2_default_by_system default_config) = Some v.
Proof. destruct s; eexists; reflexivity. Qed.

Lemma default_shares_mem b :
  dict_mem Klimatskarm (default_shares b) = true
  /\ dict_mem Grund (default_shares b) = true.
Proof. destruct b; split; reflexivity. Qed.

Lemma timber_mass_default_ok inp :
  exists t, timber_mass default_config inp = Ok t.
Proof.
  unfold timber_mass. destruct (timber_t_per_m2_override inp); [eauto|].
  destruct (default_timber (structural_system inp)) as [v E].
  unfold dict_index. rewrite E. eauto.
Qed.

Lemma breakdown_pre_default_ok inp :
  - 2 ^ 1023 + 4 < floors inp < 2 ^ 1023 ->
  exists b, breakdown_pre default_config inp = Ok b
    /\ dict_keys b = dict_keys (default_shares (system_boundary inp)).
Proof.
  intros [Hlo Hhi]. unfold breakdown_pre.
  destruct (default_baseline (system_boundary inp)) as (base & Eb & Hbz).
  unfold dict_index. rewrite Eb. cbn [bind]. cbv zeta.
  fold (default_shares (system_boundary inp)).
  match goal with |- context [step2_envelope _ _ ?b] => set (b0 := b) end.
  assert (K0 : dict_keys b0 = dict_keys (default_shares (system_boundary inp)))
    by (subst b0; apply (dict_keys_map (fun kv => F64.mul base (snd kv)))).
  destruct (step2_ok default_config inp b0) as (b2 & -> & K2);
    try reflexivity; try assumption. cbn [bind].
  destruct (step3_ok inp b2 Hlo) as (b3 & -> & K3). cbn [bind].
  destruct (step4_ok default_config inp b3) as (b4 & -> & K4). cbn [bind].
  assert (G4 : dict_mem Grund b4 = true).
  { apply dict_mem_keys. rewrite K4, K3, K2, K0. apply dict_mem_keys.
    apply default_shares_mem. }
  destruct (step5_ok default_config inp b4 G4) as (b5 & -> & K5).
  exists b5. split; [reflexivity|congruence].
Qed.

Lemma estimate_default_ok inp :
  - 2 ^ 1023 + 4 < floors inp < 2 ^ 1023 ->
  exists r, estimate inp None = Ok r
    /\ dict_keys (breakdown_kg_per_m2_bta r)
       = dict_keys (default_shares (system_boundary inp))
    /\ (notes r = validate_inputs inp
        \/ notes r = (validate_inputs inp ++ [note_not_applied])%list).
Proof.
  intros Hf. unfold estimate. cbn [config_or_default].
  destruct (breakdown_pre_default_ok inp Hf) as (b5 & -> & K5). cbn [bind].
  destruct (default_baseline (system_boundary inp)) as (base & Eb & Hbz).
  destruct (default_baseline_improved (system_boundary inp)) as (bi & Ei).
  destruct (step6_ok default_config inp b5 (validate_inputs inp) bi base
              Ei Eb Hbz) as (b6 & ns & -> & K6 & Hns). cbn [bind].
  destruct (timber_mass_default_ok inp) as [t ->]. cbn [bind].
  rewrite !fdiv_ok by reflexivity. cbn [bind].
  eexists. split; [reflexivity|]. cbn [breakdown_kg_per_m2_bta notes].
  split; [congruence|assumption].
Qed.

(** * The breakdown in closed form *)

Arguments window_mix : simpl never.
Arguments fdiv : simpl never.
Arguments float_of_int : simpl never.
Arguments struct_mult : simpl never.
Arguments envelope_factor : simpl never.
Arguments lowrise_factor : simpl never.
Arguments height_factor : simpl never.

(** Evaluation of the dict operations on literal keys, leaving the
    arithmetic untouched. *)
Ltac dict_eval :=
  cbv [dict_mem dict_get dict_set dict_imul dict_imul_if_mem dict_index
       dict_get_default dict_keys dict_values
       String.eqb Ascii.eqb Bool.eqb andb bind map fst snd app
       Stomme Grund Klimatskarm Innervaggar Ytskikt
       boundary_key boundary_eqb default_shares
       default_config median_kg_per_m2 median_kg_per_m2_climate_improved
       shares_2022 shares_2027 ref_form_factor ref_window_ratio
       window_to_wall_intensity_ratio garage_add_kg_per_m2_atemp_parking05
       basement_add_kg_per_m2_bta scale_opt].

Lemma breakdown_pre_closed inp hf lf :
  height_factor inp = Ok hf ->
  lowrise_opt inp = Ok lf ->
  breakdown_pre default_config inp = Ok (pre_closed inp hf lf).
Proof.
  intros Hh Hl.
  unfold breakdown_pre, pre_closed, stomme_pre, grund_pre, grund_base,
    klimat_pre,
    inner_pre, ytskikt_pre, envelope_of, garage_of, share_of, base_of,
    step2_envelope, step3_lowrise, step4_structure, step5_below_grade,
    garage_add.
  unfold lowrise_opt in Hl.
  rewrite Hh.
  rewrite (fdiv_ok (form_factor inp) (ref_form_factor default_config))
    by (vm_compute; reflexivity).
  rewrite (fdiv_ok (window_mix (window_ratio inp)
                      (window_to_wall_intensity_ratio default_config))
                   (window_mix (ref_window_ratio default_config)
                      (window_to_wall_intensity_ratio default_config)))
    by (vm_compute; reflexivity).
  rewrite (fdiv_ok (parking_ratio inp) (F64.dec 5 10))
    by (vm_compute; reflexivity).
  destruct (system_boundary inp) eqn:Eb.
  - dict_eval.
    destruct (floors inp <? 4).
    + destruct (float_of_int (4 - floors inp)) as [n|]; [|discriminate].
      cbn [bind] in Hl. injection Hl as <-. dict_eval.
      destruct (basement inp), (underground_garage inp); reflexivity.
    + injection Hl as <-. dict_eval.
      destruct (basement inp), (underground_garage inp); reflexivity.
  - dict_eval.
    destruct (floors inp <? 4).
    + destruct (float_of_int (4 - floors inp)) as [n|]; [|discriminate].
      cbn [bind] in Hl. injection Hl as <-. dict_eval.
      destruct (basement inp), (underground_garage inp); reflexivity.
    + injection Hl as <-. dict_eval.
      destruct (basement inp), (underground_garage inp); reflexivity.
Qed.

Lemma step6_closed_correct inp s g k i tl ns :
  tl = [] \/ (exists y, tl = [(Ytskikt, y)]) ->
  step6_improved default_config inp
    ([(Stomme, s); (Grund, g); (Klimatskarm, k); (Innervaggar, i)] ++ tl, ns)
  = Ok (step6_closed inp s g k i tl ns).
Proof.
  intros Htl. unfold step6_improved, step6_closed.
  destruct (climate_improved_materials inp); [|reflexivity].
  assert (Ei : dict_index (boundary_key (system_boundary inp))
                 (median_kg_per_m2_climate_improved default_config)
               = Ok (improved_of (system_boundary inp)))
    by (destruct (system_boundary inp); reflexivity).
  assert (Eg : dict_index (boundary_key (system_boundary inp))
                 (median_kg_per_m2 default_config)
               = Ok (base_of (system_boundary inp)))
    by (destruct (system_boundary inp); reflexivity).
  rewrite Ei, Eg. cbn [bind]. cbv zeta.
  assert (Ea : fsum (map (fun k0 => dict_get_default k0 f0
                 ([(Stomme, s); (Grund, g); (Klimatskarm, k);
                   (Innervaggar, i)] ++ tl)) affected_keys)
               = fsum [s; g; k]) by reflexivity.
  rewrite Ea. unfold reduction_applies.
  set (tot := fsum (dict_values _)).
  set (asum := fsum [s; g; k]).
  destruct (F64.gtb tot f0) eqn:Et; [|reflexivity].
  destruct (F64.gtb asum f0) eqn:Es; [|reflexivity].
  cbn [andb].
  rewrite (fdiv_ok tot) by (destruct (system_boundary inp); vm_compute; reflexivity).
  cbn [bind]. fold (diff_of (system_boundary inp)).
  fold (target_reduction_of inp tot).
  unfold affected_keys, reduce_keys, reduce_key.
  pose proof (gtb_f0_not_zero _ Es) as Hz.
  destruct Htl as [-> | [y ->]]; dict_eval;
    rewrite !(fdiv_ok _ asum) by assumption; reflexivity.
Qed.

Lemma timber_mass_default inp :
  timber_mass default_config inp = Ok (timber_of inp).
Proof.
  unfold timber_mass, timber_of.
  destruct (timber_t_per_m2_override inp); [reflexivity|].
  destruct (structural_system inp); reflexivity.
Qed.

Lemma tail_of_cases inp :
  tail_of inp = [] \/ (exists y, tail_of inp = [(Ytskikt, y)]).
Proof. unfold tail_of. destruct (system_boundary inp); eauto. Qed.

(** The whole of [estimate] under the default configuration. *)
Lemma estimate_closed_correct inp hf lf :
  height_factor inp = Ok hf ->
  lowrise_opt inp = Ok lf ->
  estimate inp None = Ok (estimate_closed inp hf lf (timber_of inp)).
Proof.
  intros Hh Hl. unfold estimate. cbn [config_or_default].
  rewrite (breakdown_pre_closed inp hf lf Hh Hl). cbn [bind].
  unfold pre_closed. fold (tail_of inp).
  rewrite (step6_closed_correct inp _ _ _ _ (tail_of inp) _ (tail_of_cases inp)).
  cbn [bind]. unfold estimate_closed, result_of.
  destruct (step6_closed inp _ _ _ _ _ _) as [b6 ns6].
  rewrite timber_mass_default. cbn [bind].
  rewrite !fdiv_ok by (vm_compute; reflexivity). reflexivity.
Qed.

Lemma lowrise_opt_ok inp :
  - 2 ^ 1023 + 4 < floors inp -> exists lf, lowrise_opt inp = Ok lf.
Proof.
  intros Hf. unfold lowrise_opt.
  destruct (floors inp <? 4) eqn:E; [|eauto].
  apply Z.ltb_lt in E.
  destruct (float_of_int_pos (4 - floors inp) ltac:(lia)) as (m & e & ->).
  cbn [bind]. eauto.
Qed.

Lemma breakdown_pre_height_raise inp e :
  height_factor inp = Raise e -> breakdown_pre default_config inp = Raise e.
Proof.
  intros Hh. unfold breakdown_pre, step2_envelope.
  rewrite Hh.
  rewrite (fdiv_ok (form_factor inp) (ref_form_factor default_config))
    by (vm_compute; reflexivity).
  destruct (system_boundary inp); dict_eval; reflexivity.
Qed.

Lemma breakdown_pre_lowrise_raise inp hf e :
  height_factor inp = Ok hf -> lowrise_opt inp = Raise e ->
  breakdown_pre default_config inp = Raise e.
Proof.
  intros Hh Hl. unfold breakdown_pre, step2_envelope, step3_lowrise.
  unfold lowrise_opt in Hl.
  rewrite Hh.
  rewrite (fdiv_ok (form_factor inp) (ref_form_factor default_config))
    by (vm_compute; reflexivity).
  rewrite (fdiv_ok (window_mix (window_ratio inp)
                      (window_to_wall_intensity_ratio default_config))
                   (window_mix (ref_window_ratio default_config)
                      (window_to_wall_intensity_ratio default_config)))
    by (vm_compute; reflexivity).
  destruct (floors inp <? 4); [|discriminate].
  destruct (float_of_int (4 - floors inp)) as [n|e']; [discriminate|].
  cbn [bind] in Hl. injection Hl as <-.
  destruct (system_boundary inp); dict_eval; reflexivity.
Qed.

(** Under the default configuration [estimate] either raises or returns
    the closed form. *)
Lemma estimate_default_cases inp :
  (exists hf lf,
      height_factor inp = Ok hf /\ lowrise_opt inp = Ok lf
      /\ estimate inp None = Ok (estimate_closed inp hf lf (timber_of inp)))
  \/ (exists e, estimate inp None = Raise e).
Proof.
  destruct (height_factor inp) as [hf|e] eqn:Hh.
  - destruct (lowrise_opt inp) as [lf|e] eqn:Hl.
    + left. exists hf, lf. repeat split.
      apply estimate_closed_correct; assumption.
    + right. exists e. unfold estimate. cbn [config_or_default].
      rewrite (breakdown_pre_lowrise_raise inp hf e Hh Hl). reflexivity.
  - right. exists e. unfold estimate. cbn [config_or_default].
    rewrite (breakdown_pre_height_raise inp e Hh). reflexivity.
Qed.

Lemma estimate_default_inv inp r :
  estimate inp None = Ok r ->
  exists hf lf,
    height_factor inp = Ok hf /\ lowrise_opt inp = Ok lf
    /\ r = estimate_closed inp hf lf (timber_of inp).
Proof.
  intros H. destruct (estimate_default_cases inp)
    as [(hf & lf & Hh & Hl & E) | (e & E)]; rewrite E in H.
  - injection H as <-. eauto.
  - discriminate.
Qed.

(** * Facts on single steps *)

(** ** The method only enters through its multiplier *)

Lemma estimate_method_congr cfg inp m1 m2 :
  dict_get_default m1 f1 (method_multiplier (config_or_default cfg))
  = dict_get_default m2 f1 (method_multiplier (config_or_default cfg)) ->
  estimate (with_method m1 inp) cfg = estimate (with_method m2 inp) cfg.
Proof.
  intros H.
  unfold estimate, validate_inputs, breakdown_pre, step2_envelope,
    height_factor, step3_lowrise, step4_structure, struct_mult, method_mult,
    heavy_mult, system_struct_mult, step5_below_grade, garage_add,
    step6_improved, timber_mass.
  cbn [with_method system_boundary form_factor window_ratio floors
       building_height_m structural_system method heavy_concrete_design
       climate_improved_materials climate_improved_applicability basement
       underground_garage parking_ratio atemp_to_bta
       timber_t_per_m2_override].
  rewrite H. reflexivity.
Qed.

Lemma neutral_method_mult m :
  neutral_method m ->
  dict_get_default m f1 (method_multiplier default_config) = f1.
Proof.
  unfold neutral_method, dict_mem, dict_get_default.
  intros [-> | [-> | [-> | H]]]; try reflexivity.
  destruct (dict_get m (method_multiplier default_config));
    [discriminate|reflexivity].
Qed.

Lemma method_cases m : neutral_method m \/ cast_in_place m.
Proof.
  unfold neutral_method, cast_in_place, dict_mem.
  cbn [method_multiplier default_config dict_get].
  destruct (String.eqb m m_prefab) eqn:E1;
    [apply String.eqb_eq in E1; auto|].
  destruct (String.eqb m m_platsgjuten_latta) eqn:E2;
    [apply String.eqb_eq in E2; auto|].
  destruct (String.eqb m m_platsgjuten_form) eqn:E3;
    [apply String.eqb_eq in E3; auto|].
  destruct (String.eqb m m_volym_tra) eqn:E4;
    [apply String.eqb_eq in E4; auto|].
  destruct (String.eqb m m_kl_tra) eqn:E5;
    [apply String.eqb_eq in E5; auto 6|].
  auto 6.
Qed.

(** ** Entries of the closed form *)

Lemma step6_closed_inner inp s g k i tl ns :
  tl = [] \/ (exists y, tl = [(Ytskikt, y)]) ->
  dict_get Innervaggar (fst (step6_closed inp s g k i tl ns)) = Some i.
Proof.
  intros Htl. unfold step6_closed.
  destruct (climate_improved_materials inp);
    [destruct (reduction_applies _ _)|];
    destruct Htl as [-> | [y ->]]; reflexivity.
Qed.

Lemma step6_closed_grund_off inp s g k i tl ns :
  climate_improved_materials inp = false ->
  dict_get Grund (fst (step6_closed inp s g k i tl ns)) = Some g.
Proof. intros H. unfold step6_closed. rewrite H. reflexivity. Qed.

Lemma inner_pre_cast inp m :
  cast_in_place m ->
  inner_pre (with_method m_prefab inp) <> inner_pre (with_method m inp).
Proof.
  unfold inner_pre, struct_mult, method_mult, heavy_mult, system_struct_mult.
  cbn [with_method system_boundary structural_system method
       heavy_concrete_design].
  intros [-> | ->];
    destruct (system_boundary inp), (heavy_concrete_design inp),
      (structural_system inp); vm_compute; discriminate.
Qed.

Lemma grund_pre_garage inp lf :
  grund_pre (garage_on inp) lf
  = F64.add (grund_pre (garage_off inp) lf) (F64.dec 432 10).
Proof.
  unfold grund_pre, grund_base, garage_of, struct_mult, method_mult,
    heavy_mult,
    system_struct_mult.
  cbn [garage_on garage_off with_garage underground_garage basement
       system_boundary structural_system method heavy_concrete_design
       parking_ratio atemp_to_bta].
  replace (F64.mul (F64.mul (F64.of_Z 48) (F64.dec 90 100))
                   (F64.quot (F64.dec 5 10) (F64.dec 5 10)))
    with (F64.dec 432 10) by (vm_compute; reflexivity).
  reflexivity.
Qed.

(** ** One round of the reduction loop *)

Lemma reduce_key_spec tr asum k b b' :
  reduce_key tr asum k b = Ok b' ->
  forall k',
    dict_get k' b'
    = if String.eqb k' k
      then option_map (reduced tr asum) (dict_get k b)
      else dict_get k' b.
Proof.
  unfold reduce_key. intros H k'.
  destruct (dict_get k b) as [v|] eqn:Ev.
  - inv_bind H. injection H as <-. apply fdiv_inv in E as [_ ->].
    destruct (String.eqb k' k) eqn:Ek.
    + apply String.eqb_eq in Ek. subst k'. rewrite dict_get_set_same.
      reflexivity.
    + apply String.eqb_neq in Ek. apply dict_get_set_other. congruence.
  - injection H as <-.
    destruct (String.eqb k' k) eqn:Ek; [|reflexivity].
    apply String.eqb_eq in Ek. subst k'. rewrite Ev. reflexivity.
Qed.

Lemma reduce_affected_spec tr asum b b' :
  reduce_keys tr asum affected_keys b = Ok b' ->
  forall k,
    dict_get k b'
    = if is_affected k then option_map (reduced tr asum) (dict_get k b)
      else dict_get k b.
Proof.
  unfold is_affected, affected_keys. cbn [reduce_keys existsb].
  intros H k. inv_bind H. injection H as <-.
  rewrite (reduce_key_spec _ _ _ _ _ E1 k).
  rewrite (reduce_key_spec _ _ _ _ _ E0 k).
  rewrite (reduce_key_spec _ _ _ _ _ E k).
  rewrite (reduce_key_spec _ _ _ _ _ E0 Klimatskarm).
  rewrite (reduce_key_spec _ _ _ _ _ E Klimatskarm).
  rewrite (reduce_key_spec _ _ _ _ _ E Grund).
  change (String.eqb Klimatskarm Grund) with false.
  change (String.eqb Klimatskarm Stomme) with false.
  change (String.eqb Grund Stomme) with false.
  cbv iota.
  destruct (String.eqb k Stomme) eqn:E1'.
  - apply String.eqb_eq in E1'. subst k. reflexivity.
  - destruct (String.eqb k Grund) eqn:E2'.
    + apply String.eqb_eq in E2'. subst k. reflexivity.
    + destruct (String.eqb k Klimatskarm) eqn:E3'; [|reflexivity].
      apply String.eqb_eq in E3'. subst k. reflexivity.
Qed.

Lemma leb_f0_not_gtb x : F64.leb x f0 = true -> F64.gtb x f0 = false.
Proof. destruct x as [[]|[]| |[] m e]; simpl; try reflexivity; discriminate. Qed.

(** * Inputs within the validated ranges *)

Import F64Facts.

Lemma nonneg_P0 x : nonneg x = true <-> F64.P0 x.
Proof.
  destruct x as [[]|[]| |[] m e]; simpl; split; intros H;
    try exact I; try reflexivity; try discriminate; try contradiction.
Qed.

Lemma PF_P0 x : F64.PF x -> F64.P0 x.
Proof. destruct x as [[]|[]| |[] m e]; simpl; tauto. Qed.

Lemma FP_PF lo hi x : F64.FP lo hi x -> F64.PF x.
Proof. destruct x as [[]|[]| |[] m e]; simpl; tauto. Qed.

Lemma NN_P0 hi x : F64.NN hi x -> F64.P0 x.
Proof. destruct x as [[]|[]| |[] m e]; simpl; tauto. Qed.

Lemma FP_weaken lo hi lo' hi' x :
  F64.FP lo hi x -> lo' <= lo -> hi <= hi' -> F64.FP lo' hi' x.
Proof. destruct x as [[]|[]| |[] m e]; simpl; try tauto. lia. Qed.

(** Closed facts on literals. *)
Ltac fp_const := vm_compute; repeat split; intros; discriminate.

(** ** What the validator lets through *)

Lemma note_if_nil c s : note_if c s = [] -> c = false.
Proof. destruct c; [discriminate|reflexivity]. Qed.

Lemma validate_nil inp :
  validate_inputs inp = [] ->
  between (F64.dec 2 10) (form_factor inp) (F64.dec 15 10) = true
  /\ between f0 (window_ratio inp) (F64.dec 9 10) = true
  /\ 1 <= floors inp
  /\ between f0 (parking_ratio inp) (F64.of_Z 2) = true
  /\ between (F64.dec 7 10) (atemp_to_bta inp) f1 = true.
Proof.
  unfold validate_inputs. intros H.
  repeat (apply app_eq_nil in H; destruct H as [?H H]).
  repeat match goal with
         | H : note_if _ _ = [] |- _ => apply note_if_nil in H
         end.
  repeat match goal with
         | H : negb _ = false |- _ => apply negb_false_iff in H
         end.
  repeat split; try assumption.
  apply Z.ltb_ge. assumption.
Qed.

Lemma between_PF lo x hi :
  F64.PF lo -> F64.PF hi -> between lo x hi = true -> F64.PF x.
Proof.
  unfold between. intros Hlo Hhi H. apply andb_true_iff in H as [H1 H2].
  destruct lo as [|[]| |[] ml el]; try contradiction.
  destruct hi as [|[]| |[] mh eh]; try contradiction.
  cbv [F64.leb SFleb SFcompare] in H1, H2.
  destruct x as [[]|[]| |[] m e]; try discriminate; exact I.
Qed.

Lemma form_factor_PF x :
  between (F64.dec 2 10) x (F64.dec 15 10) = true -> F64.PF x.
Proof. apply between_PF; fp_const. Qed.

Lemma between_zero_P0 x hi : between f0 x hi = true -> F64.P0 x.
Proof.
  unfold between. intros H. apply andb_true_iff in H as [H1 _].
  cbv [F64.leb SFleb SFcompare f0] in H1.
  destruct x as [[]|[]| |[] m e]; try discriminate; exact I.
Qed.

(** A valid heated-area ratio between 0.7 and 1.0 has magnitude 0 or 1. *)
Lemma atemp_FP x :
  F64.valid x = true -> between (F64.dec 7 10) x f1 = true -> F64.FP 0 1 x.
Proof.
  intros Hv H.
  pose proof (between_PF (F64.dec 7 10) x f1 ltac:(fp_const) ltac:(fp_const) H)
    as Hpf.
  destruct x as [[]|[]| |[] m e]; try contradiction.
  unfold between in H. apply andb_true_iff in H as [H1 H2].
  change (F64.dec 7 10) with (S754_finite false 6305039478318694 (-53)) in H1.
  change f1 with (S754_finite false 4503599627370496 (-52)) in H2.
  apply leb_finite in H1. apply leb_finite in H2.
  apply bounded_inv in Hv as [Hc _]. unfold F64.fx, F64.emin in Hc.
  unfold F64.FP. lia.
Qed.

(** A valid window ratio between 0 and 0.9: zero, or below one. *)
Lemma window_ratio_cases x :
  F64.valid x = true -> between f0 x (F64.dec 9 10) = true ->
  (exists s, x = S754_zero s)
  \/ (exists m e, x = S754_finite false m e
        /\ bounded F64.prec F64.emax m e = true
        /\ (e < -53 \/ (e = -53 /\ Zpos m <= 8106479329266893))).
Proof.
  intros Hv H. pose proof (between_zero_P0 _ _ H) as Hp.
  unfold between in H. apply andb_true_iff in H as [_ H2].
  change (F64.dec 9 10) with (S754_finite false 8106479329266893 (-53)) in H2.
  destruct x as [s|[]| |[] m e]; try contradiction.
  - left. eauto.
  - cbv [F64.leb SFleb SFcompare] in H2. discriminate.
  - right. exists m, e. split; [reflexivity|]. split; [exact Hv|].
    apply leb_finite in H2. exact H2.
Qed.

Lemma window_mix_FP w :
  F64.valid w = true -> between f0 w (F64.dec 9 10) = true ->
  F64.FP (-3) 6 (window_mix w (F64.of_Z 4)).
Proof.
  intros Hv H.
  destruct (window_ratio_cases w Hv H) as [[s ->] | (m & e & -> & Hb & Hle)].
  - destruct s; fp_const.
  - unfold window_mix.
    assert (Hw : F64.NN 0 (S754_finite false m e)).
    { destruct (bounded_digits m e Hb) as [_ Hm]. unfold F64.NN. lia. }
    assert (H4 : F64.FP 3 3 (F64.of_Z 4)) by fp_const.
    assert (H1 : F64.FP 1 1 f1) by fp_const.
    pose proof (mul_NN_FP 0 3 3 _ _ Hw H4 ltac:(unfold F64.emin; lia)
                  ltac:(lia)) as Hm4.
    pose proof (sub_one_FP m e Hb Hle) as Hs.
    change (S754_finite false 4503599627370496 (-52)) with f1 in Hs.
    pose proof (mul_FP (-3) 1 1 1 _ _ Hs H1 ltac:(unfold F64.emin; lia)
                  ltac:(lia)) as Hm1.
    pose proof (add_NN_FP _ _ _ _ _ Hm4 Hm1 ltac:(unfold F64.emin; lia)
                  ltac:(lia)) as Ha.
    eapply FP_weaken; [exact Ha|lia|lia].
Qed.


(** ** The factors of steps 2 to 4 *)

Lemma clamp_height_PF x : F64.PF (clamp_height x).
Proof.
  unfold clamp_height, pymax, pymin, F64.gtb, F64.ltb.
  destruct (SFltb x f1_3) eqn:E1.
  - destruct (SFltb f0_8 x) eqn:E2; [|fp_const].
    change f1_3 with (S754_finite false 5854679515581645 (-52)) in E1.
    change f0_8 with (S754_finite false 7205759403792794 (-53)) in E2.
    cbv [SFltb SFcompare] in E1, E2.
    destruct x as [[]|[]| |[] m e]; try discriminate; exact I.
  - destruct (SFltb f0_8 f1_3); fp_const.
Qed.

Lemma height_factor_PF inp hf : height_factor inp = Ok hf -> F64.PF hf.
Proof.
  unfold height_factor. intros H.
  destruct (building_height_m inp) as [h|];
    [|injection H as <-; fp_const].
  destruct (F64.truthy h && (floors inp >? 0))%bool;
    [|injection H as <-; fp_const].
  inv_bind H. injection H as <-. apply clamp_height_PF.
Qed.

Lemma lowrise_opt_cases inp lf :
  1 <= floors inp -> lowrise_opt inp = Ok lf ->
  lf = None
  \/ lf = Some (lowrise_factor (F64.of_Z 3))
  \/ lf = Some (lowrise_factor (F64.of_Z 2))
  \/ lf = Some (lowrise_factor (F64.of_Z 1)).
Proof.
  intros Hf. unfold lowrise_opt.
  destruct (floors inp <? 4) eqn:E; [|intros [= <-]; auto].
  apply Z.ltb_lt in E.
  assert (Hc : floors inp = 1 \/ floors inp = 2 \/ floors inp = 3) by lia.
  destruct Hc as [-> | [-> | ->]]; intros [= <-]; auto.
Qed.

Lemma method_mult_cases inp :
  method_mult default_config inp = f1
  \/ method_mult default_config inp = F64.dec 290 272
  \/ method_mult default_config inp = F64.dec 331 272.
Proof.
  unfold method_mult, dict_get_default.
  cbn [method_multiplier default_config dict_get].
  destruct (String.eqb (method inp) m_prefab); [auto|].
  destruct (String.eqb (method inp) m_platsgjuten_latta); [auto|].
  destruct (String.eqb (method inp) m_platsgjuten_form); [auto|].
  destruct (String.eqb (method inp) m_volym_tra); [auto|].
  destruct (String.eqb (method inp) m_kl_tra); auto.
Qed.

(** ** The categories before step 6 *)



Lemma ytskikt_pre_P0 inp : F64.P0 (ytskikt_pre inp).
Proof. unfold ytskikt_pre. destruct (system_boundary inp); fp_const. Qed.

Lemma garage_of_P0 inp :
  F64.valid (atemp_to_bta inp) = true ->
  between f0 (parking_ratio inp) (F64.of_Z 2) = true ->
  between (F64.dec 7 10) (atemp_to_bta inp) f1 = true ->
  F64.P0 (garage_of inp).
Proof.
  intros Hv Hp Ha. unfold garage_of.
  apply mul_PF_P0.
  - assert (H48 : F64.FP 6 6 (F64.of_Z 48)) by fp_const.
    pose proof (mul_FP _ _ _ _ _ _ H48 (atemp_FP _ Hv Ha)
                  ltac:(unfold F64.emin; lia) ltac:(lia)) as H.
    exact (FP_PF _ _ _ H).
  - apply quot_P0_PF; [exact (between_zero_P0 _ _ Hp)|fp_const].
Qed.

Lemma grund_base_PF inp lf :
  1 <= floors inp -> lowrise_opt inp = Ok lf -> F64.PF (grund_base inp lf).
Proof.
  intros Hf Hl.
  unfold grund_base, struct_mult, heavy_mult, system_struct_mult, scale_opt.
  destruct (lowrise_opt_cases inp lf Hf Hl) as [-> | [-> | [-> | ->]]];
    destruct (method_mult_cases inp) as [-> | [-> | ->]];
    destruct (system_boundary inp), (heavy_concrete_design inp),
      (structural_system inp), (basement inp); fp_const.
Qed.

Lemma grund_pre_P0 inp lf :
  F64.valid (atemp_to_bta inp) = true ->
  between f0 (parking_ratio inp) (F64.of_Z 2) = true ->
  between (F64.dec 7 10) (atemp_to_bta inp) f1 = true ->
  1 <= floors inp -> lowrise_opt inp = Ok lf ->
  F64.P0 (grund_pre inp lf).
Proof.
  intros Hv Hp Ha Hf Hl. unfold grund_pre.
  pose proof (grund_base_PF inp lf Hf Hl) as H5.
  destruct (underground_garage inp); [|exact (PF_P0 _ H5)].
  apply add_P0_P0; [exact (PF_P0 _ H5)|].
  apply garage_of_P0; assumption.
Qed.


Lemma reduced_P0 tr asum v : F64.P0 (reduced tr asum v).
Proof. apply nonneg_P0. apply pymax_f0_nonneg. Qed.


(** * Values and rounding errors *)

Module F64Values.

Import F64 F64Facts.

Lemma div_pow_bounds m k :
  0 <= m -> 0 <= k ->
  (m / 2 ^ k) * 2 ^ k <= m < (m / 2 ^ k + 1) * 2 ^ k.
Proof.
  intros Hm Hk. pose proof (Z.pow_pos_nonneg 2 k ltac:(lia) Hk) as Hp.
  pose proof (Z.div_mod m (2 ^ k) ltac:(lia)) as Hdm.
  pose proof (Z.mod_pos_bound m (2 ^ k) Hp) as Hmod.
  nia.
Qed.

(** The rounded mantissa is within one unit of the exact one, for a
    canonical input in the normal or subnormal range. *)
Lemma bra_value s mx ex lx :
  0 < mx -> emin < Zdigits2 mx + ex -> Zdigits2 mx + ex <= 1023 ->
  ex <= fx (Zdigits2 mx + ex) ->
  exists m e,
    binary_round_aux prec emax s mx ex lx = S754_finite s m e
    /\ bounded prec emax m e = true
    /\ Zdigits2 mx + ex <= mag m e <= Zdigits2 mx + ex + 1
    /\ fx (Zdigits2 mx + ex) <= e <= fx (Zdigits2 mx + ex) + 1
    /\ Z.abs (Zpos m * 2 ^ (e - ex) - mx) <= 2 ^ (e - ex).
Proof.
  intros Hmx Hlo Hhi Hcan.
  pose proof (bra_mag s mx ex lx Hmx) as Hmag.
  destruct (bra_spec s mx ex lx) as [mr [Hb E]]; [lia|]. cbv zeta in Hb.
  rewrite E in Hmag. rewrite E. clear E.
  pose proof (Zdigits2_pos mx Hmx) as Hd.
  remember (Zdigits2 mx) as d eqn:Ed.
  remember (Z.max (fx (d + ex) - ex) 0) as k1 eqn:Ek1.
  remember (mx / 2 ^ k1) as m1 eqn:Em1.
  remember (Z.max (fx (Zdigits2 mr + (ex + k1)) - (ex + k1)) 0) as k2 eqn:Ek2.
  unfold fx, emin in *.
  assert (Hk1 : k1 = Z.max (d + ex - 53) (-1074) - ex) by lia.
  assert (Hk1d : 0 <= k1 < d) by lia.
  destruct (Zdigits2_div_pow mx k1 Hmx ltac:(lia) ltac:(lia)) as [Hm1 Hd1].
  rewrite <- Em1 in Hm1, Hd1. rewrite <- Ed in Hd1.
  pose proof (div_pow_bounds mx k1 ltac:(lia) ltac:(lia)) as Hdiv.
  rewrite <- Em1 in Hdiv.
  assert (Hmr : 0 < mr) by lia.
  pose proof (Zdigits2_mono m1 mr Hm1 ltac:(lia)) as Hdlo.
  pose proof (Zdigits2_mono mr (m1 + 1) Hmr ltac:(lia)) as Hdhi.
  pose proof (Zdigits2_succ m1 Hm1) as Hs.
  remember (Zdigits2 mr) as dr eqn:Edr.
  remember (Zdigits2 m1) as d1 eqn:Ed1.
  assert (Hk2 : k2 = 0 \/ (k2 = 1 /\ dr = 54)) by lia.
  pose proof (Z.pow_pos_nonneg 2 k1 ltac:(lia) ltac:(lia)) as Hp1.
  destruct Hk2 as [Hk2 | [Hk2 Hdr]]; rewrite Hk2 in *.
  - rewrite Z.pow_0_r, Z.div_1_r in *.
    destruct mr as [|pr|pr]; try lia.
    unfold bra_result in *.
    destruct (ex + k1 + 0 <=? 971); [|destruct Hmag as [_ Hc]; lia].
    destruct Hmag as (_ & Hg1 & Hg2 & Hg3).
    exists pr, (ex + k1 + 0).
    split; [reflexivity|]. split; [apply Hg3; lia|].
    split; [lia|]. split; [lia|].
    replace (ex + k1 + 0 - ex) with k1 by lia. nia.
  - change (2 ^ 1) with 2 in *.
    destruct (Zdigits2_div_pow mr 1 Hmr ltac:(lia) ltac:(lia)) as [Hm2 Hd2].
    change (2 ^ 1) with 2 in Hm2, Hd2.
    pose proof (Z.div_mod mr 2 ltac:(lia)) as Hdm2.
    pose proof (Z.mod_pos_bound mr 2 ltac:(lia)) as Hmod2.
    destruct (mr / 2) as [|p2|p2]; try lia.
    unfold bra_result in *.
    destruct (ex + k1 + 1 <=? 971); [|destruct Hmag as [_ Hc]; lia].
    destruct Hmag as (_ & Hg1 & Hg2 & Hg3).
    exists p2, (ex + k1 + 1).
    split; [reflexivity|]. split; [apply Hg3; lia|].
    split; [lia|]. split; [lia|].
    replace (ex + k1 + 1 - ex) with (k1 + 1) by lia.
    rewrite Z.pow_add_r by lia. change (2 ^ 1) with 2. nia.
Qed.

Lemma binary_round_value s m0 e0 :
  emin < mag m0 e0 -> mag m0 e0 <= 1023 ->
  exists m e,
    binary_round prec emax s m0 e0 = S754_finite s m e
    /\ bounded prec emax m e = true
    /\ mag m0 e0 <= mag m e <= mag m0 e0 + 1
    /\ fx (mag m0 e0) <= e <= fx (mag m0 e0) + 1
    /\ Z.abs (Zpos m * 2 ^ (e - Z.min e0 (fx (mag m0 e0)))
              - Zpos m0 * 2 ^ (e0 - Z.min e0 (fx (mag m0 e0))))
       <= 2 ^ (e - Z.min e0 (fx (mag m0 e0))).
Proof.
  intros Hlo Hhi. unfold binary_round.
  pose proof (shl_align_spec m0 e0 (fexp prec emax (Z.pos (digits2_pos m0) + e0)))
    as [Hmz Hez].
  destruct (shl_align m0 e0 _) as [mz ez]. cbn [fst snd] in Hmz, Hez.
  rewrite <- Hez in Hmz.
  rewrite fexp_eq in Hez. fold (mag m0 e0) in Hez. fold (fx (mag m0 e0)) in Hez.
  assert (Hmag : Zdigits2 (Zpos mz) + ez = mag m0 e0).
  { rewrite Hmz, Zdigits2_shiftl by lia. rewrite mag_Zdigits2. lia. }
  destruct (bra_value s (Zpos mz) ez loc_Exact ltac:(lia))
    as (m & e & E & Hb & Hm & He & Hv); rewrite ?Hmag; try lia.
  rewrite Hmag in Hm, He. rewrite Hmz in Hv. rewrite <- Hez.
  exists m, e. repeat split; try assumption; lia.
Qed.

Lemma pow_split a b : 0 <= a -> 0 <= b -> 2 ^ (a + b) = 2 ^ a * 2 ^ b.
Proof. intros. apply Z.pow_add_r; assumption. Qed.

(** The sum of two positive finite values of moderate magnitude is
    valid, and within half a unit of the exact sum. *)
Lemma add_GP_V a b c d x y :
  GP a b x -> GP c d y -> emin < Z.max a c -> Z.max b d <= 50 ->
  exists m e,
    add x y = S754_finite false m e
    /\ bounded prec emax m e = true
    /\ Z.max a c <= mag m e <= Z.max b d + 2
    /\ emin <= e
    /\ 2 * Z.abs (V (add x y) - (V x + V y)) <= U.
Proof.
  destruct x as [sx|sx| |[] mx ex]; destruct y as [sy|sy| |[] my ey];
    try (simpl; tauto).
  unfold GP at 1 2. intros [Hx Hex] [Hy Hey] Hlo Hhi.
  rewrite add_finite_pos.
  set (ez := Z.min ex ey).
  pose proof (shl_align_le mx ex ez ltac:(lia)) as Ex.
  pose proof (shl_align_le my ey ez ltac:(lia)) as Ey.
  set (px := fst (shl_align mx ex ez)) in *.
  set (py := fst (shl_align my ey ez)) in *.
  pose proof (Zdigits2_add (Zpos px) (Zpos py) ltac:(lia) ltac:(lia)) as Hd.
  pose proof (Zdigits2_mono (Zpos py) (Zpos px + Zpos py) ltac:(lia)
                ltac:(lia)) as Hd'.
  rewrite <- Pos2Z.inj_add in Hd, Hd'.
  rewrite Ex, Ey in Hd. rewrite Ey in Hd'.
  rewrite !Zdigits2_shiftl in Hd by lia.
  rewrite !Zdigits2_shiftl in Hd' by lia.
  unfold mag in Hx, Hy. unfold emin in *.
  change (Zdigits2 (Z.pos mx)) with (Z.pos (digits2_pos mx)) in Hd.
  change (Zdigits2 (Z.pos my)) with (Z.pos (digits2_pos my)) in Hd, Hd'.
  change (Zdigits2 (Z.pos (px + py)))
    with (Z.pos (digits2_pos (px + py))) in Hd, Hd'.
  destruct (binary_round_value false (px + py) ez)
    as (m & e & E & Hb & Hm & He & Hv);
    try (unfold mag, emin; lia).
  rewrite E. exists m, e.
  unfold mag in Hm, He, Hv. unfold fx, emin in He, Hv.
  split; [reflexivity|]. split; [assumption|].
  split; [unfold mag; lia|]. split; [lia|].
  unfold V. cbn [cond_Zopp].
  set (M := Z.pos (digits2_pos (px + py)) + ez) in *.
  set (ez' := Z.min ez (Z.max (M - 53) (-1074))) in *.
  assert (Hez' : -1074 <= ez' <= ez) by lia.
  assert (Hez : -1074 <= ez /\ ez <= ex /\ ez <= ey) by (subst ez; lia).
  replace (e + 1074) with ((e - ez') + (ez' + 1074)) by lia.
  replace (ex + 1074) with ((ex - ez) + ((ez - ez') + (ez' + 1074))) by lia.
  replace (ey + 1074) with ((ey - ez) + ((ez - ez') + (ez' + 1074))) by lia.
  rewrite (pow_split (e - ez')) by lia.
  rewrite (pow_split (ex - ez)) by lia.
  rewrite (pow_split (ey - ez)) by lia.
  rewrite (pow_split (ez - ez')) by lia.
  rewrite Pos2Z.inj_add, Ex, Ey in Hv.
  assert (Hp : 2 * (2 ^ (e - ez') * 2 ^ (ez' + 1074)) <= U).
  { rewrite <- pow_split by lia.
    replace (2 * 2 ^ (e - ez' + (ez' + 1074)))
      with (2 ^ (1 + (e - ez' + (ez' + 1074))))
      by (rewrite (pow_split 1) by lia; reflexivity).
    unfold U. apply Z.pow_le_mono_r; lia. }
  pose proof (Z.pow_pos_nonneg 2 (ez' + 1074) ltac:(lia) ltac:(lia)) as HQ.
  set (Q := 2 ^ (ez' + 1074)) in *.
  set (B := 2 ^ (e - ez')) in *.
  set (A := 2 ^ (ez - ez')) in *.
  set (Px := 2 ^ (ex - ez)) in *.
  set (Py := 2 ^ (ey - ez)) in *.
  assert (Hm2 : Z.abs (Z.pos m * (B * Q)
                       - (Z.pos mx * (Px * (A * Q)) + Z.pos my * (Py * (A * Q))))
                <= B * Q).
  { replace (Z.pos m * (B * Q)
             - (Z.pos mx * (Px * (A * Q)) + Z.pos my * (Py * (A * Q))))
      with ((Z.pos m * B - (Z.pos mx * Px + Z.pos my * Py) * A) * Q) by ring.
    rewrite Z.abs_mul, (Z.abs_eq Q) by lia.
    apply Z.mul_le_mono_nonneg_r; lia. }
  lia.
Qed.

(** ** Values and the order of valid floats *)

Lemma V_finite_bounds m e :
  emin <= e ->
  2 ^ (mag m e - 1 + 1074) <= V (S754_finite false m e) < 2 ^ (mag m e + 1074).
Proof.
  intros He. unfold V, mag, emin in *. cbn [cond_Zopp].
  pose proof (Zdigits2_bounds (Zpos m) ltac:(lia)) as [Hlo Hhi].
  change (Zdigits2 (Z.pos m)) with (Z.pos (digits2_pos m)) in Hlo, Hhi.
  pose proof (Pos2Z.is_pos (digits2_pos m)) as Hd.
  replace (Z.pos (digits2_pos m) + e - 1 + 1074)
    with ((Z.pos (digits2_pos m) - 1) + (e + 1074)) by lia.
  replace (Z.pos (digits2_pos m) + e + 1074)
    with (Z.pos (digits2_pos m) + (e + 1074)) by lia.
  rewrite (pow_split (Z.pos (digits2_pos m) - 1)) by lia.
  rewrite (pow_split (Z.pos (digits2_pos m))) by lia.
  pose proof (Z.pow_pos_nonneg 2 (e + 1074) ltac:(lia) ltac:(lia)).
  split; [apply Z.mul_le_mono_nonneg_r; lia|].
  apply Z.mul_lt_mono_pos_r; lia.
Qed.

Lemma V_lt_ltb mx ex my ey :
  bounded prec emax mx ex = true -> bounded prec emax my ey = true ->
  V (S754_finite false mx ex) < V (S754_finite false my ey) ->
  ltb (S754_finite false mx ex) (S754_finite false my ey) = true.
Proof.
  intros Hbx Hby HV.
  apply bounded_inv in Hbx as [Hcx _]. apply bounded_inv in Hby as [Hcy _].
  assert (Hex : emin <= ex) by (unfold fx in Hcx; lia).
  assert (Hey : emin <= ey) by (unfold fx in Hcy; lia).
  unfold ltb, SFltb, SFcompare.
  destruct (Z.compare_spec ex ey) as [E|E|E].
  - subst ey.
    change (PosDef.Pos.compare_cont Eq mx my) with (Pos.compare mx my).
    destruct (Pos.compare_spec mx my) as [E'|E'|E']; [|reflexivity|].
    + subst my. lia.
    + exfalso. unfold V, emin in *. cbn [cond_Zopp] in HV.
      pose proof (Z.pow_pos_nonneg 2 (ex + 1074) ltac:(lia) ltac:(lia)).
      assert (Z.pos my * 2 ^ (ex + 1074) <= Z.pos mx * 2 ^ (ex + 1074))
        by (apply Z.mul_le_mono_nonneg_r; lia).
      lia.
  - reflexivity.
  - exfalso.
    pose proof (V_finite_bounds mx ex Hex) as [Hx _].
    pose proof (V_finite_bounds my ey Hey) as [_ Hy].
    assert (Hm : mag my ey < mag mx ex) by (unfold fx in *; lia).
    assert (2 ^ (mag my ey + 1074) <= 2 ^ (mag mx ex - 1 + 1074))
      by (apply Z.pow_le_mono_r; lia).
    lia.
Qed.

End F64Values.

(** * Timber against concrete in the extended scope *)

Import F64Facts F64Values.

Lemma GP_intro lo hi m e :
  lo <= F64.mag m e <= hi -> F64.emin <= e ->
  F64.GP lo hi (S754_finite false m e).
Proof. unfold F64.GP. auto. Qed.

Lemma GP_weaken lo hi lo' hi' x :
  F64.GP lo hi x -> lo' <= lo -> hi <= hi' -> F64.GP lo' hi' x.
Proof. destruct x as [[]|[]| |[] m e]; simpl; try tauto. lia. Qed.

Ltac gp_weaken H := eapply GP_weaken; [exact H|lia|lia].

Lemma FP_mul_GP lo hi a b :
  F64.FP lo hi (F64.mul a b) -> F64.GP lo hi (F64.mul a b).
Proof.
  destruct (F64.mul a b) as [[]|[]| |[] m e] eqn:E; simpl; try tauto.
  intros H. split; [assumption|].
  apply mul_exp_digits in E. tauto.
Qed.

(** Sums: the class, the validity and the value of [add]. *)
Lemma add_GP a b c d x y :
  F64.GP a b x -> F64.GP c d y -> F64.emin < Z.max a c -> Z.max b d <= 50 ->
  F64.GP (Z.max a c) (Z.max b d + 2) (F64.add x y)
  /\ F64.valid (F64.add x y) = true
  /\ 2 * Z.abs (F64.V (F64.add x y) - (F64.V x + F64.V y)) <= F64.U.
Proof.
  intros Hx Hy Hlo Hhi.
  destruct (add_GP_V a b c d x y Hx Hy Hlo Hhi)
    as (m & e & E & Hb & Hm & He & Hv).
  rewrite E in *. repeat split; try assumption; lia.
Qed.

Lemma add_f0 x : F64.PF x -> F64.add f0 x = x.
Proof. destruct x as [[]|[]| |[] m e]; simpl; try tauto. Qed.

Lemma GP_PF lo hi x : F64.GP lo hi x -> F64.PF x.
Proof. destruct x as [[]|[]| |[] m e]; simpl; tauto. Qed.

(** The total of five positive categories of moderate magnitude is a
    valid float within two units of the exact sum. *)
Lemma fsum5_V s g k i y :
  F64.GP (-1073) 41 s -> F64.GP (-1073) 41 g -> F64.GP (-1073) 41 k ->
  F64.GP (-1073) 41 i -> F64.GP (-1073) 41 y ->
  F64.valid (fsum [s; g; k; i; y]) = true
  /\ F64.GP (-1073) 49 (fsum [s; g; k; i; y])
  /\ Z.abs (F64.V (fsum [s; g; k; i; y])
            - (F64.V s + F64.V g + F64.V k + F64.V i + F64.V y))
     <= 2 * F64.U.
Proof.
  intros Hs Hg Hk Hi Hy. unfold fsum. cbn [fold_left].
  change (S754_zero false) with f0.
  rewrite (add_f0 s (GP_PF _ _ _ Hs)).
  destruct (add_GP _ _ _ _ s g Hs Hg ltac:(unfold F64.emin; lia) ltac:(lia))
    as (H2 & _ & V2).
  destruct (add_GP _ _ _ _ _ k H2 Hk ltac:(unfold F64.emin; lia) ltac:(lia))
    as (H3 & _ & V3).
  destruct (add_GP _ _ _ _ _ i H3 Hi ltac:(unfold F64.emin; lia) ltac:(lia))
    as (H4 & _ & V4).
  destruct (add_GP _ _ _ _ _ y H4 Hy ltac:(unfold F64.emin; lia) ltac:(lia))
    as (H5 & HV & V5).
  split; [assumption|]. split; [exact H5|].
  lia.
Qed.

(** ** Magnitudes within the validated ranges *)

Lemma form_factor_FP x :
  F64.valid x = true ->
  between (F64.dec 2 10) x (F64.dec 15 10) = true -> F64.FP (-2) 1 x.
Proof.
  intros Hv H. pose proof (form_factor_PF x H) as Hpf.
  destruct x as [[]|[]| |[] m e]; try contradiction.
  unfold between in H. apply andb_true_iff in H as [H1 H2].
  change (F64.dec 2 10) with (S754_finite false 7205759403792794 (-55)) in H1.
  change (F64.dec 15 10) with (S754_finite false 6755399441055744 (-52)) in H2.
  apply leb_finite in H1. apply leb_finite in H2.
  apply bounded_inv in Hv as [Hc _]. unfold F64.fx, F64.emin in Hc.
  unfold F64.FP. lia.
Qed.

Lemma clamp_height_FP a : F64.FP (-52) 1 (clamp_height (F64.quot a ref_floor_height)).
Proof.
  unfold clamp_height, pymax, pymin, F64.gtb, F64.ltb.
  set (x := F64.quot a ref_floor_height).
  destruct (SFltb x f1_3) eqn:E1.
  - destruct (SFltb f0_8 x) eqn:E2; [|fp_const].
    change f1_3 with (S754_finite false 5854679515581645 (-52)) in E1.
    change f0_8 with (S754_finite false 7205759403792794 (-53)) in E2.
    destruct x as [[]|[]| |[] m e] eqn:Ex;
      try (cbv [SFltb SFcompare] in E1, E2; discriminate).
    apply quot_exp_digits in Ex as [_ Hd].
    apply ltb_finite in E1. apply ltb_finite in E2.
    pose proof (Pos2Z.is_pos (digits2_pos m)).
    unfold F64.FP, F64.mag. lia.
  - destruct (SFltb f0_8 f1_3); fp_const.
Qed.

Lemma height_factor_FP inp hf :
  height_factor inp = Ok hf -> F64.FP (-52) 1 hf.
Proof.
  unfold height_factor. intros H.
  destruct (building_height_m inp) as [h|];
    [|injection H as <-; fp_const].
  destruct (F64.truthy h && (floors inp >? 0))%bool;
    [|injection H as <-; fp_const].
  inv_bind H. injection H as <-.
  apply fdiv_inv in E1 as [_ ->]. apply clamp_height_FP.
Qed.

Lemma window_mix_factor_FP w :
  F64.valid w = true -> between f0 w (F64.dec 9 10) = true ->
  F64.FP (-4) 7 (F64.quot (window_mix w (F64.of_Z 4))
                          (window_mix (F64.dec 20 100) (F64.of_Z 4))).
Proof.
  intros Hv H. pose proof (window_mix_FP w Hv H) as Hn.
  assert (Hd : F64.FP 1 1 (window_mix (F64.dec 20 100) (F64.of_Z 4)))
    by fp_const.
  exact (quot_FP _ _ _ _ _ _ Hn Hd ltac:(unfold F64.emin; lia) ltac:(lia)).
Qed.

Lemma klimat_pre_GP inp hf lf :
  F64.valid (form_factor inp) = true ->
  F64.valid (window_ratio inp) = true ->
  between (F64.dec 2 10) (form_factor inp) (F64.dec 15 10) = true ->
  between f0 (window_ratio inp) (F64.dec 9 10) = true ->
  1 <= floors inp -> lowrise_opt inp = Ok lf ->
  height_factor inp = Ok hf ->
  F64.GP (-100) 24 (klimat_pre inp hf lf).
Proof.
  intros Hvf Hvw Hff Hw Hf Hl Hh. unfold klimat_pre.
  assert (He : F64.FP (-59) 14 (envelope_of inp hf)).
  { unfold envelope_of, envelope_factor.
    assert (H045 : F64.FP (-1) (-1) (F64.dec 45 100)) by fp_const.
    pose proof (quot_FP _ _ _ _ _ _ (form_factor_FP _ Hvf Hff) H045
                  ltac:(unfold F64.emin; lia) ltac:(lia)) as H1.
    pose proof (mul_FP _ _ _ _ _ _ H1 (height_factor_FP inp hf Hh)
                  ltac:(unfold F64.emin; lia) ltac:(lia)) as H2.
    pose proof (mul_FP _ _ _ _ _ _ H2 (window_mix_factor_FP _ Hvw Hw)
                  ltac:(unfold F64.emin; lia) ltac:(lia)) as H3.
    eapply FP_weaken; [exact H3|lia|lia]. }
  assert (Hc : F64.FP 7 7 (F64.mul (base_of (system_boundary inp))
                             (share_of (system_boundary inp) Klimatskarm)))
    by (destruct (system_boundary inp); fp_const).
  pose proof (mul_FP _ _ _ _ _ _ Hc He ltac:(unfold F64.emin; lia) ltac:(lia))
    as Hk.
  unfold scale_opt.
  destruct (lowrise_opt_cases inp lf Hf Hl) as [-> | [-> | [-> | ->]]].
  - apply FP_mul_GP. eapply FP_weaken; [exact Hk|lia|lia].
  - apply FP_mul_GP.
    assert (Hl3 : F64.FP 1 1 (lowrise_factor (F64.of_Z 3))) by fp_const.
    pose proof (mul_FP _ _ _ _ _ _ Hk Hl3 ltac:(unfold F64.emin; lia)
                  ltac:(lia)) as H.
    eapply FP_weaken; [exact H|lia|lia].
  - apply FP_mul_GP.
    assert (Hl2 : F64.FP 1 1 (lowrise_factor (F64.of_Z 2))) by fp_const.
    pose proof (mul_FP _ _ _ _ _ _ Hk Hl2 ltac:(unfold F64.emin; lia)
                  ltac:(lia)) as H.
    eapply FP_weaken; [exact H|lia|lia].
  - apply FP_mul_GP.
    assert (Hl1 : F64.FP 1 1 (lowrise_factor (F64.of_Z 1))) by fp_const.
    pose proof (mul_FP _ _ _ _ _ _ Hk Hl1 ltac:(unfold F64.emin; lia)
                  ltac:(lia)) as H.
    eapply FP_weaken; [exact H|lia|lia].
Qed.

(** A valid parking ratio between 0 and 2: zero, or positive of
    magnitude at most 2. *)
Lemma parking_cases x :
  F64.valid x = true -> between f0 x (F64.of_Z 2) = true ->
  (exists s, x = S754_zero s) \/ F64.FP (-1073) 2 x.
Proof.
  intros Hv H. pose proof (between_zero_P0 _ _ H) as Hp.
  unfold between in H. apply andb_true_iff in H as [_ H2].
  change (F64.of_Z 2) with (S754_finite false 4503599627370496 (-51)) in H2.
  destruct x as [s|[]| |[] m e]; try contradiction.
  - left. eauto.
  - cbv [F64.leb SFleb SFcompare] in H2. discriminate.
  - right. apply leb_finite in H2.
    apply bounded_inv in Hv as [Hc _]. unfold F64.fx, F64.emin in Hc.
    pose proof (mag_pos m e). unfold F64.FP. lia.
Qed.

Lemma garage_of_cases inp :
  F64.valid (atemp_to_bta inp) = true ->
  F64.valid (parking_ratio inp) = true ->
  between f0 (parking_ratio inp) (F64.of_Z 2) = true ->
  between (F64.dec 7 10) (atemp_to_bta inp) f1 = true ->
  (exists s, garage_of inp = S754_zero s)
  \/ F64.GP (-1069) 13 (garage_of inp).
Proof.
  intros Hva Hvp Hp Ha. unfold garage_of.
  assert (H48 : F64.FP 6 6 (F64.of_Z 48)) by fp_const.
  pose proof (mul_FP _ _ _ _ _ _ H48 (atemp_FP _ Hva Ha)
                ltac:(unfold F64.emin; lia) ltac:(lia)) as Hm.
  destruct (parking_cases _ Hvp Hp) as [[s ->] | Hpr].
  - left.
    destruct (F64.mul (F64.of_Z 48) (atemp_to_bta inp))
      as [[]|[]| |[] m e]; try contradiction.
    eexists. reflexivity.
  - right. apply FP_mul_GP.
    assert (H05 : F64.FP 0 0 (F64.dec 5 10)) by fp_const.
    pose proof (quot_FP _ _ _ _ _ _ Hpr H05 ltac:(unfold F64.emin; lia)
                  ltac:(lia)) as Hq.
    pose proof (mul_FP _ _ _ _ _ _ Hm Hq ltac:(unfold F64.emin; lia)
                  ltac:(lia)) as H.
    eapply FP_weaken; [exact H|lia|lia].
Qed.

Lemma add_zero_r x s : F64.PF x -> F64.add x (S754_zero s) = x.
Proof. destruct x as [[]|[]| |[] m e]; simpl; try tauto. Qed.

(** The foundation with the garage: within half a unit of the base plus
    the garage value. *)
Lemma grund_pre_V inp lf :
  F64.valid (atemp_to_bta inp) = true ->
  F64.valid (parking_ratio inp) = true ->
  between f0 (parking_ratio inp) (F64.of_Z 2) = true ->
  between (F64.dec 7 10) (atemp_to_bta inp) f1 = true ->
  F64.GP 1 20 (grund_base inp lf) ->
  F64.GP 1 24 (grund_pre inp lf)
  /\ 2 * Z.abs (F64.V (grund_pre inp lf)
                - (F64.V (grund_base inp lf) + garage_value inp)) <= F64.U.
Proof.
  intros Hva Hvp Hp Ha Hb. unfold grund_pre, garage_value.
  assert (HU : 0 <= F64.U) by (unfold F64.U; apply Z.pow_nonneg; lia).
  destruct (underground_garage inp).
  - destruct (garage_of_cases inp Hva Hvp Hp Ha) as [[s ->] | Hg].
    + rewrite add_zero_r by exact (GP_PF _ _ _ Hb).
      split; [eapply GP_weaken; [exact Hb|lia|lia]|].
      cbn [F64.V]. rewrite Z.add_0_r, Z.sub_diag. cbn [Z.abs]. lia.
    + destruct (add_GP _ _ _ _ _ _ Hb Hg ltac:(unfold F64.emin; lia)
                  ltac:(lia)) as (H1 & _ & H2).
      split; [eapply GP_weaken; [exact H1|lia|lia]|assumption].
  - split; [eapply GP_weaken; [exact Hb|lia|lia]|].
    rewrite Z.add_0_r, Z.sub_diag. cbn [Z.abs]. lia.
Qed.

(** ** The constants of the two runs *)

Ltac run_unfold :=
  unfold stomme_pre, inner_pre, ytskikt_pre, grund_base, struct_mult,
    heavy_mult, system_struct_mult, scale_opt, timber_run, concrete_run;
  cbn [with_system system_boundary structural_system heavy_concrete_design
       basement];
  change (method_mult default_config (with_system Tra ?i))
    with (method_mult default_config i);
  change (method_mult default_config (with_system Betong ?i))
    with (method_mult default_config i).

Lemma stomme_runs inp :
  system_boundary inp = B2027 ->
  F64.GP 1 20 (stomme_pre (timber_run inp))
  /\ F64.GP 1 20 (stomme_pre (concrete_run inp))
  /\ F64.V (stomme_pre (timber_run inp)) + 64 * F64.U
     <= F64.V (stomme_pre (concrete_run inp))
  /\ 85 * F64.U <= F64.V (stomme_pre (timber_run inp))
  /\ F64.valid (stomme_pre (timber_run inp)) = true
  /\ F64.valid (stomme_pre (concrete_run inp)) = true.
Proof.
  intros Hb. run_unfold. rewrite Hb.
  destruct (method_mult_cases inp) as [-> | [-> | ->]];
    destruct (heavy_concrete_design inp); fp_const.
Qed.

Lemma inner_runs inp :
  system_boundary inp = B2027 ->
  F64.GP 1 20 (inner_pre (timber_run inp))
  /\ F64.GP 1 20 (inner_pre (concrete_run inp))
  /\ F64.V (inner_pre (timber_run inp)) + 16 * F64.U
     <= F64.V (inner_pre (concrete_run inp))
  /\ F64.V (inner_pre (concrete_run inp)) <= 51 * F64.U.
Proof.
  intros Hb. run_unfold. rewrite Hb.
  destruct (method_mult_cases inp) as [-> | [-> | ->]];
    destruct (heavy_concrete_design inp); fp_const.
Qed.

Lemma ytskikt_runs inp :
  system_boundary inp = B2027 ->
  F64.GP 1 20 (ytskikt_pre inp) /\ F64.V (ytskikt_pre inp) <= 38 * F64.U.
Proof. intros Hb. unfold ytskikt_pre. rewrite Hb. fp_const. Qed.

Lemma grund_base_runs inp lf :
  system_boundary inp = B2027 -> 1 <= floors inp -> lowrise_opt inp = Ok lf ->
  F64.GP 1 20 (grund_base (timber_run inp) lf)
  /\ F64.GP 1 20 (grund_base (concrete_run inp) lf)
  /\ F64.V (grund_base (timber_run inp) lf)
     <= F64.V (grund_base (concrete_run inp) lf)
  /\ F64.valid (grund_base (timber_run inp) lf) = true
  /\ F64.valid (grund_base (concrete_run inp) lf) = true.
Proof.
  intros Hb Hf Hl. run_unfold. rewrite Hb.
  destruct (lowrise_opt_cases inp lf Hf Hl) as [-> | [-> | [-> | ->]]];
    destruct (method_mult_cases inp) as [-> | [-> | ->]];
    destruct (heavy_concrete_design inp), (basement inp); fp_const.
Qed.

(** ** Step 4, key by key *)

Lemma dict_imul_if_mem_spec k x d d' :
  dict_imul_if_mem k x d = Ok d' ->
  forall k',
    dict_get k' d'
    = if String.eqb k' k
      then option_map (fun v => F64.mul v x) (dict_get k d)
      else dict_get k' d.
Proof.
  unfold dict_imul_if_mem, dict_imul, dict_mem. intros H k'.
  destruct (dict_get k d) as [v|] eqn:Ev.
  - injection H as <-.
    destruct (String.eqb k' k) eqn:Ek.
    + apply String.eqb_eq in Ek. subst k'. apply dict_get_set_same.
    + apply String.eqb_neq in Ek. apply dict_get_set_other. congruence.
  - injection H as <-.
    destruct (String.eqb k' k) eqn:Ek; [|reflexivity].
    apply String.eqb_eq in Ek. subst k'. rewrite Ev. reflexivity.
Qed.

Lemma step4_spec cfg inp b b' :
  step4_structure cfg inp b = Ok b' ->
  forall k,
    dict_get k b'
    = if is_structural k
      then option_map (fun v => F64.mul v (struct_mult cfg inp)) (dict_get k b)
      else dict_get k b.
Proof.
  unfold step4_structure, is_structural. cbv zeta. cbn [existsb].
  intros H k. inv_bind H.
  rewrite (dict_imul_if_mem_spec _ _ _ _ H k).
  rewrite (dict_imul_if_mem_spec _ _ _ _ E0 k).
  rewrite (dict_imul_if_mem_spec _ _ _ _ E k).
  rewrite (dict_imul_if_mem_spec _ _ _ _ E0 Innervaggar).
  rewrite (dict_imul_if_mem_spec _ _ _ _ E Innervaggar).
  rewrite (dict_imul_if_mem_spec _ _ _ _ E Grund).
  change (String.eqb Innervaggar Grund) with false.
  change (String.eqb Innervaggar Stomme) with false.
  change (String.eqb Grund Stomme) with false.
  cbv iota.
  destruct (String.eqb k Stomme) eqn:E1'.
  - apply String.eqb_eq in E1'. subst k. reflexivity.
  - destruct (String.eqb k Grund) eqn:E2'.
    + apply String.eqb_eq in E2'. subst k. reflexivity.
    + destruct (String.eqb k Innervaggar) eqn:E3'; [|reflexivity].
      apply String.eqb_eq in E3'. subst k. reflexivity.
Qed.

(** ** The totals of the two runs *)

Lemma total_closed_off inp hf lf t :
  system_boundary inp = B2027 ->
  climate_improved_materials inp = false ->
  total_kg_per_m2_bta (estimate_closed inp hf lf t)
  = fsum [stomme_pre inp; grund_pre inp lf; klimat_pre inp hf lf;
          inner_pre inp; ytskikt_pre inp].
Proof.
  intros Hb Hoff. unfold estimate_closed, result_of, step6_closed, tail_of.
  rewrite Hoff, Hb. reflexivity.
Qed.

Lemma timber_total_less inp hf lf :
  system_boundary inp = B2027 ->
  floats_valid inp = true ->
  validate_inputs inp = [] ->
  height_factor inp = Ok hf -> lowrise_opt inp = Ok lf ->
  F64.ltb
    (fsum [stomme_pre (timber_run inp); grund_pre (timber_run inp) lf;
           klimat_pre (timber_run inp) hf lf; inner_pre (timber_run inp);
           ytskikt_pre (timber_run inp)])
    (fsum [stomme_pre (concrete_run inp); grund_pre (concrete_run inp) lf;
           klimat_pre (concrete_run inp) hf lf; inner_pre (concrete_run inp);
           ytskikt_pre (concrete_run inp)])
  = true.
Proof.
  intros Hb Hv Hn Hh Hl.
  apply validate_nil in Hn as (Hff & Hw & Hf & Hp & Ha).
  unfold floats_valid in Hv.
  repeat (apply andb_true_iff in Hv; destruct Hv as [Hv ?Hv]).
  destruct (stomme_runs inp Hb) as (HSt & HSc & HS & _).
  destruct (inner_runs inp Hb) as (HIt & HIc & HI & _).
  destruct (ytskikt_runs inp Hb) as (HY & _).
  destruct (grund_base_runs inp lf Hb Hf Hl) as (HBt & HBc & HB & _).
  pose proof (klimat_pre_GP inp hf lf ltac:(assumption) ltac:(assumption)
                Hff Hw Hf Hl Hh) as HK.
  destruct (grund_pre_V (timber_run inp) lf ltac:(assumption)
              ltac:(assumption) Hp Ha HBt) as (HGt & VGt).
  destruct (grund_pre_V (concrete_run inp) lf ltac:(assumption)
              ltac:(assumption) Hp Ha HBc) as (HGc & VGc).
  change (garage_value (concrete_run inp)) with (garage_value inp) in VGc.
  change (garage_value (timber_run inp)) with (garage_value inp) in VGt.
  change (klimat_pre (timber_run inp) hf lf) with (klimat_pre inp hf lf).
  change (klimat_pre (concrete_run inp) hf lf) with (klimat_pre inp hf lf).
  change (ytskikt_pre (timber_run inp)) with (ytskikt_pre inp).
  change (ytskikt_pre (concrete_run inp)) with (ytskikt_pre inp).
  destruct (fsum5_V _ _ _ _ _ ltac:(gp_weaken HSt) ltac:(gp_weaken HGt)
              ltac:(gp_weaken HK) ltac:(gp_weaken HIt) ltac:(gp_weaken HY))
    as (Vt & Pt & Et).
  destruct (fsum5_V _ _ _ _ _ ltac:(gp_weaken HSc) ltac:(gp_weaken HGc)
              ltac:(gp_weaken HK) ltac:(gp_weaken HIc) ltac:(gp_weaken HY))
    as (Vc & Pc & Ec).
  apply GP_PF in Pt, Pc.
  assert (HU : 0 < F64.U) by (unfold F64.U; apply Z.pow_pos_nonneg; lia).
  match type of Et with
  | Z.abs (F64.V ?a - _) <= _ =>
      match type of Ec with
      | Z.abs (F64.V ?b - _) <= _ =>
          change (F64.ltb a b = true);
          remember a as tt eqn:Ett; remember b as tc eqn:Etc
      end
  end.
  clear Ett Etc.
  assert (Hlt : F64.V tt < F64.V tc) by lia.
  destruct tt as [[]|[]| |[] mt et]; try contradiction.
  destruct tc as [[]|[]| |[] mc ec]; try contradiction.
  apply V_lt_ltb; assumption.
Qed.

(** * Rounding errors of products, quotients and differences *)

Module F64Round.

Import F64 F64Facts F64Values.

Lemma bounded_canon m e :
  bounded prec emax m e = true ->
  emin <= e
  /\ (Zdigits2 (Zpos m) = 53 \/ (e = emin /\ Zdigits2 (Zpos m) <= 53)).
Proof.
  intros H. apply bounded_inv in H as [H _]. unfold fx, mag, emin in *.
  change (Zdigits2 (Zpos m)) with (Zpos (digits2_pos m)). lia.
Qed.

Lemma pow_le a b : a <= b -> 2 ^ a <= 2 ^ b.
Proof. intros. apply Z.pow_le_mono_r; lia. Qed.

Lemma pow_pos a : 0 <= a -> 0 < 2 ^ a.
Proof. intros. apply Z.pow_pos_nonneg; lia. Qed.

(** The product of two positive valid floats: zero or positive and
    valid, within a relative error of [2^-51] and two units of the exact
    product. *)
Lemma mul_V mx ex my ey :
  bounded prec emax mx ex = true -> bounded prec emax my ey = true ->
  mag mx ex + mag my ey <= 1022 ->
  (mul (S754_finite false mx ex) (S754_finite false my ey) = S754_zero false
   \/ exists m e,
        mul (S754_finite false mx ex) (S754_finite false my ey)
        = S754_finite false m e
        /\ bounded prec emax m e = true
        /\ mag m e <= Z.max (mag mx ex + mag my ey) emin + 1)
  /\ 2 ^ 51
     * Z.abs (V (mul (S754_finite false mx ex) (S754_finite false my ey)) * U
              - V (S754_finite false mx ex) * V (S754_finite false my ey))
     <= V (S754_finite false mx ex) * V (S754_finite false my ey)
        + 2 ^ 52 * U.
Proof.
  intros Hbx Hby Hmag. rewrite mul_finite. cbn [xorb].
  destruct (bounded_canon _ _ Hbx) as [Hex Hdx].
  destruct (bounded_canon _ _ Hby) as [Hey Hdy].
  rewrite Pos2Z.inj_mul.
  pose proof (Zdigits2_mul (Zpos mx) (Zpos my) ltac:(lia) ltac:(lia)) as Hd.
  pose proof (Zdigits2_bounds (Zpos mx * Zpos my) ltac:(lia)) as [Hlo Hhi].
  assert (Hmm : mag mx ex + mag my ey
                = Zdigits2 (Zpos mx) + ex + (Zdigits2 (Zpos my) + ey))
    by reflexivity.
  unfold mag in Hmag.
  change (Zpos (digits2_pos mx)) with (Zdigits2 (Zpos mx)) in Hmag.
  change (Zpos (digits2_pos my)) with (Zdigits2 (Zpos my)) in Hmag.
  remember (Zdigits2 (Zpos mx * Zpos my)) as d eqn:Ed.
  remember (Zdigits2 (Zpos mx)) as dx eqn:Edx.
  remember (Zdigits2 (Zpos my)) as dy eqn:Edy.
  assert (Hdxp : 0 < dx) by (subst dx; apply Zdigits2_pos; lia).
  assert (Hdyp : 0 < dy) by (subst dy; apply Zdigits2_pos; lia).
  unfold emin in *.
  assert (Hcan : ex + ey <= fx (d + (ex + ey))) by (unfold fx, emin; lia).
  set (P := V (S754_finite false mx ex) * V (S754_finite false my ey)).
  assert (HP : P = Zpos mx * Zpos my * 2 ^ (ex + ey + 2148)).
  { subst P. unfold V. cbn [cond_Zopp].
    replace (ex + ey + 2148) with ((ex + 1074) + (ey + 1074)) by lia.
    rewrite (pow_split (ex + 1074)) by lia. ring. }
  pose proof (pow_pos (ex + ey + 2148) ltac:(lia)) as Hs.
  assert (HP0 : 0 <= P) by (rewrite HP; apply Z.mul_nonneg_nonneg; lia).
  assert (HU : U = 2 ^ 1074) by reflexivity.
  pose proof (pow_pos 1074 ltac:(lia)) as HUp. rewrite <- HU in HUp.
  destruct (Z_le_gt_dec (d + (ex + ey)) (-1074)) as [Hsub|Hnorm].
  - (* the product is below the least positive value *)
    assert (HPU : P <= U).
    { rewrite HP, HU.
      apply Z.le_trans with (2 ^ d * 2 ^ (ex + ey + 2148)).
      - apply Z.mul_le_mono_nonneg_r; lia.
      - rewrite <- pow_split by lia. apply pow_le. lia. }
    pose proof (bra_mag false (Zpos mx * Zpos my) (ex + ey) loc_Exact
                  ltac:(lia)) as H.
    rewrite <- Ed in H. unfold emin in H.
    destruct (binary_round_aux prec emax false (Zpos mx * Zpos my) (ex + ey)
                loc_Exact) as [s0|s0| |s0 m0 e0]; try contradiction.
    + destruct H as [-> _]. split; [left; reflexivity|].
      cbn [V]. rewrite Z.mul_0_l, Z.sub_0_l, Z.abs_opp, Z.abs_eq by lia. lia.
    + exfalso. lia.
    + destruct H as (-> & H1 & _ & H3). specialize (H3 Hcan).
      split; [right; exists m0, e0; repeat split; auto; lia|].
      pose proof (bounded_canon _ _ H3) as [He0 _].
      pose proof (V_finite_bounds m0 e0 He0) as [Hv1 Hv2].
      assert (2 ^ (mag m0 e0 + 1074) <= 2 ^ 1) by (apply pow_le; lia).
      change (2 ^ 1) with 2 in *.
      assert (Hv : 0 <= V (S754_finite false m0 e0) <= 1).
      { split; [|lia]. unfold V. cbn [cond_Zopp].
        apply Z.mul_nonneg_nonneg; [lia|]. apply Z.pow_nonneg. lia. }
      assert (0 <= V (S754_finite false m0 e0) * U <= U) by nia.
      assert (Z.abs (V (S754_finite false m0 e0) * U - P) <= U) by lia.
      lia.
  - destruct (bra_value false (Zpos mx * Zpos my) (ex + ey) loc_Exact)
      as (m & e & E & Hb & Hm & He & Hv); rewrite <- ?Ed; unfold emin;
      try lia; try assumption.
    rewrite <- Ed in *.
    rewrite E. split; [right; exists m, e; repeat split; auto; lia|].
    unfold fx, emin in He, Hcan.
    assert (Hk : 0 <= e - (ex + ey)) by lia.
    pose proof (pow_pos (e - (ex + ey)) Hk) as Hkp.
    assert (HV : V (S754_finite false m e) * U
                 = Zpos m * 2 ^ (e - (ex + ey)) * 2 ^ (ex + ey + 2148)).
    { unfold V. cbn [cond_Zopp]. rewrite HU.
      replace (e + 1074) with ((e - (ex + ey)) + (ex + ey + 1074)) by lia.
      rewrite <- Z.mul_assoc, <- pow_split by lia.
      rewrite <- Z.mul_assoc, <- pow_split by lia.
      f_equal. f_equal. lia. }
    rewrite HV, HP.
    replace (Zpos m * 2 ^ (e - (ex + ey)) * 2 ^ (ex + ey + 2148)
             - Zpos mx * Zpos my * 2 ^ (ex + ey + 2148))
      with ((Zpos m * 2 ^ (e - (ex + ey)) - Zpos mx * Zpos my)
            * 2 ^ (ex + ey + 2148)) by ring.
    rewrite Z.abs_mul, (Z.abs_eq (2 ^ (ex + ey + 2148))) by lia.
    remember (2 ^ (ex + ey + 2148)) as Q eqn:EQ.
    remember (2 ^ (e - (ex + ey))) as B eqn:EB.
    assert (Hcase : 2 ^ 51 * (B * Q) <= Zpos mx * Zpos my * Q + 2 ^ 52 * U).
    { destruct (Z_le_gt_dec (-1074) (d + (ex + ey) - 53)) as [Hn|Hs'].
      - assert (2 ^ 51 * B <= Zpos mx * Zpos my).
        { apply Z.le_trans with (2 ^ (d - 1)); [|lia].
          rewrite EB, <- pow_split by lia. apply pow_le. lia. }
        nia.
      - assert (2 ^ 51 * (B * Q) <= 2 ^ 52 * U); [|nia].
        rewrite EB, EQ, HU, <- !pow_split by lia. apply pow_le. lia. }
    assert (Z.abs (Zpos m * B - Zpos mx * Zpos my) * Q <= B * Q)
      by (apply Z.mul_le_mono_nonneg_r; lia).
    nia.
Qed.

(** The quotient of two positive finite floats, away from underflow and
    overflow: positive and valid, within a relative error of [2^-50] of
    the exact quotient. *)
Lemma quot_V mx ex my ey :
  emin <= ex -> emin <= ey -> Zpos (digits2_pos mx) <= 53 ->
  -1021 < mag mx ex - mag my ey -> mag mx ex - mag my ey <= 1000 ->
  exists m e,
    quot (S754_finite false mx ex) (S754_finite false my ey)
    = S754_finite false m e
    /\ bounded prec emax m e = true
    /\ mag mx ex - mag my ey <= mag m e <= mag mx ex - mag my ey + 2
    /\ 2 ^ 50
       * Z.abs (V (S754_finite false m e) * V (S754_finite false my ey)
                - V (S754_finite false mx ex) * U)
       <= V (S754_finite false mx ex) * U.
Proof.
  intros Hex Hey Hdx53 Hlo Hhi. rewrite quot_finite.
  destruct (div_core_spec mx ex my ey) as [l ->]. cbn [xorb].
  unfold mag in Hlo, Hhi |- *.
  change (Zpos (digits2_pos mx)) with (Zdigits2 (Zpos mx)) in *.
  change (Zpos (digits2_pos my)) with (Zdigits2 (Zpos my)) in *.
  remember (Zdigits2 (Zpos mx)) as dx eqn:Edx.
  remember (Zdigits2 (Zpos my)) as dy eqn:Edy.
  assert (Hdxp : 0 < dx) by (subst dx; apply Zdigits2_pos; lia).
  assert (Hdyp : 0 < dy) by (subst dy; apply Zdigits2_pos; lia).
  remember (Z.min (fx (dx + ex - (dy + ey))) (ex - ey)) as e' eqn:Ee'.
  remember (ex - ey - e') as s eqn:Es.
  unfold fx, emin in *.
  assert (Hs : 0 <= s) by lia.
  pose proof (pow_pos s Hs) as Hsp.
  assert (Hm' : 0 < Zpos mx * 2 ^ s) by (apply Z.mul_pos_pos; lia).
  assert (Hdm : Zdigits2 (Zpos mx * 2 ^ s) = dx + s)
    by (rewrite Zdigits2_shiftl by lia; lia).
  destruct (Zdigits2_quot (Zpos mx * 2 ^ s) (Zpos my) Hm' ltac:(lia)
              ltac:(rewrite Hdm, <- Edy; lia)) as [Hq Hdq].
  rewrite Hdm, <- Edy in Hdq.
  remember (Zpos mx * 2 ^ s / Zpos my) as q0 eqn:Eq0.
  remember (Zdigits2 q0) as dq eqn:Edq.
  pose proof (Zdigits2_bounds q0 Hq) as [Hq1 _]. rewrite <- Edq in Hq1.
  destruct (bra_value false q0 e' l Hq)
    as (m & e & E & Hb & Hm & He & Hv); rewrite <- ?Edq; unfold fx, emin;
    try lia.
  rewrite <- Edq in *. unfold fx, emin in He.
  exists m, e. split; [exact E|]. split; [exact Hb|].
  unfold mag in Hm.
  change (Zpos (digits2_pos m)) with (Zdigits2 (Zpos m)) in *.
  split; [lia|].
  assert (Hk : 0 <= e - e') by lia.
  pose proof (pow_pos (e - e') Hk) as Hkp.
  assert (Ht : 0 <= e' + ey + 2148) by lia.
  pose proof (pow_pos (e' + ey + 2148) Ht) as Htp.
  assert (HU : U = 2 ^ 1074) by reflexivity.
  assert (HV1 : V (S754_finite false m e) * V (S754_finite false my ey)
                = Zpos m * 2 ^ (e - e') * Zpos my * 2 ^ (e' + ey + 2148)).
  { unfold V. cbn [cond_Zopp].
    replace (e + 1074) with ((e - e') + (e' + 1074)) by lia.
    replace (e' + ey + 2148) with ((e' + 1074) + (ey + 1074)) by lia.
    rewrite (pow_split (e - e')) by lia.
    rewrite (pow_split (e' + 1074)) by lia. ring. }
  assert (HV2 : V (S754_finite false mx ex) * U
                = Zpos mx * 2 ^ s * 2 ^ (e' + ey + 2148)).
  { unfold V. cbn [cond_Zopp]. rewrite HU.
    rewrite <- !Z.mul_assoc, <- !pow_split by lia.
    f_equal. f_equal. lia. }
  rewrite HV1, HV2.
  replace (Zpos m * 2 ^ (e - e') * Zpos my * 2 ^ (e' + ey + 2148)
           - Zpos mx * 2 ^ s * 2 ^ (e' + ey + 2148))
    with ((Zpos m * 2 ^ (e - e') * Zpos my - Zpos mx * 2 ^ s)
          * 2 ^ (e' + ey + 2148)) by ring.
  rewrite Z.abs_mul, (Z.abs_eq (2 ^ (e' + ey + 2148))) by lia.
  remember (2 ^ (e' + ey + 2148)) as Q eqn:EQ.
  remember (2 ^ (e - e')) as B eqn:EB.
  remember (Zpos mx * 2 ^ s) as N eqn:EN.
  pose proof (Z.mul_div_le N (Zpos my) ltac:(lia)) as Hd1.
  pose proof (Z.mul_succ_div_gt N (Zpos my) ltac:(lia)) as Hd2.
  rewrite <- Eq0 in Hd1, Hd2.
  assert (HB : 2 ^ 51 * B <= q0).
  { apply Z.le_trans with (2 ^ (dq - 1)); [|lia].
    rewrite EB, <- pow_split by lia. apply pow_le. lia. }
  assert (Hab : Z.abs (Zpos m * B * Zpos my - N) <= 2 * B * Zpos my) by nia.
  assert (2 ^ 50 * (2 * B * Zpos my) <= N) by nia.
  assert (Z.abs (Zpos m * B * Zpos my - N) * Q <= 2 * B * Zpos my * Q)
    by (apply Z.mul_le_mono_nonneg_r; lia).
  nia.
Qed.

(** The difference of two positive finite floats of moderate magnitude,
    the first the greater: positive and valid, within a quarter of a unit
    of the exact difference. *)
Lemma sub_V mx ex my ey :
  emin <= ex -> emin <= ey ->
  V (S754_finite false my ey) < V (S754_finite false mx ex) ->
  mag mx ex <= 50 ->
  exists m e,
    sub (S754_finite false mx ex) (S754_finite false my ey)
    = S754_finite false m e
    /\ bounded prec emax m e = true
    /\ mag m e <= mag mx ex + 1
    /\ 4 * Z.abs (V (S754_finite false m e)
                  - (V (S754_finite false mx ex) - V (S754_finite false my ey)))
       <= U.
Proof.
  intros Hex Hey Hlt Hmag. rewrite sub_finite_pos.
  set (ez := Z.min ex ey).
  pose proof (shl_align_le mx ex ez ltac:(lia)) as Ex.
  pose proof (shl_align_le my ey ez ltac:(lia)) as Ey.
  set (px := fst (shl_align mx ex ez)) in *.
  set (py := fst (shl_align my ey ez)) in *.
  unfold emin in *.
  assert (Hez : -1074 <= ez /\ ez <= ex /\ ez <= ey) by (subst ez; lia).
  pose proof (pow_pos (ez + 1074) ltac:(lia)) as HQ.
  pose proof (pow_pos (ex - ez) ltac:(lia)) as HPx.
  pose proof (pow_pos (ey - ez) ltac:(lia)) as HPy.
  assert (HVx : V (S754_finite false mx ex) = Zpos px * 2 ^ (ez + 1074)).
  { unfold V. cbn [cond_Zopp]. rewrite Ex.
    replace (ex + 1074) with ((ex - ez) + (ez + 1074)) by lia.
    rewrite (pow_split (ex - ez)) by lia. ring. }
  assert (HVy : V (S754_finite false my ey) = Zpos py * 2 ^ (ez + 1074)).
  { unfold V. cbn [cond_Zopp]. rewrite Ey.
    replace (ey + 1074) with ((ey - ez) + (ez + 1074)) by lia.
    rewrite (pow_split (ey - ez)) by lia. ring. }
  rewrite HVx, HVy in *.
  assert (Hp : Zpos py < Zpos px) by nia.
  destruct (Zpos px - Zpos py) as [|p|p] eqn:Ep; try lia.
  cbn [binary_normalize].
  assert (Hdp : Zdigits2 (Zpos p) <= Zdigits2 (Zpos px))
    by (apply Zdigits2_mono; lia).
  rewrite Ex, Zdigits2_shiftl in Hdp by lia.
  assert (Hmm : mag mx ex = Zdigits2 (Zpos mx) + ex) by reflexivity.
  unfold mag in Hmag.
  change (Zpos (digits2_pos mx)) with (Zdigits2 (Zpos mx)) in Hmag.
  pose proof (Zdigits2_pos (Zpos p) ltac:(lia)) as Hdpp.
  destruct (binary_round_value false p ez)
    as (m & e & E & Hb & Hm & He & Hv);
    try (unfold mag, emin;
         change (Zpos (digits2_pos p)) with (Zdigits2 (Zpos p)); lia).
  exists m, e. split; [exact E|]. split; [exact Hb|].
  assert (Hmp : mag p ez = Zdigits2 (Zpos p) + ez) by reflexivity.
  split; [rewrite Hmm; rewrite Hmp in Hm; lia|].
  unfold mag in Hm, He, Hv |- *. unfold fx, emin in He, Hv.
  change (Zpos (digits2_pos p)) with (Zdigits2 (Zpos p)) in *.
  change (Zpos (digits2_pos m)) with (Zdigits2 (Zpos m)) in *.
  remember (Zdigits2 (Zpos p) + ez) as M eqn:EM.
  remember (Z.min ez (Z.max (M - 53) (-1074))) as ez' eqn:Eez'.
  assert (Hez' : -1074 <= ez' <= ez) by lia.
  unfold V at 1. cbn [cond_Zopp].
  replace (e + 1074) with ((e - ez') + (ez' + 1074)) by lia.
  replace (ez + 1074) with ((ez - ez') + (ez' + 1074)) by lia.
  rewrite (pow_split (e - ez')) by lia.
  rewrite (pow_split (ez - ez')) by lia.
  assert (HU : 4 * (2 ^ (e - ez') * 2 ^ (ez' + 1074)) <= U).
  { rewrite <- pow_split by lia. change 4 with (2 ^ 2).
    rewrite <- pow_split by lia. unfold U. apply pow_le. lia. }
  pose proof (pow_pos (ez' + 1074) ltac:(lia)) as HQ'.
  remember (2 ^ (ez' + 1074)) as Q eqn:EQ.
  remember (2 ^ (e - ez')) as B eqn:EB.
  remember (2 ^ (ez - ez')) as A eqn:EA.
  replace (Zpos m * (B * Q) - (Zpos px * (A * Q) - Zpos py * (A * Q)))
    with ((Zpos m * B - (Zpos px - Zpos py) * A) * Q) by ring.
  rewrite Ep.
  rewrite Z.abs_mul, (Z.abs_eq Q) by lia.
  assert (Z.abs (Zpos m * B - Zpos p * A) * Q <= B * Q)
    by (apply Z.mul_le_mono_nonneg_r; lia).
  lia.
Qed.

End F64Round.

(** * From scaled integers to reals *)

Module ZtoR.

Ltac push_IZR H :=
  repeat first [rewrite opp_IZR in H | rewrite plus_IZR in H
               | rewrite minus_IZR in H | rewrite mult_IZR in H].

Lemma div_le_R (W a b : R) : (0 < W -> a * W <= b * W -> a <= b)%R.
Proof. intros HW H. nra. Qed.

Lemma scaled_le W x n :
  0 < W -> n * W <= x -> (IZR n <= IZR x / IZR W)%R.
Proof.
  intros HW H. apply IZR_lt in HW. apply IZR_le in H.
  rewrite mult_IZR in H.
  apply (div_le_R (IZR W)); [assumption|].
  unfold Rdiv. rewrite Rmult_assoc, Rinv_l by lra. lra.
Qed.

Lemma scaled_ge W x n :
  0 < W -> x <= n * W -> (IZR x / IZR W <= IZR n)%R.
Proof.
  intros HW H. apply IZR_lt in HW. apply IZR_le in H.
  rewrite mult_IZR in H.
  apply (div_le_R (IZR W)); [assumption|].
  unfold Rdiv. rewrite Rmult_assoc, Rinv_l by lra. lra.
Qed.

Lemma le_R W x y : 0 < W -> x <= y -> (IZR x / IZR W <= IZR y / IZR W)%R.
Proof.
  intros HW H. apply IZR_lt in HW. apply IZR_le in H.
  apply (div_le_R (IZR W)); [assumption|].
  unfold Rdiv. rewrite !Rmult_assoc, Rinv_l by lra. lra.
Qed.

Lemma lt_Z W x y : 0 < W -> (IZR x / IZR W < IZR y / IZR W)%R -> x < y.
Proof.
  intros HW H. destruct (Z_lt_le_dec x y) as [|Hle]; [assumption|].
  apply (le_R W) in Hle; [lra|assumption].
Qed.

Lemma add_R k W r x y :
  0 < W -> 0 < k -> k * Z.abs (r - (x + y)) <= W ->
  (- (1 / IZR k) <= IZR r / IZR W - (IZR x / IZR W + IZR y / IZR W)
   <= 1 / IZR k)%R.
Proof.
  intros HW Hk H.
  assert (H1 : - W <= k * (r - (x + y)) <= W) by lia.
  destruct H1 as [H1 H2]. apply IZR_le in H1, H2.
  rewrite opp_IZR in H1. rewrite mult_IZR, minus_IZR, plus_IZR in H1, H2.
  apply IZR_lt in HW, Hk.
  set (w := IZR W) in *. set (c := IZR k) in *.
  assert (E : (IZR r / w - (IZR x / w + IZR y / w)
               = (c * (IZR r - (IZR x + IZR y))) / (c * w))%R)
    by (field; lra).
  assert (E2 : (1 / c = w / (c * w))%R) by (field; lra).
  rewrite E, E2. unfold Rdiv.
  assert (Hi : (0 < / (c * w))%R) by (apply Rinv_0_lt_compat; nra).
  split; nra.
Qed.

Lemma sub_R k W r x y :
  0 < W -> 0 < k -> k * Z.abs (r - (x - y)) <= W ->
  (- (1 / IZR k) <= IZR r / IZR W - (IZR x / IZR W - IZR y / IZR W)
   <= 1 / IZR k)%R.
Proof.
  intros HW Hk H.
  pose proof (add_R k W r x (- y) HW Hk) as A.
  replace (x + - y) with (x - y) in A by lia. specialize (A H).
  rewrite opp_IZR in A. unfold Rdiv in *. lra.
Qed.

Lemma mul_R W r x y :
  0 < W -> 0 <= x -> 0 <= y ->
  2 ^ 51 * Z.abs (r * W - x * y) <= x * y + 2 ^ 52 * W ->
  (- (1 / IZR (2 ^ 50) * (IZR x / IZR W * (IZR y / IZR W)) + 2 / IZR W)
   <= IZR r / IZR W - IZR x / IZR W * (IZR y / IZR W)
   <= 1 / IZR (2 ^ 50) * (IZR x / IZR W * (IZR y / IZR W)) + 2 / IZR W)%R.
Proof.
  intros HW Hx Hy H.
  change (2 ^ 51) with 2251799813685248 in H.
  change (2 ^ 52) with 4503599627370496 in H.
  change (2 ^ 50) with 1125899906842624.
  assert (H1 : - (x * y + 4503599627370496 * W)
               <= 2251799813685248 * (r * W - x * y)
               <= x * y + 4503599627370496 * W) by lia.
  destruct H1 as [H1 H2]. apply IZR_le in H1, H2.
  push_IZR H1. push_IZR H2.
  apply IZR_lt in HW. apply IZR_le in Hx, Hy.
  set (w := IZR W) in *. set (a := IZR x) in *. set (b := IZR y) in *.
  set (c := IZR r) in *.
  assert (Hab : (0 <= a * b)%R) by nra.
  assert (Hi : (0 < / (w * w))%R) by (apply Rinv_0_lt_compat; nra).
  assert (E : (c / w - a / w * (b / w) = (c * w - a * b) * / (w * w))%R)
    by (field; lra).
  assert (E2 : (a / w * (b / w) = (a * b) * / (w * w))%R) by (field; lra).
  assert (E3 : (2 / w = (2 * w) * / (w * w))%R) by (field; lra).
  rewrite E, E2, E3.
  set (i := (/ (w * w))%R) in *.
  assert (Hd : (0 <= (a * b) * i)%R) by nra.
  split.
  - assert ((- (a * b + 4503599627370496 * w)) * i
            <= (2251799813685248 * (c * w - a * b)) * i)%R
      by (apply Rmult_le_compat_r; lra).
    lra.
  - assert ((2251799813685248 * (c * w - a * b)) * i
            <= (a * b + 4503599627370496 * w) * i)%R
      by (apply Rmult_le_compat_r; lra).
    lra.
Qed.

Lemma quot_R W q x y :
  0 < W -> 0 <= x ->
  2 ^ 50 * Z.abs (q * y - x * W) <= x * W ->
  (- (1 / IZR (2 ^ 50) * (IZR x / IZR W))
   <= IZR q / IZR W * (IZR y / IZR W) - IZR x / IZR W
   <= 1 / IZR (2 ^ 50) * (IZR x / IZR W))%R.
Proof.
  intros HW Hx H.
  change (2 ^ 50) with 1125899906842624 in *.
  assert (H1 : - (x * W) <= 1125899906842624 * (q * y - x * W) <= x * W)
    by lia.
  destruct H1 as [H1 H2]. apply IZR_le in H1, H2.
  push_IZR H1. push_IZR H2.
  apply IZR_lt in HW. apply IZR_le in Hx.
  set (w := IZR W) in *. set (a := IZR x) in *. set (b := IZR y) in *.
  set (c := IZR q) in *.
  assert (Hi : (0 < / (w * w))%R) by (apply Rinv_0_lt_compat; nra).
  assert (E : (c / w * (b / w) - a / w = (c * b - a * w) * / (w * w))%R)
    by (field; lra).
  assert (E2 : (a / w = (a * w) * / (w * w))%R) by (field; lra).
  rewrite E, E2.
  set (i := (/ (w * w))%R) in *.
  split.
  - assert ((- (a * w)) * i <= (1125899906842624 * (c * b - a * w)) * i)%R
      by (apply Rmult_le_compat_r; lra).
    lra.
  - assert ((1125899906842624 * (c * b - a * w)) * i <= (a * w) * i)%R
      by (apply Rmult_le_compat_r; lra).
    lra.
Qed.

End ZtoR.

(** * Step 6 over the reals *)

Module Step6Real.

Local Open Scope R_scope.

(** The target reduction: [diff * (total / baseline) * applicability]
    with three roundings. *)
Lemma tr_real u eta T app sc t1 tr :
  0 <= u <= 1 / 10 ^ 15 -> 0 <= eta <= 1 / 10 ^ 15 ->
  0 <= app <= 1 -> 1 <= T <= 5 * 10 ^ 12 ->
  - (u * T) <= sc * 373 - T <= u * T ->
  - (u * (48 * sc) + eta) <= t1 - 48 * sc <= u * (48 * sc) + eta ->
  - (u * (t1 * app) + eta) <= tr - t1 * app <= u * (t1 * app) + eta ->
  - 1 <= 373 * tr - 48 * app * T <= 1.
Proof.
  intros Hu He Ha HT Hsc Ht1 Htr.
  assert (HuT : 0 <= u * T <= 1 / 200) by nra.
  assert (Hsc0 : 0 <= sc) by nra.
  assert (Husc : 0 <= u * (373 * sc) <= u * T + u * T / 10 ^ 15) by nra.
  assert (H2 : - (1 / 2) <= 373 * t1 - 48 * T <= 1 / 2) by nra.
  assert (Ht10 : 0 <= t1) by lra.
  assert (Hut1 : 0 <= u * (373 * t1) <= 1 / 4) by nra.
  assert (Hta : 0 <= t1 * app <= t1) by nra.
  assert (Huta : 0 <= u * (373 * (t1 * app)) <= 1 / 4) by nra.
  assert (H3 : - (1 / 2) <= app * (373 * t1 - 48 * T) <= 1 / 2) by nra.
  nra.
Qed.

(** The bound of the target reduction by the affected sum. *)
Lemma tr_le_real T app tr a s g k i y :
  0 <= app <= 1 -> 0 <= T ->
  - 1 <= 373 * tr - 48 * app * T <= 1 ->
  85 <= s -> 0 <= g -> 0 <= k -> 0 <= i -> 0 <= y -> i + y <= 90 ->
  - 1 <= a - (s + g + k) <= 1 ->
  - 2 <= T - (s + g + k + i + y) <= 2 ->
  84 <= a /\ tr <= 29 / 100 * a.
Proof.
  intros Ha HT Htr Hs Hg Hk Hi Hy Hiy Ha' HT'.
  split; [lra|].
  assert (app * T <= T) by nra.
  lra.
Qed.

(** One reduction [tr * (x / a)]: at most three tenths of [x]. *)
Lemma p_real u eta a tr x q p :
  0 <= u <= 1 / 10 ^ 15 -> 0 <= eta ->
  84 <= a -> 0 <= tr <= 29 / 100 * a -> 0 <= x -> 0 <= q ->
  - (u * x) <= q * a - x <= u * x ->
  p - tr * q <= u * (tr * q) + eta ->
  p <= 3 / 10 * x + eta.
Proof.
  intros Hu He Ha Htr Hx Hq Hqa Hp.
  assert (H1 : tr * q <= 29 / 100 * (q * a)) by nra.
  assert (H2 : 0 <= u * x <= x / 10 ^ 15) by nra.
  assert (H3 : 0 <= tr * q) by nra.
  assert (H4 : u * (tr * q) <= tr * q / 10 ^ 15) by nra.
  lra.
Qed.

(** The three reductions add up to the target reduction, within three
    tenths. *)
Lemma sum_real u eta a tr s g k qs qg qk ps pg pk :
  0 <= u <= 1 / 10 ^ 15 -> 0 <= eta <= 1 / 10 ^ 15 ->
  84 <= a <= 4 * 10 ^ 12 -> 0 <= tr <= 29 / 100 * a ->
  0 <= s -> 0 <= g -> 0 <= k -> 0 <= qs -> 0 <= qg -> 0 <= qk ->
  - 1 <= a - (s + g + k) <= 1 ->
  - (u * s) <= qs * a - s <= u * s ->
  - (u * g) <= qg * a - g <= u * g ->
  - (u * k) <= qk * a - k <= u * k ->
  - (u * (tr * qs) + eta) <= ps - tr * qs <= u * (tr * qs) + eta ->
  - (u * (tr * qg) + eta) <= pg - tr * qg <= u * (tr * qg) + eta ->
  - (u * (tr * qk) + eta) <= pk - tr * qk <= u * (tr * qk) + eta ->
  - (3 / 10) <= ps + pg + pk - tr <= 3 / 10.
Proof.
  intros Hu He Ha Htr Hs Hg Hk Hqs Hqg Hqk Ha' Qs Qg Qk Ps Pg Pk.
  set (Q := qs + qg + qk) in *.
  assert (HuA : 0 <= u * (s + g + k) <= 1 / 200) by nra.
  assert (Hw : - (201 / 200) <= a * (Q - 1) <= 201 / 200).
  { replace (a * (Q - 1))
      with ((qs * a - s) + (qg * a - g) + (qk * a - k) - (a - (s + g + k)))
      by (unfold Q; ring).
    lra. }
  assert (HQ0 : 0 <= Q) by (unfold Q; lra).
  assert (Htw : - (292 / 1000) <= tr * (Q - 1) <= 292 / 1000).
  { destruct (Rle_dec 0 (Q - 1)) as [Hpos|Hneg].
    - assert (0 <= tr * (Q - 1)) by nra.
      assert (tr * (Q - 1) <= 29 / 100 * (a * (Q - 1))) by nra.
      lra.
    - assert (tr * (Q - 1) <= 0) by nra.
      assert (29 / 100 * (a * (Q - 1)) <= tr * (Q - 1)) by nra.
      lra. }
  assert (HtQ : 0 <= tr * Q <= 3 / 10 * a + 1) by nra.
  assert (HutQ : 0 <= u * (tr * Q) <= 2 / 1000) by nra.
  assert (E : ps + pg + pk - tr
              = (ps - tr * qs) + (pg - tr * qg) + (pk - tr * qk)
                + tr * (Q - 1)) by (unfold Q; ring).
  assert (E2 : u * (tr * qs) + u * (tr * qg) + u * (tr * qk) = u * (tr * Q))
    by (unfold Q; ring).
  lra.
Qed.

(** The total after step 6, against the exact reduced total. *)
Lemma total_real app T tr s g k i y ps pg pk s' g' k' tot :
  0 <= app <= 1 ->
  - 2 <= T - (s + g + k + i + y) <= 2 ->
  - 1 <= 373 * tr - 48 * app * T <= 1 ->
  - (3 / 10) <= ps + pg + pk - tr <= 3 / 10 ->
  - (1 / 4) <= s' - (s - ps) <= 1 / 4 ->
  - (1 / 4) <= g' - (g - pg) <= 1 / 4 ->
  - (1 / 4) <= k' - (k - pk) <= 1 / 4 ->
  - 2 <= tot - (s' + g' + k' + i + y) <= 2 ->
  - 1300 <= 373 * tot - (373 - 48 * app) * (s + g + k + i + y) <= 1300.
Proof.
  intros Ha HT Htr Hp Hs Hg Hk Ht.
  assert (H : - 2 <= app * (T - (s + g + k + i + y)) <= 2) by nra.
  lra.
Qed.

(** Two totals whose exact sums are 63 apart. *)
Lemma compare_real app st sc tt tc :
  0 <= app <= 1 -> st + 63 <= sc ->
  - 1300 <= 373 * tt - (373 - 48 * app) * st <= 1300 ->
  - 1300 <= 373 * tc - (373 - 48 * app) * sc <= 1300 ->
  tt < tc.
Proof.
  intros Ha Hs Ht Hc.
  assert (0 <= (373 - 48 * app - 325) * (sc - st - 63)) by nra.
  nra.
Qed.

End Step6Real.

(** * Step 6 on floats *)

Import F64Facts F64Values F64Round.

Lemma U_pos : 0 < F64.U.
Proof. unfold F64.U. apply Z.pow_pos_nonneg; lia. Qed.

Lemma IU_pos : (0 < IZR F64.U)%R.
Proof. apply IZR_lt, U_pos. Qed.

Lemma u_rel_bounds : (0 <= u_rel <= 1 / 10 ^ 15)%R.
Proof. unfold u_rel. change (2 ^ 50) with 1125899906842624. lra. Qed.

Lemma u_abs_bounds : (0 < u_abs <= 1 / 10 ^ 15)%R.
Proof.
  unfold u_abs. pose proof IU_pos as HU.
  assert (H : (2000000000000000 <= IZR F64.U)%R).
  { apply IZR_le. unfold F64.U.
    apply Z.le_trans with (2 ^ 51); [vm_compute; discriminate|].
    apply Z.pow_le_mono_r; lia. }
  split.
  - unfold Rdiv. apply Rmult_lt_0_compat; [lra|].
    apply Rinv_0_lt_compat. exact HU.
  - apply (ZtoR.div_le_R (IZR F64.U)); [exact HU|].
    unfold Rdiv. rewrite Rmult_assoc, Rinv_l by lra. lra.
Qed.

(** ** Values of the classes *)

Lemma V_GP lo hi x :
  F64.GP lo hi x ->
  2 ^ (lo - 1 + 1074) <= F64.V x < 2 ^ (hi + 1074).
Proof.
  destruct x as [[]|[]| |[] m e]; try contradiction.
  intros [Hm He]. pose proof (F64Values.V_finite_bounds m e He) as [H1 H2].
  split.
  - eapply Z.le_trans; [|exact H1]. apply pow_le. lia.
  - eapply Z.lt_le_trans; [exact H2|]. apply pow_le. lia.
Qed.

Lemma V_BN h x : F64.BN h x -> 0 <= F64.V x.
Proof.
  destruct x as [[]|[]| |[] m e]; try contradiction; intros _;
    cbn [F64.V cond_Zopp]; try lia.
Qed.

Lemma value_BN h x : F64.BN h x -> (0 <= value x)%R.
Proof.
  intros H. apply V_BN in H. unfold value.
  apply (ZtoR.scaled_le F64.U (F64.V x) 0 U_pos). lia.
Qed.

Lemma value_GP lo hi x :
  F64.GP lo hi x -> -1074 <= lo - 1 -> 0 <= hi ->
  (0 < value x <= IZR (2 ^ hi))%R.
Proof.
  intros H Hlo Hhi. apply V_GP in H as [H1 H2].
  pose proof (pow_pos (lo - 1 + 1074) ltac:(lia)) as Hp.
  pose proof IU_pos as HU.
  split.
  - unfold value, Rdiv. apply Rmult_lt_0_compat.
    + apply IZR_lt. lia.
    + apply Rinv_0_lt_compat. exact HU.
  - unfold value. apply (ZtoR.scaled_ge F64.U _ _ U_pos).
    unfold F64.U. rewrite <- F64Values.pow_split by lia.
    replace (hi + 1074) with (hi + 1074) in H2 by lia. lia.
Qed.

Lemma value_lit x n : F64.V x = n * F64.U -> value x = IZR n.
Proof.
  intros H. unfold value. rewrite H, mult_IZR. field.
  pose proof IU_pos. lra.
Qed.

Lemma value_zero s : value (S754_zero s) = 0%R.
Proof. unfold value. cbn [F64.V]. unfold Rdiv. apply Rmult_0_l. Qed.

(** ** Products with a zero, differences with a zero, [max(0.0, x)] *)

Lemma mul_BN hx hy x y :
  F64.BN hx x -> F64.BN hy y -> hx + hy <= 1022 ->
  F64.BN (Z.max (hx + hy) F64.emin + 1) (F64.mul x y)
  /\ 2 ^ 51 * Z.abs (F64.V (F64.mul x y) * F64.U - F64.V x * F64.V y)
     <= F64.V x * F64.V y + 2 ^ 52 * F64.U.
Proof.
  pose proof U_pos as HU.
  destruct x as [sx|[]| |[] mx ex]; destruct y as [sy|[]| |[] my ey];
    try contradiction.
  - intros _ _ _.
    change (F64.mul (S754_zero sx) (S754_zero sy))
      with (S754_zero (xorb sx sy)).
    split; [exact I|]. cbn [F64.V]. lia.
  - intros _ _ _.
    change (F64.mul (S754_zero sx) (S754_finite false my ey))
      with (S754_zero (xorb sx false)).
    split; [exact I|]. cbn [F64.V]. lia.
  - intros _ _ _.
    change (F64.mul (S754_finite false mx ex) (S754_zero sy))
      with (S754_zero (xorb false sy)).
    split; [exact I|]. cbn [F64.V]. rewrite Z.mul_0_r. lia.
  - intros [Hbx Hmx] [Hby Hmy] Hh.
    destruct (mul_V mx ex my ey Hbx Hby ltac:(lia)) as [Hr Hv].
    split; [|exact Hv].
    destruct Hr as [-> | (m & e & -> & Hb & Hm)]; [exact I|].
    split; [exact Hb|]. unfold F64.emin in *. lia.
Qed.

Lemma pymax_f0_finite m e :
  pymax f0 (S754_finite false m e) = S754_finite false m e.
Proof. reflexivity. Qed.

Lemma sub_zero_r m e s :
  F64.sub (S754_finite false m e) (S754_zero s) = S754_finite false m e.
Proof. reflexivity. Qed.

(** ** One reduced category *)

Lemma reduced_V tr a x :
  F64.BN 60 tr -> F64.GP 1 28 a -> F64.GP (-100) 24 x -> F64.D53 x ->
  (84 <= value a)%R -> (value tr <= 29 / 100 * value a)%R ->
  exists q p : R,
    (0 <= q)%R
    /\ (- (u_rel * value x) <= q * value a - value x <= u_rel * value x)%R
    /\ (- (u_rel * (value tr * q) + u_abs) <= p - value tr * q
        <= u_rel * (value tr * q) + u_abs)%R
    /\ F64.GP (-1073) 25 (reduced tr a x)
    /\ (- (1 / 4) <= value (reduced tr a x) - (value x - p) <= 1 / 4)%R.
Proof.
  intros Htr Ha Hx Hd Ha84 Htra.
  pose proof U_pos as HU. pose proof IU_pos as HIU.
  pose proof (value_BN _ _ Htr) as Htr0.
  pose proof (V_BN _ _ Htr) as Vtr0.
  pose proof (V_GP _ _ _ Hx) as [Vx0 _].
  assert (Vxn : 0 <= F64.V x)
    by (pose proof (pow_pos (-100 - 1 + 1074) ltac:(lia)); lia).
  pose proof (value_GP _ _ _ Hx ltac:(lia) ltac:(lia)) as [Hx0 _].
  destruct a as [[]|[]| |[] ma ea]; try contradiction.
  destruct x as [[]|[]| |[] mx ex]; try contradiction.
  destruct Ha as [Hma Hea]. destruct Hx as [Hmx Hex]. cbn [F64.D53] in Hd.
  destruct (quot_V mx ex ma ea Hex Hea Hd ltac:(lia) ltac:(lia))
    as (mq & eq & Eq & Hbq & Hmq & Hvq).
  unfold reduced. rewrite Eq.
  assert (Hq : F64.BN 25 (S754_finite false mq eq))
    by (split; [exact Hbq|lia]).
  pose proof (value_BN _ _ Hq) as Hq0.
  pose proof (V_BN _ _ Hq) as Vq0.
  destruct (mul_BN 60 25 tr _ Htr Hq ltac:(lia)) as [Hp Hvp].
  remember (F64.mul tr (S754_finite false mq eq)) as p eqn:Ep.
  pose proof (ZtoR.quot_R F64.U _ _ _ U_pos Vxn Hvq) as Rq.
  pose proof (ZtoR.mul_R F64.U _ _ _ U_pos Vtr0 Vq0 Hvp) as Rp.
  fold (value (S754_finite false mq eq)) in Rq, Rp.
  fold (value (S754_finite false ma ea)) in Rq.
  fold (value (S754_finite false mx ex)) in Rq.
  fold (value tr) in Rp. fold (value p) in Rp.
  fold u_rel in Rq, Rp. fold u_abs in Rp.
  exists (value (S754_finite false mq eq)), (value p).
  split; [exact Hq0|]. split; [exact Rq|]. split; [exact Rp|].
  destruct p as [sp|[]| |[] mp ep]; try contradiction.
  - rewrite sub_zero_r, pymax_f0_finite, value_zero.
    split; [split; unfold F64.emin in *; lia|]. lra.
  - destruct Hp as [Hbp Hmp].
    pose proof (bounded_canon _ _ Hbp) as [Hep _].
    assert (Hlt : F64.V (S754_finite false mp ep)
                  < F64.V (S754_finite false mx ex)).
    { apply (ZtoR.lt_Z F64.U _ _ U_pos).
      fold (value (S754_finite false mp ep)).
      fold (value (S754_finite false mx ex)).
      pose proof u_rel_bounds as Hu. pose proof u_abs_bounds as Hua.
      pose proof (Step6Real.p_real u_rel u_abs _ _ _ _ _ Hu
                    (Rlt_le _ _ (proj1 Hua)) Ha84 (conj Htr0 Htra)
                    (Rlt_le _ _ Hx0) Hq0 Rq (proj2 Rp)) as Hpr.
      assert (H3 : (3 / IZR F64.U <= value (S754_finite false mx ex))%R).
      { unfold value, Rdiv. apply Rmult_le_compat_r.
        - left. apply Rinv_0_lt_compat. exact HIU.
        - apply IZR_le.
          apply Z.le_trans with (2 ^ 2); [vm_compute; discriminate|].
          eapply Z.le_trans; [|exact Vx0]. apply pow_le. lia. }
      unfold u_abs in *. unfold Rdiv in *. lra. }
    destruct (sub_V mx ex mp ep Hex Hep Hlt ltac:(lia))
      as (m & e & E & Hb & Hm & Hv).
    rewrite E, pymax_f0_finite.
    pose proof (bounded_canon _ _ Hb) as [He _].
    pose proof (mag_pos m e) as Hme.
    split; [split; unfold F64.emin in *; lia|].
    pose proof (ZtoR.sub_R 4 F64.U _ _ _ U_pos ltac:(lia) Hv) as Rs.
    exact Rs.
Qed.

(** ** Sums and literals *)

Lemma err_R n d r t :
  0 < n -> n * Z.abs (r - t) <= d * F64.U ->
  (- (IZR d / IZR n) <= IZR r / IZR F64.U - IZR t / IZR F64.U
   <= IZR d / IZR n)%R.
Proof.
  intros Hn H. pose proof IU_pos as HU.
  assert (H1 : - (d * F64.U) <= n * (r - t) <= d * F64.U) by lia.
  destruct H1 as [H1 H2]. apply IZR_le in H1, H2.
  ZtoR.push_IZR H1. ZtoR.push_IZR H2. apply IZR_lt in Hn.
  set (w := IZR F64.U) in *. set (c := IZR n) in *.
  assert (Hi : (0 < / (c * w))%R) by (apply Rinv_0_lt_compat; nra).
  assert (E : (IZR r / w - IZR t / w
               = (c * (IZR r - IZR t)) * / (c * w))%R) by (field; lra).
  assert (E2 : (IZR d / c = (IZR d * w) * / (c * w))%R) by (field; lra).
  rewrite E, E2.
  split.
  - assert ((- (IZR d * w)) * / (c * w)
            <= (c * (IZR r - IZR t)) * / (c * w))%R
      by (apply Rmult_le_compat_r; lra).
    lra.
  - apply Rmult_le_compat_r; lra.
Qed.

Lemma value_add2 a b :
  (IZR (a + b) / IZR F64.U = IZR a / IZR F64.U + IZR b / IZR F64.U)%R.
Proof. rewrite plus_IZR. pose proof IU_pos. field. lra. Qed.

Lemma BN_weaken h h' x : F64.BN h x -> h <= h' -> F64.BN h' x.
Proof.
  destruct x as [[]|[]| |[] m e]; try contradiction; try (intros; exact I).
  intros [Hb Hm] Hh. split; [exact Hb|lia].
Qed.

Lemma GP_lower lo hi lo' x :
  F64.GP lo hi x -> 2 ^ (lo' - 1 + 1074) <= F64.V x -> F64.GP lo' hi x.
Proof.
  destruct x as [[]|[]| |[] m e]; try contradiction.
  intros [Hm He] HV. split; [|exact He].
  pose proof (V_finite_bounds m e He) as [_ H2].
  assert (Hlt : 2 ^ (lo' - 1 + 1074) < 2 ^ (F64.mag m e + 1074)) by lia.
  apply Z.pow_lt_mono_r_iff in Hlt; [lia|lia|].
  pose proof (mag_pos m e). unfold F64.emin in He. lia.
Qed.

Lemma valid_D53 x : F64.valid x = true -> F64.D53 x.
Proof.
  destruct x as [s|s| |s m e]; try (intros; exact I).
  intros H. apply bounded_canon in H as [_ H]. unfold F64.D53.
  change (Zpos (digits2_pos m)) with (Zdigits2 (Zpos m)). lia.
Qed.

Lemma mul_D53 x y : F64.D53 (F64.mul x y).
Proof.
  destruct (F64.mul x y) as [s|s| |s m e] eqn:E; try exact I.
  apply mul_exp_digits in E. tauto.
Qed.

(** The sum of the three affected categories. *)
Lemma fsum3_V s g k :
  F64.GP 1 24 s -> F64.GP 1 24 g -> F64.GP (-100) 24 k ->
  F64.GP 1 28 (fsum [s; g; k])
  /\ Z.abs (F64.V (fsum [s; g; k]) - (F64.V s + F64.V g + F64.V k))
     <= F64.U.
Proof.
  intros Hs Hg Hk. unfold fsum. cbn [fold_left].
  change (S754_zero false) with f0.
  rewrite (add_f0 s (GP_PF _ _ _ Hs)).
  destruct (add_GP _ _ _ _ s g Hs Hg ltac:(unfold F64.emin; lia) ltac:(lia))
    as (H2 & _ & V2).
  destruct (add_GP _ _ _ _ _ k H2 Hk ltac:(unfold F64.emin; lia) ltac:(lia))
    as (H3 & _ & V3).
  split; [gp_weaken H3|]. lia.
Qed.

Lemma V_pos_GP lo hi x : F64.GP lo hi x -> 0 < F64.V x.
Proof.
  destruct x as [[]|[]| |[] m e]; try contradiction.
  intros [_ He]. cbn [F64.V cond_Zopp]. unfold F64.emin in He.
  apply Z.mul_pos_pos; [lia|]. apply pow_pos. lia.
Qed.

(** ** The target reduction *)

Lemma tr_V T app :
  F64.GP 7 49 T -> F64.D53 T -> F64.BN 1 app -> F64.V app <= F64.U ->
  (value T <= 5 * 10 ^ 12)%R ->
  F64.BN 60
    (F64.mul (F64.mul (F64.of_Z 48) (F64.quot T (F64.of_Z 373))) app)
  /\ (- 1 <= 373 * value (F64.mul (F64.mul (F64.of_Z 48)
                                     (F64.quot T (F64.of_Z 373))) app)
             - 48 * value app * value T <= 1)%R.
Proof.
  intros HT DT Happ Vapp RT5.
  pose proof U_pos as HU. pose proof IU_pos as HIU.
  pose proof u_rel_bounds as Hu. pose proof u_abs_bounds as Hua.
  pose proof (V_pos_GP _ _ _ HT) as VT0.
  pose proof (V_GP _ _ _ HT) as [VT64 _].
  assert (E64 : 2 ^ (7 - 1 + 1074) = 64 * F64.U) by (vm_compute; reflexivity).
  rewrite E64 in VT64.
  assert (RT1 : (1 <= value T)%R)
    by (apply (ZtoR.scaled_le F64.U _ 1 HU); lia).
  assert (Rapp : (0 <= value app <= 1)%R).
  { split; [exact (value_BN _ _ Happ)|].
    apply (ZtoR.scaled_ge F64.U _ 1 HU). lia. }
  assert (V373 : value (F64.of_Z 373) = 373%R)
    by (apply value_lit; vm_compute; reflexivity).
  assert (V48 : value (F64.of_Z 48) = 48%R)
    by (apply value_lit; vm_compute; reflexivity).
  assert (B48 : F64.BN 6 (F64.of_Z 48))
    by (vm_compute; split; [reflexivity|intros; discriminate]).
  remember (F64.of_Z 48) as c48 eqn:E48.
  destruct (F64.of_Z 373) as [[]|[]| |[] m3 e3] eqn:E373;
    try (vm_compute in E373; discriminate).
  assert (M3 : F64.mag m3 e3 = 9 /\ F64.emin <= e3).
  { vm_compute in E373. injection E373 as <- <-.
    split; [reflexivity|vm_compute; discriminate]. }
  destruct M3 as [M3 He3].
  destruct T as [[]|[]| |[] mT eT]; try contradiction.
  destruct HT as [HmT HeT]. cbn [F64.D53] in DT.
  destruct (quot_V mT eT m3 e3 HeT He3 DT ltac:(lia) ltac:(lia))
    as (ms & es & Es & Hbs & Hms & Hvs).
  rewrite Es.
  assert (Hsc : F64.BN 42 (S754_finite false ms es))
    by (split; [exact Hbs|lia]).
  pose proof (ZtoR.quot_R F64.U _ _ _ U_pos (Z.lt_le_incl _ _ VT0) Hvs) as Rsc.
  fold (value (S754_finite false ms es)) in Rsc.
  fold (value (S754_finite false m3 e3)) in Rsc.
  fold (value (S754_finite false mT eT)) in Rsc.
  fold u_rel in Rsc. rewrite V373 in Rsc.
  destruct (mul_BN 6 42 c48 _ B48 Hsc ltac:(lia)) as [Ht1 Hvt1].
  pose proof (ZtoR.mul_R F64.U _ _ _ U_pos (V_BN _ _ B48) (V_BN _ _ Hsc) Hvt1)
    as Rt1.
  remember (F64.mul c48 (S754_finite false ms es)) as t1 eqn:Et1.
  fold (value t1) in Rt1. fold (value c48) in Rt1.
  fold (value (S754_finite false ms es)) in Rt1.
  fold u_rel in Rt1. fold u_abs in Rt1. rewrite V48 in Rt1.
  destruct (mul_BN _ 1 t1 app Ht1 Happ ltac:(unfold F64.emin; lia))
    as [Htr Hvtr].
  pose proof (ZtoR.mul_R F64.U _ _ _ U_pos (V_BN _ _ Ht1) (V_BN _ _ Happ) Hvtr)
    as Rtr.
  remember (F64.mul t1 app) as tr eqn:Etr.
  fold (value tr) in Rtr. fold (value t1) in Rtr. fold (value app) in Rtr.
  fold u_rel in Rtr. fold u_abs in Rtr.
  split; [eapply BN_weaken; [exact Htr|unfold F64.emin; lia]|].
  exact (Step6Real.tr_real u_rel u_abs _ _ _ _ _ Hu
           (conj (Rlt_le _ _ (proj1 Hua)) (proj2 Hua)) Rapp (conj RT1 RT5)
           Rsc Rt1 Rtr).
Qed.

(** ** The total after the reduction *)

Lemma gtb_f0_GP lo hi x : F64.GP lo hi x -> F64.gtb x f0 = true.
Proof. destruct x as [[]|[]| |[] m e]; try contradiction. reflexivity. Qed.

Lemma step6_total s g k i y app :
  F64.GP 1 24 s -> F64.D53 s -> F64.GP 1 24 g -> F64.D53 g ->
  F64.GP (-100) 24 k -> F64.D53 k -> F64.GP 1 24 i -> F64.GP 1 24 y ->
  85 * F64.U <= F64.V s -> F64.V i + F64.V y <= 90 * F64.U ->
  F64.BN 1 app -> F64.V app <= F64.U ->
  let a := fsum [s; g; k] in
  let T := fsum [s; g; k; i; y] in
  let tr := F64.mul (F64.mul (F64.of_Z 48) (F64.quot T (F64.of_Z 373))) app in
  let tot := fsum [reduced tr a s; reduced tr a g; reduced tr a k; i; y] in
  reduction_applies T a = true
  /\ F64.valid tot = true /\ F64.PF tot
  /\ (- 1300 <= 373 * value tot
                - (373 - 48 * value app)
                  * (value s + value g + value k + value i + value y)
      <= 1300)%R.
Proof.
  intros Hs Ds Hg Dg Hk Dk Hi Hy Vs85 Viy Happ Vapp. cbv zeta.
  pose proof U_pos as HU. pose proof IU_pos as HIU.
  pose proof u_rel_bounds as Hu. pose proof u_abs_bounds as Hua.
  destruct (fsum3_V s g k Hs Hg Hk) as (Ha & Va).
  destruct (fsum5_V s g k i y ltac:(gp_weaken Hs) ltac:(gp_weaken Hg)
              ltac:(gp_weaken Hk) ltac:(gp_weaken Hi) ltac:(gp_weaken Hy))
    as (HvT & HT & VT).
  remember (fsum [s; g; k]) as a eqn:Ea.
  remember (fsum [s; g; k; i; y]) as T eqn:ET.
  (* the values of the five categories *)
  pose proof (value_GP _ _ _ Hs ltac:(lia) ltac:(lia)) as Rs.
  pose proof (value_GP _ _ _ Hg ltac:(lia) ltac:(lia)) as Rg.
  pose proof (value_GP _ _ _ Hk ltac:(lia) ltac:(lia)) as Rk.
  pose proof (value_GP _ _ _ Hi ltac:(lia) ltac:(lia)) as Ri.
  pose proof (value_GP _ _ _ Hy ltac:(lia) ltac:(lia)) as Ry.
  change (2 ^ 24) with 16777216 in Rs, Rg, Rk, Ri, Ry.
  assert (Rs85 : (85 <= value s)%R)
    by (apply (ZtoR.scaled_le F64.U _ 85 HU); exact Vs85).
  assert (Riy : (value i + value y <= 90)%R).
  { unfold value. rewrite <- value_add2.
    apply (ZtoR.scaled_ge F64.U _ 90 HU). exact Viy. }
  assert (Ra : (- 1 <= value a - (value s + value g + value k) <= 1)%R).
  { pose proof (err_R 1 1 (F64.V a) (F64.V s + F64.V g + F64.V k)
                  ltac:(lia) ltac:(lia)) as H.
    rewrite !value_add2 in H. unfold value. lra. }
  assert (RT : (- 2 <= value T
                       - (value s + value g + value k + value i + value y)
                <= 2)%R).
  { pose proof (err_R 1 2 (F64.V T)
                  (F64.V s + F64.V g + F64.V k + F64.V i + F64.V y)
                  ltac:(lia) ltac:(lia)) as H.
    rewrite !value_add2 in H. unfold value. lra. }
  (* the total before the reduction as a float *)
  pose proof (V_pos_GP _ _ _ Hg) as Vg0.
  pose proof (V_pos_GP _ _ _ Hk) as Vk0.
  pose proof (V_pos_GP _ _ _ Hi) as Vi0.
  pose proof (V_pos_GP _ _ _ Hy) as Vy0.
  assert (E64 : 2 ^ (7 - 1 + 1074) = 64 * F64.U) by (vm_compute; reflexivity).
  pose proof (GP_lower _ _ 7 _ HT ltac:(rewrite E64; lia)) as HT7.
  destruct (tr_V T app HT7 (valid_D53 _ HvT) Happ Vapp ltac:(lra))
    as (Htr & Rtr).
  remember (F64.mul (F64.mul (F64.of_Z 48) (F64.quot T (F64.of_Z 373))) app)
    as tr eqn:Etr.
  assert (Rapp : (0 <= value app <= 1)%R).
  { split; [exact (value_BN _ _ Happ)|].
    apply (ZtoR.scaled_ge F64.U _ 1 HU). lia. }
  pose proof (value_GP _ _ _ HT7 ltac:(lia) ltac:(lia)) as [RT0 _].
  destruct (Step6Real.tr_le_real _ _ _ _ _ _ _ _ _ Rapp (Rlt_le _ _ RT0) Rtr
              Rs85 (Rlt_le _ _ (proj1 Rg)) (Rlt_le _ _ (proj1 Rk))
              (Rlt_le _ _ (proj1 Ri)) (Rlt_le _ _ (proj1 Ry)) Riy Ra RT)
    as (Ra84 & Rtra).
  (* the three reduced categories *)
  destruct (reduced_V tr a s Htr Ha ltac:(gp_weaken Hs) Ds Ra84 Rtra)
    as (qs & ps & Hqs & Qs & Ps & Hs' & Rs').
  destruct (reduced_V tr a g Htr Ha ltac:(gp_weaken Hg) Dg Ra84 Rtra)
    as (qg & pg & Hqg & Qg & Pg & Hg' & Rg').
  destruct (reduced_V tr a k Htr Ha Hk Dk Ra84 Rtra)
    as (qk & pk & Hqk & Qk & Pk & Hk' & Rk').
  pose proof (Step6Real.sum_real u_rel u_abs (value a) (value tr)
                (value s) (value g) (value k) qs qg qk ps pg pk Hu
                (conj (Rlt_le _ _ (proj1 Hua)) (proj2 Hua))
                ltac:(lra) (conj (value_BN _ _ Htr) Rtra)
                ltac:(lra) ltac:(lra) ltac:(lra) Hqs Hqg Hqk Ra
                Qs Qg Qk Ps Pg Pk) as Rsum.
  destruct (fsum5_V _ _ _ i y ltac:(gp_weaken Hs') ltac:(gp_weaken Hg')
              ltac:(gp_weaken Hk') ltac:(gp_weaken Hi) ltac:(gp_weaken Hy))
    as (Hvt & Ht & Vt).
  remember (fsum [reduced tr a s; reduced tr a g; reduced tr a k; i; y])
    as tot eqn:Etot.
  match type of Vt with
  | Z.abs (F64.V ?t - _) <= _ =>
      replace t with tot in Hvt, Ht, Vt by (rewrite Etot; reflexivity)
  end.
  assert (Rtot : (- 2 <= value tot
                         - (value (reduced tr a s) + value (reduced tr a g)
                            + value (reduced tr a k) + value i + value y)
                  <= 2)%R).
  { pose proof (err_R 1 2 (F64.V tot)
                  (F64.V (reduced tr a s) + F64.V (reduced tr a g)
                   + F64.V (reduced tr a k) + F64.V i + F64.V y)
                  ltac:(lia) ltac:(lia)) as H.
    rewrite !value_add2 in H. unfold value. lra. }
  split.
  { unfold reduction_applies.
    rewrite (gtb_f0_GP _ _ _ HT7), (gtb_f0_GP _ _ _ Ha). reflexivity. }
  split; [exact Hvt|]. split; [exact (GP_PF _ _ _ Ht)|].
  exact (Step6Real.total_real _ _ _ _ _ _ _ _ _ _ _ _ _ _ _ Rapp RT Rtr Rsum
           Rs' Rg' Rk' Rtot).
Qed.

(** ** The applicability within the validated range *)

Lemma validate_nil_app inp :
  validate_inputs inp = [] ->
  F64.ltb (climate_improved_applicability inp) f0 = false
  /\ F64.gtb (climate_improved_applicability inp) f1 = false.
Proof.
  unfold validate_inputs. intros H.
  repeat (apply app_eq_nil in H; destruct H as [?H H]).
  apply note_if_nil in H. apply orb_false_iff in H. exact H.
Qed.

(** A valid applicability that the validator lets through is a NaN, or
    a zero, or positive and at most 1. *)
Lemma app_cases x :
  F64.valid x = true -> F64.ltb x f0 = false -> F64.gtb x f1 = false ->
  x = S754_nan \/ (F64.BN 1 x /\ F64.V x <= F64.U).
Proof.
  intros Hv H0 H1. pose proof U_pos as HU.
  destruct x as [s|[]| |[] m e]; try discriminate.
  - right. split; [exact I|]. cbn [F64.V]. lia.
  - left. reflexivity.
  - right.
    pose proof (bounded_canon _ _ Hv) as [He _].
    assert (HV : F64.V (S754_finite false m e) <= F64.U).
    { destruct (Z_lt_le_dec F64.U (F64.V (S754_finite false m e)))
        as [Hlt|]; [exfalso|assumption].
      change f1 with (S754_finite false 4503599627370496 (-52)) in H1.
      assert (Hb1 : bounded F64.prec F64.emax 4503599627370496 (-52) = true)
        by reflexivity.
      assert (E1 : F64.V (S754_finite false 4503599627370496 (-52)) = F64.U)
        by (vm_compute; reflexivity).
      rewrite <- E1 in Hlt.
      pose proof (V_lt_ltb _ _ _ _ Hb1 Hv Hlt) as Hc.
      unfold F64.gtb in H1. unfold F64.ltb in Hc. congruence. }
    split; [|exact HV]. split; [exact Hv|].
    pose proof (V_finite_bounds m e He) as [Hlo _].
    assert (Hp : 2 ^ (F64.mag m e - 1 + 1074) <= 2 ^ 1074)
      by (unfold F64.U in HV; lia).
    pose proof (mag_pos m e). unfold F64.emin in He.
    apply Z.pow_le_mono_r_iff in Hp; lia.
Qed.

(** ** The categories of a run *)

Lemma klimat_pre_D53 inp hf lf : F64.D53 (klimat_pre inp hf lf).
Proof. unfold klimat_pre, scale_opt. destruct lf; apply mul_D53. Qed.

Lemma grund_pre_D53 inp lf :
  F64.valid (atemp_to_bta inp) = true ->
  F64.valid (parking_ratio inp) = true ->
  between f0 (parking_ratio inp) (F64.of_Z 2) = true ->
  between (F64.dec 7 10) (atemp_to_bta inp) f1 = true ->
  F64.GP 1 20 (grund_base inp lf) ->
  F64.valid (grund_base inp lf) = true ->
  F64.D53 (grund_pre inp lf).
Proof.
  intros Hva Hvp Hp Ha Hb Hvb. unfold grund_pre.
  destruct (underground_garage inp); [|exact (valid_D53 _ Hvb)].
  destruct (garage_of_cases inp Hva Hvp Hp Ha) as [[s ->] | Hg].
  - rewrite add_zero_r by exact (GP_PF _ _ _ Hb). exact (valid_D53 _ Hvb).
  - destruct (add_GP _ _ _ _ _ _ Hb Hg ltac:(unfold F64.emin; lia)
                ltac:(lia)) as (_ & H1 & _).
    exact (valid_D53 _ H1).
Qed.

(** The total of the closed form when the reduction is applied. *)
Lemma total_closed_on inp hf lf t :
  system_boundary inp = B2027 ->
  climate_improved_materials inp = true ->
  let s := stomme_pre inp in
  let g := grund_pre inp lf in
  let k := klimat_pre inp hf lf in
  let i := inner_pre inp in
  let y := ytskikt_pre inp in
  let a := fsum [s; g; k] in
  let T := fsum [s; g; k; i; y] in
  let tr := F64.mul (F64.mul (F64.of_Z 48) (F64.quot T (F64.of_Z 373)))
                    (climate_improved_applicability inp) in
  reduction_applies T a = true ->
  total_kg_per_m2_bta (estimate_closed inp hf lf t)
  = fsum [reduced tr a s; reduced tr a g; reduced tr a k; i; y].
Proof.
  intros Hb Hon s g k i y a T tr Hap.
  unfold estimate_closed, result_of, step6_closed, tail_of,
    target_reduction_of.
  rewrite Hon, Hb.
  cbn [app dict_values map snd fst total_kg_per_m2_bta].
  fold s g k i y. fold a. fold T. rewrite Hap.
  reflexivity.
Qed.

(** ** An applicability that is a NaN *)

Lemma mul_nan_r x : F64.mul x S754_nan = S754_nan.
Proof. destruct x as [s|s| |s m e]; reflexivity. Qed.

Lemma mul_nan_l y : F64.mul S754_nan y = S754_nan.
Proof. destruct y as [s|s| |s m e]; reflexivity. Qed.

Lemma sub_nan_r x : F64.sub x S754_nan = S754_nan.
Proof. destruct x as [s|s| |s m e]; reflexivity. Qed.

Lemma reduced_nan a x : reduced S754_nan a x = f0.
Proof. unfold reduced. rewrite mul_nan_l, sub_nan_r. reflexivity. Qed.

Lemma ltb_of_V x y :
  F64.PF x -> F64.valid x = true -> F64.PF y -> F64.valid y = true ->
  F64.V x < F64.V y -> F64.ltb x y = true.
Proof.
  destruct x as [[]|[]| |[] mx ex]; try contradiction.
  destruct y as [[]|[]| |[] my ey]; try contradiction.
  intros _ Hx _ Hy H. apply V_lt_ltb; assumption.
Qed.

Lemma reduction_applies_GP lo hi lo' hi' T a :
  F64.GP lo hi T -> F64.GP lo' hi' a -> reduction_applies T a = true.
Proof.
  intros HT Ha. unfold reduction_applies.
  rewrite (gtb_f0_GP _ _ _ HT), (gtb_f0_GP _ _ _ Ha). reflexivity.
Qed.

(** ** Timber against concrete with the climate-improved flag set *)

Lemma timber_total_less_on inp hf lf tt tc :
  system_boundary inp = B2027 ->
  climate_improved_materials inp = true ->
  floats_valid inp = true ->
  validate_inputs inp = [] ->
  height_factor inp = Ok hf -> lowrise_opt inp = Ok lf ->
  F64.ltb
    (total_kg_per_m2_bta (estimate_closed (timber_run inp) hf lf tt))
    (total_kg_per_m2_bta (estimate_closed (concrete_run inp) hf lf tc))
  = true.
Proof.
  intros Hb Hon Hv Hn Hh Hl.
  pose proof U_pos as HU.
  destruct (validate_nil_app inp Hn) as [Ha0 Ha1].
  apply validate_nil in Hn as (Hff & Hw & Hf & Hp & Ha).
  unfold floats_valid in Hv.
  repeat (apply andb_true_iff in Hv; destruct Hv as [Hv ?Hv]).
  assert (Hvapp : F64.valid (climate_improved_applicability inp) = true)
    by assumption.
  destruct (stomme_runs inp Hb) as (HSt & HSc & HS & HS85 & HvSt & HvSc).
  destruct (inner_runs inp Hb) as (HIt & HIc & HI & HI51).
  destruct (ytskikt_runs inp Hb) as (HY & HY38).
  destruct (grund_base_runs inp lf Hb Hf Hl)
    as (HBt & HBc & HB & HvBt & HvBc).
  pose proof (klimat_pre_GP inp hf lf ltac:(assumption) ltac:(assumption)
                Hff Hw Hf Hl Hh) as HK.
  pose proof (klimat_pre_D53 inp hf lf) as DK.
  destruct (grund_pre_V (timber_run inp) lf ltac:(assumption)
              ltac:(assumption) Hp Ha HBt) as (HGt & VGt).
  destruct (grund_pre_V (concrete_run inp) lf ltac:(assumption)
              ltac:(assumption) Hp Ha HBc) as (HGc & VGc).
  pose proof (grund_pre_D53 (timber_run inp) lf ltac:(assumption)
                ltac:(assumption) Hp Ha HBt HvBt) as DGt.
  pose proof (grund_pre_D53 (concrete_run inp) lf ltac:(assumption)
                ltac:(assumption) Hp Ha HBc HvBc) as DGc.
  change (garage_value (concrete_run inp)) with (garage_value inp) in VGc.
  change (garage_value (timber_run inp)) with (garage_value inp) in VGt.
  assert (HSt' : F64.GP 1 24 (stomme_pre (timber_run inp))) by gp_weaken HSt.
  assert (HSc' : F64.GP 1 24 (stomme_pre (concrete_run inp)))
    by gp_weaken HSc.
  assert (HIt' : F64.GP 1 24 (inner_pre (timber_run inp))) by gp_weaken HIt.
  assert (HIc' : F64.GP 1 24 (inner_pre (concrete_run inp)))
    by gp_weaken HIc.
  assert (HY' : F64.GP 1 24 (ytskikt_pre inp)) by gp_weaken HY.
  pose proof (V_pos_GP _ _ _ HIt) as VIt0.
  destruct (app_cases _ Hvapp Ha0 Ha1) as [Enan | [Happ Vapp]].
  - (* the reduction is a NaN and the three categories become 0.0 *)
    destruct (fsum3_V _ _ _ HSt' HGt HK) as (Hat & _).
    destruct (fsum3_V _ _ _ HSc' HGc HK) as (Hac & _).
    destruct (fsum5_V _ _ _ _ _ ltac:(gp_weaken HSt') ltac:(gp_weaken HGt)
                ltac:(gp_weaken HK) ltac:(gp_weaken HIt')
                ltac:(gp_weaken HY')) as (_ & HTt & _).
    destruct (fsum5_V _ _ _ _ _ ltac:(gp_weaken HSc') ltac:(gp_weaken HGc)
                ltac:(gp_weaken HK) ltac:(gp_weaken HIc')
                ltac:(gp_weaken HY')) as (_ & HTc & _).
    rewrite (total_closed_on (timber_run inp) hf lf tt Hb Hon
               (reduction_applies_GP _ _ _ _ _ _ HTt Hat)).
    rewrite (total_closed_on (concrete_run inp) hf lf tc Hb Hon
               (reduction_applies_GP _ _ _ _ _ _ HTc Hac)).
    change (climate_improved_applicability (timber_run inp))
      with (climate_improved_applicability inp).
    change (climate_improved_applicability (concrete_run inp))
      with (climate_improved_applicability inp).
    rewrite Enan, !mul_nan_r, !reduced_nan.
    unfold fsum. cbn [fold_left].
    change (F64.add (F64.add (F64.add (S754_zero false) f0) f0) f0) with f0.
    rewrite (add_f0 _ (GP_PF _ _ _ HIt)), (add_f0 _ (GP_PF _ _ _ HIc)).
    change (ytskikt_pre (timber_run inp)) with (ytskikt_pre inp).
    change (ytskikt_pre (concrete_run inp)) with (ytskikt_pre inp).
    destruct (add_GP _ _ _ _ _ _ HIt HY ltac:(unfold F64.emin; lia)
                ltac:(lia)) as (G1 & V1 & E1).
    destruct (add_GP _ _ _ _ _ _ HIc HY ltac:(unfold F64.emin; lia)
                ltac:(lia)) as (G2 & V2 & E2).
    apply ltb_of_V; try assumption;
      try (eapply GP_PF; eassumption).
    lia.
  - (* the reduction is applied to both runs *)
    assert (Viy_t : F64.V (inner_pre (timber_run inp))
                    + F64.V (ytskikt_pre inp) <= 90 * F64.U) by lia.
    assert (Viy_c : F64.V (inner_pre (concrete_run inp))
                    + F64.V (ytskikt_pre inp) <= 90 * F64.U) by lia.
    destruct (step6_total _ _ _ _ _ _ HSt' (valid_D53 _ HvSt) HGt DGt HK DK
                HIt' HY' HS85 Viy_t Happ Vapp) as (Apt & Vvt & Pt & Rt).
    destruct (step6_total _ _ _ _ _ _ HSc' (valid_D53 _ HvSc) HGc DGc HK DK
                HIc' HY' ltac:(lia) Viy_c Happ Vapp) as (Apc & Vvc & Pc & Rc).
    rewrite (total_closed_on (timber_run inp) hf lf tt Hb Hon Apt).
    rewrite (total_closed_on (concrete_run inp) hf lf tc Hb Hon Apc).
    match type of Vvt with
    | F64.valid ?a = true =>
        match type of Vvc with
        | F64.valid ?b = true =>
            change (F64.ltb a b = true);
            remember a as xt eqn:Ext in *; remember b as xc eqn:Exc in *
        end
    end.
    clear Ext Exc.
    apply ltb_of_V; try assumption.
    apply (ZtoR.lt_Z F64.U _ _ U_pos). fold (value xt). fold (value xc).
    assert (Rapp : (0 <= value (climate_improved_applicability inp) <= 1)%R).
    { split; [exact (value_BN _ _ Happ)|].
      apply (ZtoR.scaled_ge F64.U _ 1 HU). lia. }
    assert (HZ : F64.V (stomme_pre (timber_run inp))
                 + F64.V (grund_pre (timber_run inp) lf)
                 + F64.V (klimat_pre inp hf lf)
                 + F64.V (inner_pre (timber_run inp))
                 + F64.V (ytskikt_pre inp) + 63 * F64.U
                 <= F64.V (stomme_pre (concrete_run inp))
                    + F64.V (grund_pre (concrete_run inp) lf)
                    + F64.V (klimat_pre inp hf lf)
                    + F64.V (inner_pre (concrete_run inp))
                    + F64.V (ytskikt_pre inp)) by lia.
    apply (ZtoR.le_R F64.U _ _ U_pos) in HZ.
    rewrite !value_add2 in HZ.
    assert (E63 : (IZR (63 * F64.U) / IZR F64.U = 63)%R).
    { rewrite mult_IZR. pose proof IU_pos. field. lra. }
    rewrite E63 in HZ.
    refine (Step6Real.compare_real _ _ _ _ _ Rapp _ Rt Rc).
    unfold value. lra.
Qed.

(** * Non-negative categories for every floor count and applicability *)

Import F64Facts.









(** * The claims *)


(** ** Scenario A *)

(** C2, as stated, fails: the foundation entry of scenario A is not the
    double 47.7, so the returned breakdown is not the one the claim
    lists. *)
Lemma C2_counterexample :
  ~ (exists r, estimate scenarioA None = Ok r
       /\ breakdown_kg_per_m2_bta r = scenarioA_real_breakdown).
Proof.
  intros (r & E & B). vm_compute in E. injection E as <-.
  vm_compute in B. discriminate.
Qed.

(** C2, amended: under the default configuration scenario A returns the
    breakdown Stomme 159.0, Grund 318.0 * 0.15 (the double just below
    47.7), Klimatskärm 79.5, Innerväggar 31.8, the total 318.0 kg/m2 and
    0.318 ton/m2, the delta -57.0 kg and -15.2 percent against the
    reference 375.0, the timber mass 0.005 ton/m2 and no note. *)
Theorem C2_scenario_A :
  estimate scenarioA None
  = Ok {| total_kg_per_m2_bta := F64.of_Z 318;
          total_t_per_m2_bta := F64.dec 318 1000;
          reference_kg_per_m2_bta := F64.of_Z 375;
          delta_vs_reference_kg := F64.of_Z (-57);
          delta_vs_reference_percent := F64.dec (-152) 10;
          breakdown_kg_per_m2_bta := scenarioA_breakdown;
          timber_t_per_m2_bta := F64.dec 5 1000;
          notes := [] |}
  /\ F64.mul (F64.of_Z 318) (F64.dec 15 100)
     = SFpred F64.prec F64.emax (F64.dec 477 10).
Proof. split; vm_compute; reflexivity. Qed.

(** ** Timber mass *)

(** C3, as stated, fails: an override of 0.0 is provided but not
    positive, and the result is 0.0, not the default 0.005 of a concrete
    structure. *)
Lemma C3_counterexample :
  exists r,
    estimate (with_timber_override (Some f0) scenarioA) None = Ok r
    /\ timber_t_per_m2_bta r = f0
    /\ timber_t_per_m2_bta r <> F64.dec 5 1000.
Proof.
  eexists. split; [vm_compute; reflexivity|].
  split; [reflexivity|]. vm_compute. discriminate.
Qed.

(** C3, amended: whenever [estimate] returns, the timber mass is the
    override itself if one is provided and positive, 0.0 if one is
    provided and not positive, and the default mass intensity of the
    structural system in the configuration only if no override is
    provided. *)
Theorem C3_timber_mass inp cfg r :
  estimate inp cfg = Ok r ->
  match timber_t_per_m2_override inp with
  | Some v =>
      (F64.gtb v f0 = true -> timber_t_per_m2_bta r = v)
      /\ (F64.gtb v f0 = false -> timber_t_per_m2_bta r = f0)
  | None =>
      dict_get (system_key (structural_system inp))
        (timber_t_per_m2_default_by_system (config_or_default cfg))
      = Some (timber_t_per_m2_bta r)
  end.
Proof.
  intros H. unfold estimate in H. cbv zeta in H. inv_bind H.
  destruct a0 as [b6 ns6]. inv_bind H. injection H as <-.
  cbn [timber_t_per_m2_bta].
  unfold timber_mass in E1.
  destruct (timber_t_per_m2_override inp) as [v|].
  - injection E1 as <-. unfold pymax.
    split; intros ->; reflexivity.
  - unfold dict_index in E1.
    destruct (dict_get _ _); [|discriminate]. congruence.
Qed.

Lemma C3_timber_mass_witness :
  exists r,
    estimate (with_timber_override (Some (F64.dec 8 100)) scenarioA) None = Ok r
    /\ timber_t_per_m2_bta r = F64.dec 8 100.
Proof.
  eexists. split; [vm_compute; reflexivity|].
  refine (proj1 (C3_timber_mass
            (with_timber_override (Some (F64.dec 8 100)) scenarioA) None _ _) _).
  - vm_compute. reflexivity.
  - vm_compute. reflexivity.
Defined.

(** ** Floor-height factor *)

(** C4, as stated, fails: with a height of -5.0 m and two floors the
    height is provided but negative, and the factor is the lower clamp
    0.8, not 1.0. *)
Lemma C4_counterexample :
  height_factor (with_floors 2 (with_height (Some (F64.of_Z (-5))) scenarioA))
  = Ok f0_8
  /\ f0_8 <> f1.
Proof. split; [vm_compute; reflexivity|vm_compute; discriminate]. Qed.

(** C4, amended: the floor-height factor is [max(0.8, min(1.3, x))] of
    x = (height / floors) / 2.8 whenever a height is provided and is not
    zero (negative heights included) and the floor count is positive and
    converts to a float; it is exactly 1.0 when the height is absent or
    zero or the floor count is not positive; and step 2 multiplies the
    envelope category by the product of the form-factor scale, this
    factor and the window-mix factor. *)
Theorem C4_height_factor inp :
  (forall h fl,
      building_height_m inp = Some h -> F64.is_zero h = false ->
      0 < floors inp -> float_of_int (floors inp) = Ok fl ->
      height_factor inp
      = Ok (clamp_height (F64.quot (F64.quot h fl) ref_floor_height)))
  /\ (building_height_m inp = None
      \/ (exists h, building_height_m inp = Some h /\ F64.is_zero h = true)
      \/ floors inp <= 0 ->
      height_factor inp = Ok f1)
  /\ (forall cfg b b' v,
      dict_get Klimatskarm b = Some v ->
      step2_envelope cfg inp b = Ok b' ->
      exists ffs hf wmf,
        height_factor inp = Ok hf
        /\ dict_get Klimatskarm b'
           = Some (F64.mul v (envelope_factor ffs hf wmf))).
Proof.
  split; [|split].
  - intros h fl Hh Hz Hf Hfl. unfold height_factor.
    rewrite Hh. unfold F64.truthy. rewrite Hz.
    replace (floors inp >? 0) with true by (symmetry; apply Z.gtb_lt; lia).
    cbn [negb andb]. rewrite Hfl. cbn [bind].
    destruct (float_of_int_pos_inv _ _ Hf Hfl) as (m & e & ->).
    rewrite fdiv_ok by reflexivity. cbn [bind].
    rewrite fdiv_ok by (vm_compute; reflexivity). reflexivity.
  - intros H. unfold height_factor.
    destruct H as [-> | [(h & -> & Hz) | Hf]]; [reflexivity| |].
    + unfold F64.truthy. rewrite Hz. reflexivity.
    + destruct (building_height_m inp); [|reflexivity].
      replace (floors inp >? 0) with false
        by (symmetry; rewrite Z.gtb_ltb; apply Z.ltb_ge; lia).
      rewrite andb_false_r. reflexivity.
  - intros cfg b b' v Hv H. unfold step2_envelope in H.
    unfold dict_mem in H. rewrite Hv in H. inv_bind H.
    unfold dict_imul in H. rewrite Hv in H. injection H as <-.
    exists a, a0, a1. split; [assumption|apply dict_get_set_same].
Qed.

Lemma C4_height_factor_witness :
  height_factor (with_height (Some (F64.of_Z 18)) scenarioA)
  = Ok (clamp_height
          (F64.quot (F64.quot (F64.of_Z 18) (F64.of_Z 6)) ref_floor_height))
  /\ height_factor scenarioA = Ok f1.
Proof.
  split.
  - refine (proj1 (C4_height_factor
              (with_height (Some (F64.of_Z 18)) scenarioA))
              (F64.of_Z 18) (F64.of_Z 6) _ _ _ _).
    + reflexivity.
    + vm_compute. reflexivity.
    + vm_compute. reflexivity.
    + vm_compute. reflexivity.
  - refine (proj1 (proj2 (C4_height_factor scenarioA)) _).
    left. reflexivity.
Defined.

(** ** No exception *)

(** C5, as stated, fails: a floor count of -2^1024 is an [int] that the
    low-rise step cannot convert to a float, and [estimate] raises
    [OverflowError]. *)
Lemma C5_counterexample :
  estimate (with_floors (- 2 ^ 1024) scenarioA) None = Raise OverflowError.
Proof. vm_compute. reflexivity. Qed.

(** C5, amended: under the default configuration [estimate] returns a
    result, carrying every advisory of the validator, for every input
    whose floor count lies strictly between -2^1023 + 4 and 2^1023, the
    other numeric inputs being arbitrary floats (out of range, infinite
    or NaN); for zero floors and a form factor of 5.0 the notes contain
    the advisory on the floors and the advisory on the form factor. *)
Theorem C5_no_exception :
  (forall inp,
      - 2 ^ 1023 + 4 < floors inp < 2 ^ 1023 ->
      exists r,
        estimate inp None = Ok r
        /\ forall s, In s (validate_inputs inp) -> In s (notes r))
  /\ (exists r,
        estimate scenarioD None = Ok r
        /\ In note_floors (notes r) /\ In note_form_factor (notes r)).
Proof.
  split.
  - intros inp Hf.
    destruct (estimate_default_ok inp Hf) as (r & E & _ & Hn).
    exists r. split; [assumption|]. intros s Hs.
    destruct Hn as [-> | ->]; [assumption|].
    apply in_or_app. left. assumption.
  - eexists. split; [vm_compute; reflexivity|].
    cbn [notes]. split.
    + right. left. reflexivity.
    + left. reflexivity.
Qed.

Lemma C5_no_exception_witness :
  exists r,
    estimate (with_floors (-7) scenarioD) None = Ok r
    /\ forall s, In s (validate_inputs (with_floors (-7) scenarioD)) ->
                 In s (notes r).
Proof.
  refine (proj1 C5_no_exception (with_floors (-7) scenarioD) _).
  cbn [floors with_floors]. split.
  - reflexivity.
  - reflexivity.
Defined.

(** ** The structure-affected shares are not read *)

(** C9: two configurations that differ only in the two
    structure-affected shares give the same result, or the same
    exception, for every input. *)
Theorem C9_structure_shares_unused inp c1 c2 :
  same_but_structure_shares c1 c2 ->
  estimate inp (Some c1) = estimate inp (Some c2).
Proof.
  intros H. unfold same_but_structure_shares in H.
  destruct c1, c2. cbn in H. decompose [and] H. subst. reflexivity.
Qed.

Lemma C9_structure_shares_unused_witness :
  estimate scenarioA
    (Some (with_structure_shares (F64.dec 10 100) (F64.dec 90 100)
             default_config))
  = estimate scenarioA (Some default_config).
Proof.
  apply C9_structure_shares_unused.
  unfold same_but_structure_shares. repeat split.
Defined.

(** ** Method multipliers *)

(** C10: under the default configuration the reference method, the two
    timber methods and every unrecognised string give the same result
    for every input; every method string is one of these or one of the
    two cast-in-place methods, and each cast-in-place method gives a
    result different from that of the reference method. *)
Theorem C10_method_multiplier :
  (forall inp m1 m2,
      neutral_method m1 -> neutral_method m2 ->
      estimate (with_method m1 inp) None = estimate (with_method m2 inp) None)
  /\ (forall m, neutral_method m \/ cast_in_place m)
  /\ (forall inp m r r',
      cast_in_place m ->
      estimate (with_method m_prefab inp) None = Ok r ->
      estimate (with_method m inp) None = Ok r' ->
      r <> r').
Proof.
  split; [|split].
  - intros inp m1 m2 H1 H2. apply estimate_method_congr.
    cbn [config_or_default].
    rewrite (neutral_method_mult m1 H1), (neutral_method_mult m2 H2).
    reflexivity.
  - apply method_cases.
  - intros inp m r r' Hm E E' Heq. subst r'.
    apply estimate_default_inv in E as (hf & lf & _ & _ & ->).
    apply estimate_default_inv in E' as (hf' & lf' & _ & _ & E').
    apply (f_equal (fun x => dict_get Innervaggar (breakdown_kg_per_m2_bta x)))
      in E'.
    unfold estimate_closed, result_of in E'.
    cbn [breakdown_kg_per_m2_bta] in E'.
    rewrite !step6_closed_inner in E' by apply tail_of_cases.
    injection E' as E'. exact (inner_pre_cast inp m Hm E').
Qed.

Lemma C10_method_multiplier_witness :
  estimate (with_method m_kl_tra scenarioA) None
  = estimate (with_method "Stålstomme" scenarioA) None.
Proof.
  refine (proj1 C10_method_multiplier scenarioA m_kl_tra "Stålstomme" _ _).
  - right. right. left. reflexivity.
  - right. right. right. reflexivity.
Defined.

(** ** Underground garage *)

(** C7, as stated, fails when the climate-improved flag is set: step 6
    then reduces the foundation of both runs by different amounts, and
    the foundation with the garage is not 43.2 above the one without, in
    the sense of the rounded sum and of the rounded difference alike. *)
Lemma C7_counterexample :
  exists r1 r2 g1 g2,
    estimate (garage_off (with_improved true scenarioA)) None = Ok r1
    /\ estimate (garage_on (with_improved true scenarioA)) None = Ok r2
    /\ dict_get Grund (breakdown_kg_per_m2_bta r1) = Some g1
    /\ dict_get Grund (breakdown_kg_per_m2_bta r2) = Some g2
    /\ g2 <> F64.add g1 (F64.dec 432 10)
    /\ F64.sub g2 g1 <> F64.dec 432 10.
Proof.
  do 4 eexists.
  split; [vm_compute; reflexivity|].
  split; [vm_compute; reflexivity|].
  split; [vm_compute; reflexivity|].
  split; [vm_compute; reflexivity|].
  split; vm_compute; discriminate.
Qed.

(** C7, amended: under the default configuration and with the
    climate-improved flag off, for all other inputs, whenever the run
    without the garage returns, the run with the garage flag, parking
    ratio 0.5 and heated-area ratio 0.90 returns too and its foundation
    category is the foundation of the run without the garage plus 43.2,
    the sum being the rounded double-precision sum; 43.2 is the double
    48.0 * 0.90 * (0.5 / 0.5). *)
Theorem C7_garage inp r1 :
  climate_improved_materials inp = false ->
  estimate (garage_off inp) None = Ok r1 ->
  exists r2 g1,
    estimate (garage_on inp) None = Ok r2
    /\ dict_get Grund (breakdown_kg_per_m2_bta r1) = Some g1
    /\ dict_get Grund (breakdown_kg_per_m2_bta r2)
       = Some (F64.add g1 (F64.dec 432 10))
    /\ F64.mul (F64.mul (F64.of_Z 48) (F64.dec 90 100))
               (F64.quot (F64.dec 5 10) (F64.dec 5 10))
       = F64.dec 432 10.
Proof.
  intros Hoff E.
  apply estimate_default_inv in E as (hf & lf & Hh & Hl & ->).
  pose proof (estimate_closed_correct (garage_on inp) hf lf Hh Hl) as E2.
  eexists. exists (grund_pre (garage_off inp) lf).
  split; [exact E2|].
  unfold estimate_closed, result_of. cbn [breakdown_kg_per_m2_bta].
  rewrite !step6_closed_grund_off by exact Hoff.
  split; [reflexivity|]. split; [|vm_compute; reflexivity].
  rewrite grund_pre_garage. reflexivity.
Qed.

Lemma C7_garage_witness :
  exists r2 g1,
    estimate (garage_on scenarioA) None = Ok r2
    /\ dict_get Grund scenarioA_breakdown = Some g1
    /\ dict_get Grund (breakdown_kg_per_m2_bta r2)
       = Some (F64.add g1 (F64.dec 432 10)).
Proof.
  destruct (C7_garage scenarioA
              {| total_kg_per_m2_bta := F64.of_Z 318;
                 total_t_per_m2_bta := F64.dec 318 1000;
                 reference_kg_per_m2_bta := F64.of_Z 375;
                 delta_vs_reference_kg := F64.of_Z (-57);
                 delta_vs_reference_percent := F64.dec (-152) 10;
                 breakdown_kg_per_m2_bta := scenarioA_breakdown;
                 timber_t_per_m2_bta := F64.dec 5 1000;
                 notes := [] |})
    as (r2 & g1 & E & G1 & G2 & _).
  - reflexivity.
  - vm_compute. reflexivity.
  - exists r2, g1. auto.
Defined.

(** ** Climate-improved materials *)

(** C6, as stated, fails for configurations that the claim does not
    exclude.  Step 6 looks the two medians of the boundary up before it
    tests the sums, and divides the total by the generic median.  With
    the flag set and a generic median of 0.0, a breakdown whose two sums
    are greater than zero is not reduced: the step raises
    ZeroDivisionError, as [estimate] does for Scenario A with the garage.
    With the flag set and no improved median for the boundary, the step
    raises KeyError whatever the sums are, so that a negative sum (form
    factor -100) gets no advisory: [estimate] fails.  Neither depends on
    how [sum] adds. *)
Lemma C6_counterexample :
  (forall pysum b ns,
      F64.gtb (pysum (dict_values b)) f0 = true ->
      F64.gtb (pysum (map (fun k => dict_get_default k f0 b) affected_keys))
              f0 = true ->
      step6_improved_sum pysum
        (with_median [("2022", f0); ("2027", f0)] default_config)
        (with_improved true scenarioA) (b, ns)
      = Raise ZeroDivisionError)
  /\ estimate (garage_on (with_improved true scenarioA))
       (Some (with_median [("2022", f0); ("2027", f0)] default_config))
     = Raise ZeroDivisionError
  /\ (forall pysum b ns,
      step6_improved_sum pysum (with_median_improved [] default_config)
        (with_improved true scenarioA) (b, ns)
      = Raise (KeyError "2022"))
  /\ estimate (with_improved true
                 (with_form_factor (F64.of_Z (-100)) scenarioA))
       (Some (with_median_improved [] default_config))
     = Raise (KeyError "2022").
Proof.
  split; [|split; [|split]].
  - intros pysum b ns Ht Ha. unfold step6_improved_sum.
    cbn [climate_improved_materials with_improved].
    change (dict_index
              (boundary_key (system_boundary (with_improved true scenarioA)))
              (median_kg_per_m2_climate_improved
                 (with_median [("2022", f0); ("2027", f0)] default_config)))
      with (Ok (F64.of_Z 271)).
    change (dict_index
              (boundary_key (system_boundary (with_improved true scenarioA)))
              (median_kg_per_m2
                 (with_median [("2022", f0); ("2027", f0)] default_config)))
      with (Ok f0).
    cbn [bind]. cbv zeta. rewrite Ht, Ha. reflexivity.
  - vm_compute. reflexivity.
  - intros pysum b ns. reflexivity.
  - vm_compute. reflexivity.
Qed.

(** C6, amended: for every configuration that lists the two medians of
    the boundary, every breakdown and every summation function that the
    builtin [sum] may be (additions from left to right, or the
    compensated sum of later interpreters), when the climate-improved
    flag is set: if the total and the sum of structure, foundation and
    envelope are both greater than zero and the generic median, by which
    the total is divided, is not zero, step 6 returns a breakdown with
    the same keys in which each of the three categories that is present
    holds max(0, v - t * (v / s)), where v is its value before the step,
    s the sum of the three and t = diff * (total / generic median) *
    applicability, so that it is never negative, and every other category
    and the notes are unchanged; if either sum is zero or negative, the
    step returns the breakdown unchanged and appends the advisory. *)
Theorem C6_improved_step pysum cfg inp b ns gi gg :
  climate_improved_materials inp = true ->
  dict_get (boundary_key (system_boundary inp))
    (median_kg_per_m2_climate_improved cfg) = Some gi ->
  dict_get (boundary_key (system_boundary inp)) (median_kg_per_m2 cfg)
    = Some gg ->
  let asum :=
    pysum [dict_get_default Stomme f0 b; dict_get_default Grund f0 b;
           dict_get_default Klimatskarm f0 b] in
  let tot := pysum (dict_values b) in
  let tr :=
    F64.mul (F64.mul (pymax f0 (F64.sub gg gi)) (F64.quot tot gg))
            (climate_improved_applicability inp) in
  (F64.gtb tot f0 = true -> F64.gtb asum f0 = true ->
   F64.is_zero gg = false ->
   exists b',
     step6_improved_sum pysum cfg inp (b, ns) = Ok (b', ns)
     /\ dict_keys b' = dict_keys b
     /\ (forall k,
          dict_get k b'
          = if is_affected k
            then option_map (reduced tr asum) (dict_get k b)
            else dict_get k b)
     /\ (forall k v,
          is_affected k = true -> dict_get k b' = Some v -> nonneg v = true))
  /\ (F64.leb tot f0 = true \/ F64.leb asum f0 = true ->
      step6_improved_sum pysum cfg inp (b, ns)
      = Ok (b, ns ++ [note_not_applied]))
  /\ step6_improved cfg inp (b, ns) = step6_improved_sum fsum cfg inp (b, ns).
Proof.
  intros Hflag Hi Hg asum tot tr.
  split; [|split; [|reflexivity]].
  - unfold step6_improved_sum. rewrite Hflag. unfold dict_index.
    rewrite Hi, Hg. cbn [bind]. cbv zeta.
    change (pysum (map (fun k => dict_get_default k f0 b) affected_keys))
      with asum.
    fold tot.
    intros Ht Ha Hz. rewrite Ht, Ha. cbn [andb].
    rewrite fdiv_ok by assumption. cbn [bind]. fold tr.
    destruct (reduce_keys_ok tr asum affected_keys b (gtb_f0_not_zero _ Ha))
      as (b' & E & K).
    rewrite E. cbn [bind]. exists b'.
    pose proof (reduce_affected_spec tr asum b b' E) as Hspec.
    repeat split; try assumption.
    intros k v Hk Hv. rewrite Hspec, Hk in Hv.
    destruct (dict_get k b) as [v0|]; [|discriminate].
    injection Hv as <-. apply pymax_f0_nonneg.
  - unfold step6_improved_sum. rewrite Hflag. unfold dict_index.
    rewrite Hi, Hg. cbn [bind]. cbv zeta.
    change (pysum (map (fun k => dict_get_default k f0 b) affected_keys))
      with asum.
    fold tot.
    intros [H | H]; apply leb_f0_not_gtb in H; rewrite H;
      rewrite ?andb_false_r; reflexivity.
Qed.

Lemma C6_improved_step_witness :
  (exists b',
      step6_improved default_config (with_improved true scenarioA)
        (scenarioA_breakdown, []) = Ok (b', [])
      /\ dict_keys b' = dict_keys scenarioA_breakdown)
  /\ step6_improved default_config (with_improved true scenarioA) ([], [])
     = Ok ([], [note_not_applied]).
Proof.
  pose proof (C6_improved_step fsum default_config
                (with_improved true scenarioA)) as H.
  split.
  - destruct (H scenarioA_breakdown [] (F64.of_Z 271) (F64.of_Z 318))
      as [(b' & E & K & _) _].
    + reflexivity.
    + reflexivity.
    + reflexivity.
    + vm_compute. reflexivity.
    + vm_compute. reflexivity.
    + vm_compute. reflexivity.
    + exists b'. split; [exact E|exact K].
  - refine (proj1 (proj2 (H [] [] (F64.of_Z 271) (F64.of_Z 318) _ _ _)) _).
    + reflexivity.
    + reflexivity.
    + reflexivity.
    + left. vm_compute. reflexivity.
Defined.

(** ** Non-negativity *)




(** ** Scenario B: timber against concrete, extended boundary *)

(** C8, as stated, fails in its strict inequality.  Under the default
    configuration, with a form factor of 1e20 the envelope category is so
    large that the rounded sum of the five categories absorbs the
    structural categories, and the timber and the concrete runs return
    the same total.  Under a configuration whose extended-boundary shares
    hold the envelope only, step 4 finds none of its three categories and
    the two runs of Scenario B return the same total. *)
Lemma C8_counterexample :
  (exists r_t r_c,
      estimate (timber_run scenarioB_wide) None = Ok r_t
      /\ estimate (concrete_run scenarioB_wide) None = Ok r_c
      /\ total_kg_per_m2_bta r_t = total_kg_per_m2_bta r_c
      /\ F64.ltb (total_kg_per_m2_bta r_t) (total_kg_per_m2_bta r_c) = false)
  /\ (exists r_t r_c,
      estimate (timber_run scenarioB) (Some envelope_only_config) = Ok r_t
      /\ estimate (concrete_run scenarioB) (Some envelope_only_config) = Ok r_c
      /\ total_kg_per_m2_bta r_t = total_kg_per_m2_bta r_c
      /\ F64.ltb (total_kg_per_m2_bta r_t) (total_kg_per_m2_bta r_c) = false).
Proof.
  split; do 2 eexists.
  - split; [vm_compute; reflexivity|].
    split; [vm_compute; reflexivity|].
    split; vm_compute; reflexivity.
  - split; [vm_compute; reflexivity|].
    split; [vm_compute; reflexivity|].
    split; vm_compute; reflexivity.
Qed.

(** C8, amended: under the default configuration, for the extended
    boundary and every input whose float fields are valid doubles and on
    which the validator raises no advisory, with the climate-improved
    flag set or not: the structural-system multiplier of the timber run
    is 0.51; step 4 of the timber run multiplies each of structure,
    foundation and interior walls that is present by (method multiplier
    * heavy-design multiplier) * 0.51 and leaves the other categories
    unchanged; and whenever the concrete run returns, the timber run with
    all other inputs identical returns too and its total is strictly
    less than the total of the concrete run. *)
Theorem C8_timber_extended inp r_c :
  system_boundary inp = B2027 ->
  floats_valid inp = true ->
  validate_inputs inp = [] ->
  estimate (concrete_run inp) None = Ok r_c ->
  system_struct_mult (timber_run inp) = F64.dec 51 100
  /\ (forall b, exists b',
        step4_structure default_config (timber_run inp) b = Ok b'
        /\ forall k,
             dict_get k b'
             = if is_structural k
               then option_map
                      (fun v =>
                         F64.mul v
                           (F64.mul
                              (F64.mul (method_mult default_config inp)
                                       (heavy_mult inp))
                              (F64.dec 51 100)))
                      (dict_get k b)
               else dict_get k b)
  /\ exists r_t,
       estimate (timber_run inp) None = Ok r_t
       /\ F64.ltb (total_kg_per_m2_bta r_t) (total_kg_per_m2_bta r_c) = true.
Proof.
  intros Hb Hv Hn E.
  assert (Hm : system_struct_mult (timber_run inp) = F64.dec 51 100).
  { unfold system_struct_mult, timber_run. cbn [with_system structural_system
      system_boundary]. rewrite Hb. reflexivity. }
  split; [exact Hm|]. split.
  - intros b.
    destruct (step4_ok default_config (timber_run inp) b) as (b' & E4 & _).
    exists b'. split; [exact E4|]. intros k.
    rewrite (step4_spec _ _ _ _ E4 k).
    unfold struct_mult. rewrite Hm. reflexivity.
  - apply estimate_default_inv in E as (hf & lf & Hh & Hl & ->).
    change (height_factor inp = Ok hf) in Hh.
    change (lowrise_opt inp = Ok lf) in Hl.
    exists (estimate_closed (timber_run inp) hf lf (timber_of (timber_run inp))).
    split; [apply estimate_closed_correct; assumption|].
    destruct (climate_improved_materials inp) eqn:Hon.
    + exact (timber_total_less_on inp hf lf _ _ Hb Hon Hv Hn Hh Hl).
    + rewrite !total_closed_off by assumption.
      exact (timber_total_less inp hf lf Hb Hv Hn Hh Hl).
Qed.

Lemma C8_timber_extended_witness :
  exists r_c r_t,
    estimate (concrete_run (with_improved true scenarioB)) None = Ok r_c
    /\ estimate (timber_run (with_improved true scenarioB)) None = Ok r_t
    /\ F64.ltb (total_kg_per_m2_bta r_t) (total_kg_per_m2_bta r_c) = true.
Proof.
  match eval vm_compute in
        (estimate (concrete_run (with_improved true scenarioB)) None) with
  | Ok ?r =>
      exists r;
      destruct (C8_timber_extended (with_improved true scenarioB) r)
        as (_ & _ & r_t & Et & Hlt)
  end.
  - reflexivity.
  - vm_compute. reflexivity.
  - vm_compute. reflexivity.
  - vm_compute. reflexivity.
  - exists r_t. split; [vm_compute; reflexivity|]. split; assumption.
Defined.

(** * Further properties of [estimate] and of the script *)

Import F64Facts F64Values F64Round.

(** ** What a returned result is made of *)

Lemma estimate_inv inp cfg r :
  estimate inp cfg = Ok r ->
  exists b5 b6 ns t,
    breakdown_pre (config_or_default cfg) inp = Ok b5
    /\ step6_improved (config_or_default cfg) inp (b5, validate_inputs inp)
       = Ok (b6, ns)
    /\ timber_mass (config_or_default cfg) inp = Ok t
    /\ r = result_of inp t (b6, ns).
Proof.
  unfold estimate. cbv zeta. intros H.
  apply bind_ok in H as (b5 & E5 & H).
  apply bind_ok in H as ([b6 ns] & E6 & H).
  apply bind_ok in H as (t & Et & H).
  apply bind_ok in H as (pct & Ep & H).
  apply bind_ok in H as (t1000 & E1000 & H).
  apply fdiv_inv in Ep as [_ ->]. apply fdiv_inv in E1000 as [_ ->].
  injection H as <-. exists b5, b6, ns, t. auto.
Qed.

Lemma estimate_intro inp cfg b5 b6 ns t :
  breakdown_pre (config_or_default cfg) inp = Ok b5 ->
  step6_improved (config_or_default cfg) inp (b5, validate_inputs inp)
  = Ok (b6, ns) ->
  timber_mass (config_or_default cfg) inp = Ok t ->
  estimate inp cfg = Ok (result_of inp t (b6, ns)).
Proof.
  intros E5 E6 Et. unfold estimate. cbv zeta.
  rewrite E5. cbn [bind]. rewrite E6. cbn [bind]. rewrite Et. cbn [bind].
  rewrite !fdiv_ok by (vm_compute; reflexivity). reflexivity.
Qed.

(** The notes that step 6 returns are the notes it is given, followed by
    the notes it returns on no notes; its breakdown does not depend on
    the notes. *)
Lemma step6_notes cfg inp b ns :
  step6_improved cfg inp (b, ns)
  = (st <- step6_improved cfg inp (b, []) ;;
     Ok (fst st, (ns ++ snd st)%list)).
Proof.
  unfold step6_improved.
  destruct (climate_improved_materials inp);
    [|cbn [bind fst snd]; rewrite app_nil_r; reflexivity].
  destruct (dict_index _ (median_kg_per_m2_climate_improved cfg));
    [|reflexivity].
  cbn [bind].
  destruct (dict_index _ (median_kg_per_m2 cfg)); [|reflexivity].
  cbn [bind].
  destruct (F64.gtb _ f0 && F64.gtb _ f0)%bool;
    [|cbn [bind fst snd]; reflexivity].
  destruct (fdiv _ _); [|reflexivity]. cbn [bind].
  destruct (reduce_keys _ _ _ _); [|reflexivity].
  cbn [bind fst snd]. rewrite app_nil_r. reflexivity.
Qed.

Lemma step6_notes_cases cfg inp b ns b' ns' :
  step6_improved cfg inp (b, ns) = Ok (b', ns') ->
  ns' = ns
  \/ (climate_improved_materials inp = true
      /\ ns' = (ns ++ [note_not_applied])%list).
Proof.
  unfold step6_improved.
  destruct (climate_improved_materials inp); [|intros [= _ <-]; auto].
  destruct (dict_index _ (median_kg_per_m2_climate_improved cfg));
    [|discriminate].
  cbn [bind].
  destruct (dict_index _ (median_kg_per_m2 cfg)); [|discriminate].
  cbn [bind].
  destruct (F64.gtb _ f0 && F64.gtb _ f0)%bool; [|intros [= _ <-]; auto].
  destruct (fdiv _ _); [|discriminate]. cbn [bind].
  destruct (reduce_keys _ _ _ _); [|discriminate].
  cbn [bind]. intros [= _ <-]. auto.
Qed.

(** X2: the notes of a returned result are the notes of the validator,
    in its order, followed by at most one more note: the advisory that
    the reduction could not be applied, which only appears when the
    climate-improved flag is set.  This holds for every input and
    configuration. *)
Theorem X2_notes inp cfg r :
  estimate inp cfg = Ok r ->
  notes r = validate_inputs inp
  \/ (climate_improved_materials inp = true
      /\ notes r = (validate_inputs inp ++ [note_not_applied])%list).
Proof.
  intros H. apply estimate_inv in H as (b5 & b6 & ns & t & _ & E6 & _ & ->).
  exact (step6_notes_cases _ _ _ _ _ _ E6).
Qed.

Lemma X2_notes_witness :
  exists r,
    estimate scenarioD None = Ok r
    /\ (notes r = validate_inputs scenarioD
        \/ (climate_improved_materials scenarioD = true
            /\ notes r
               = (validate_inputs scenarioD ++ [note_not_applied])%list)).
Proof.
  match eval vm_compute in (estimate scenarioD None) with
  | Ok ?r =>
      exists r; split; [vm_compute; reflexivity|];
      apply (X2_notes scenarioD None r)
  end.
  vm_compute. reflexivity.
Defined.

(** ** The categories of the breakdown *)

Lemma dict_keys_set k v d :
  dict_keys (dict_set k v d)
  = if dict_mem k d then dict_keys d else (dict_keys d ++ [k])%list.
Proof.
  unfold dict_mem, dict_keys.
  induction d as [|[k' v'] d IH]; simpl; [reflexivity|].
  destruct (String.eqb k k') eqn:E; simpl; [reflexivity|].
  rewrite IH. destruct (dict_get k d); reflexivity.
Qed.

Lemma dict_mem_same_keys k a b :
  dict_keys a = dict_keys b -> dict_mem k a = dict_mem k b.
Proof.
  intros H. pose proof (dict_mem_keys k a) as Ha.
  pose proof (dict_mem_keys k b) as Hb. rewrite H in Ha.
  destruct (dict_mem k a), (dict_mem k b); try reflexivity.
  - symmetry. apply Hb, Ha. reflexivity.
  - apply Ha, Hb. reflexivity.
Qed.

Lemma dict_imul_keys k x d d' :
  dict_imul k x d = Ok d' -> dict_keys d' = dict_keys d.
Proof.
  unfold dict_imul. destruct (dict_get k d) as [v|] eqn:E; [|discriminate].
  intros [= <-]. apply dict_keys_set_mem. unfold dict_mem. rewrite E.
  reflexivity.
Qed.

Lemma dict_imul_if_mem_keys k x d d' :
  dict_imul_if_mem k x d = Ok d' -> dict_keys d' = dict_keys d.
Proof.
  intros H. destruct (dict_imul_if_mem_ok k x d) as (d0 & E & K).
  congruence.
Qed.

Lemma step2_keys cfg inp b b' :
  step2_envelope cfg inp b = Ok b' -> dict_keys b' = dict_keys b.
Proof.
  unfold step2_envelope. destruct (dict_mem Klimatskarm b);
    [|intros [= <-]; reflexivity].
  intros H. inv_bind H. exact (dict_imul_keys _ _ _ _ H).
Qed.

Lemma step3_keys inp b b' :
  step3_lowrise inp b = Ok b' -> dict_keys b' = dict_keys b.
Proof.
  unfold step3_lowrise. destruct (floors inp <? 4);
    [|intros [= <-]; reflexivity].
  intros H. inv_bind H.
  apply dict_imul_if_mem_keys in H, E0. congruence.
Qed.

Lemma step4_keys cfg inp b b' :
  step4_structure cfg inp b = Ok b' -> dict_keys b' = dict_keys b.
Proof.
  intros H. destruct (step4_ok cfg inp b) as (b0 & E & K). congruence.
Qed.

Lemma step5_keys cfg inp b b' :
  step5_below_grade cfg inp b = Ok b' ->
  dict_keys b'
  = (dict_keys b
     ++ (if (basement inp || underground_garage inp)
            && negb (dict_mem Grund b)
         then [Grund] else []))%list.
Proof.
  unfold step5_below_grade.
  destruct (basement inp), (underground_garage inp); cbn [orb andb];
    intros H; try inv_bind H; try injection H as <-;
    rewrite ?dict_keys_set, ?dict_mem_set, ?String.eqb_refl; cbn [orb];
    rewrite ?dict_keys_set;
    destruct (dict_mem Grund b); cbn [negb]; rewrite ?app_nil_r;
    reflexivity.
Qed.

Lemma reduce_key_keys tr asum k b b' :
  reduce_key tr asum k b = Ok b' -> dict_keys b' = dict_keys b.
Proof.
  unfold reduce_key. destruct (dict_get k b) as [v|] eqn:E;
    [|intros [= <-]; reflexivity].
  intros H. inv_bind H. injection H as <-.
  apply dict_keys_set_mem. unfold dict_mem. rewrite E. reflexivity.
Qed.

Lemma reduce_keys_keys tr asum ks : forall b b',
  reduce_keys tr asum ks b = Ok b' -> dict_keys b' = dict_keys b.
Proof.
  induction ks as [|k ks IH]; intros b b'; simpl.
  - intros [= <-]. reflexivity.
  - intros H. apply bind_ok in H as (b1 & E & H).
    apply reduce_key_keys in E. apply IH in H. congruence.
Qed.

Lemma step6_keys cfg inp b ns b' ns' :
  step6_improved cfg inp (b, ns) = Ok (b', ns') ->
  dict_keys b' = dict_keys b.
Proof.
  unfold step6_improved.
  destruct (climate_improved_materials inp);
    [|intros [= <- _]; reflexivity].
  intros H. inv_bind H.
  destruct (F64.gtb _ f0 && F64.gtb _ f0)%bool;
    [|injection H as <- _; reflexivity].
  inv_bind H. injection H as <- _.
  eapply reduce_keys_keys; eassumption.
Qed.

Lemma breakdown_pre_keys cfg inp b :
  breakdown_pre cfg inp = Ok b -> dict_keys b = breakdown_keys cfg inp.
Proof.
  unfold breakdown_pre. cbv zeta. fold (shares_of cfg inp). intros H.
  apply bind_ok in H as (base & _ & H).
  apply bind_ok in H as (b2 & E2 & H).
  apply bind_ok in H as (b3 & E3 & H).
  apply bind_ok in H as (b4 & E4 & H).
  apply step2_keys in E2. apply step3_keys in E3. apply step4_keys in E4.
  apply step5_keys in H. rewrite dict_keys_map in E2.
  assert (K4 : dict_keys b4 = dict_keys (shares_of cfg inp)) by congruence.
  rewrite H, (dict_mem_same_keys Grund _ _ K4), K4. reflexivity.
Qed.

(** X3: for every input and configuration, the categories of a returned
    breakdown are the categories of the shares of the input's boundary,
    in their order, and nothing else, except that the foundation is
    appended last when the shares do not list it and the basement or the
    garage flag is set; no step drops or reorders a category. *)
Theorem X3_breakdown_keys inp cfg r :
  estimate inp cfg = Ok r ->
  dict_keys (breakdown_kg_per_m2_bta r)
  = breakdown_keys (config_or_default cfg) inp.
Proof.
  intros H. apply estimate_inv in H as (b5 & b6 & ns & t & E5 & E6 & _ & ->).
  apply breakdown_pre_keys in E5. apply step6_keys in E6.
  cbn [result_of breakdown_kg_per_m2_bta fst]. congruence.
Qed.

Lemma X3_breakdown_keys_witness :
  exists r,
    estimate (with_garage true (F64.dec 5 10) (F64.dec 90 100) scenarioB)
             (Some envelope_only_config) = Ok r
    /\ dict_keys (breakdown_kg_per_m2_bta r) = [Klimatskarm; Grund].
Proof.
  match eval vm_compute in
        (estimate (with_garage true (F64.dec 5 10) (F64.dec 90 100) scenarioB)
                  (Some envelope_only_config)) with
  | Ok ?r =>
      exists r; split; [vm_compute; reflexivity|];
      rewrite (X3_breakdown_keys
                 (with_garage true (F64.dec 5 10) (F64.dec 90 100) scenarioB)
                 (Some envelope_only_config) r)
  end.
  - reflexivity.
  - vm_compute. reflexivity.
Defined.

(** ** Exceptions *)

Lemma float_of_int_raise z e : float_of_int z = Raise e -> e = OverflowError.
Proof.
  unfold float_of_int. destruct (F64.of_Z z); try discriminate.
  intros [= <-]. reflexivity.
Qed.

Lemma float_of_int_pos_not_zero z f :
  0 < z -> float_of_int z = Ok f -> F64.is_zero f = false.
Proof.
  intros Hz H. destruct (float_of_int_pos_inv z f Hz H) as (m & e & ->).
  reflexivity.
Qed.

Lemma height_factor_raise inp e :
  height_factor inp = Raise e -> e = OverflowError /\ 2 ^ 1023 <= floors inp.
Proof.
  intros H.
  destruct (Z_lt_le_dec (floors inp) (2 ^ 1023)) as [Hlt|Hge].
  - destruct (height_factor_ok inp Hlt) as [hf E]. congruence.
  - split; [|assumption]. unfold height_factor in H.
    destruct (building_height_m inp) as [h|]; [|discriminate].
    destruct (F64.truthy h && (floors inp >? 0))%bool eqn:G; [|discriminate].
    apply andb_true_iff in G as [_ G]. apply Z.gtb_lt in G.
    destruct (float_of_int (floors inp)) as [fl|e'] eqn:Ef.
    + cbn [bind] in H.
      rewrite (fdiv_ok h fl) in H
        by exact (float_of_int_pos_not_zero _ _ G Ef).
      cbn [bind] in H.
      rewrite (fdiv_ok _ ref_floor_height) in H by reflexivity.
      discriminate.
    + cbn [bind] in H. injection H as <-.
      exact (float_of_int_raise _ _ Ef).
Qed.

Lemma lowrise_opt_raise inp e :
  lowrise_opt inp = Raise e ->
  e = OverflowError /\ floors inp <= - 2 ^ 1023 + 4.
Proof.
  intros H.
  destruct (Z_lt_le_dec (- 2 ^ 1023 + 4) (floors inp)) as [Hlt|Hge].
  - destruct (lowrise_opt_ok inp Hlt) as [lf E]. congruence.
  - split; [|assumption]. unfold lowrise_opt in H.
    destruct (floors inp <? 4); [|discriminate].
    destruct (float_of_int (4 - floors inp)) as [n|e'] eqn:Ef;
      [discriminate|].
    cbn [bind] in H. injection H as <-.
    exact (float_of_int_raise _ _ Ef).
Qed.

(** X4: under the default configuration the only exception that
    [estimate] can raise is OverflowError, and it raises it only for a
    floor count of at least 2^1023 or at most -2^1023 + 4, whose
    conversion to a float overflows; it never raises a KeyError or a
    ZeroDivisionError, whatever the floats of the input are. *)
Theorem X4_default_only_overflow inp e :
  estimate inp None = Raise e ->
  e = OverflowError
  /\ (2 ^ 1023 <= floors inp \/ floors inp <= - 2 ^ 1023 + 4).
Proof.
  intros H.
  destruct (height_factor inp) as [hf|e1] eqn:Hh.
  - destruct (lowrise_opt inp) as [lf|e2] eqn:Hl.
    + rewrite (estimate_closed_correct inp hf lf Hh Hl) in H. discriminate.
    + unfold estimate in H. cbn [config_or_default] in H.
      rewrite (breakdown_pre_lowrise_raise inp hf e2 Hh Hl) in H.
      injection H as <-.
      destruct (lowrise_opt_raise inp e2 Hl). auto.
  - unfold estimate in H. cbn [config_or_default] in H.
    rewrite (breakdown_pre_height_raise inp e1 Hh) in H.
    injection H as <-.
    destruct (height_factor_raise inp e1 Hh). auto.
Qed.

Lemma X4_default_only_overflow_witness :
  estimate (with_floors (- 2 ^ 1024) scenarioA) None = Raise OverflowError.
Proof.
  destruct (estimate (with_floors (- 2 ^ 1024) scenarioA) None)
    as [r|e] eqn:E.
  - vm_compute in E. discriminate.
  - destruct (X4_default_only_overflow _ e E) as [-> _]. reflexivity.
Defined.

Lemma dict_mem_map k (f : string * float -> float) d :
  dict_mem k (map (fun kv => (fst kv, f kv)) d) = dict_mem k d.
Proof. apply dict_mem_same_keys. apply dict_keys_map. Qed.

(** X5: a configuration is read lazily, and a missing or zero entry
    fails only where it is read.  (a) If the table of generic medians
    has no entry for the boundary of the input, [estimate] raises
    KeyError with that boundary as key, for every input.  (b) If that
    entry exists, the shares of the boundary list the envelope and the
    reference form factor of the configuration is zero, [estimate]
    raises ZeroDivisionError, for every input. *)
Theorem X5_config_errors inp cfg :
  (dict_get (boundary_key (system_boundary inp)) (median_kg_per_m2 cfg)
   = None ->
   estimate inp (Some cfg)
   = Raise (KeyError (boundary_key (system_boundary inp))))
  /\ (dict_mem (boundary_key (system_boundary inp)) (median_kg_per_m2 cfg)
      = true ->
      dict_mem Klimatskarm (shares_of cfg inp) = true ->
      F64.is_zero (ref_form_factor cfg) = true ->
      estimate inp (Some cfg) = Raise ZeroDivisionError).
Proof.
  split.
  - intros H. unfold estimate, breakdown_pre, dict_index.
    cbn [config_or_default]. rewrite H. reflexivity.
  - intros Hm Hk Hz. unfold estimate, breakdown_pre, dict_index.
    cbn [config_or_default]. cbv zeta. fold (shares_of cfg inp).
    unfold dict_mem in Hm.
    destruct (dict_get _ (median_kg_per_m2 cfg)) as [base|]; [|discriminate].
    cbn [bind]. unfold step2_envelope.
    rewrite dict_mem_map, Hk. unfold fdiv at 1. rewrite Hz. reflexivity.
Qed.

Lemma X5_config_errors_witness :
  estimate scenarioB
    (Some (with_median [("2022", F64.of_Z 318)] default_config))
  = Raise (KeyError "2027")
  /\ estimate scenarioB (Some (with_ref_form_factor f0 default_config))
     = Raise ZeroDivisionError.
Proof.
  split.
  - refine (proj1 (X5_config_errors scenarioB
                     (with_median [("2022", F64.of_Z 318)] default_config))
              _).
    reflexivity.
  - refine (proj2 (X5_config_errors scenarioB
                     (with_ref_form_factor f0 default_config)) _ _ _);
      reflexivity.
Defined.

Lemma step2_raise cfg inp b e :
  step2_envelope cfg inp b = Raise e ->
  (e = ZeroDivisionError
   /\ (F64.is_zero (ref_form_factor cfg) = true
       \/ F64.is_zero (window_mix (ref_window_ratio cfg)
                         (window_to_wall_intensity_ratio cfg)) = true))
  \/ (e = OverflowError /\ 2 ^ 1023 <= floors inp).
Proof.
  unfold step2_envelope.
  destruct (dict_mem Klimatskarm b) eqn:Hm; [|discriminate].
  unfold fdiv at 1.
  destruct (F64.is_zero (ref_form_factor cfg)) eqn:Z1.
  { intros [= <-]. auto. }
  cbn [bind].
  destruct (height_factor inp) as [hf|e1] eqn:Hh.
  2:{ cbn [bind]. intros [= <-]. right.
      exact (height_factor_raise inp e1 Hh). }
  cbn [bind]. unfold fdiv.
  destruct (F64.is_zero (window_mix (ref_window_ratio cfg) _)) eqn:Z2.
  { intros [= <-]. auto. }
  cbn [bind]. unfold dict_imul. unfold dict_mem in Hm.
  destruct (dict_get Klimatskarm b); discriminate.
Qed.

Lemma step3_raise inp b e :
  step3_lowrise inp b = Raise e ->
  e = OverflowError /\ floors inp <= - 2 ^ 1023 + 4.
Proof.
  intros H.
  destruct (Z_lt_le_dec (- 2 ^ 1023 + 4) (floors inp)) as [Hlt|Hge].
  - destruct (step3_ok inp b Hlt) as (b' & E & _). congruence.
  - split; [|assumption]. unfold step3_lowrise in H.
    destruct (floors inp <? 4); [|discriminate].
    destruct (float_of_int (4 - floors inp)) as [n|e'] eqn:Ef.
    + cbn [bind] in H.
      destruct (dict_imul_if_mem_ok Grund (lowrise_factor n) b)
        as (b1 & E1 & _).
      rewrite E1 in H. cbn [bind] in H.
      destruct (dict_imul_if_mem_ok Klimatskarm (lowrise_factor n) b1)
        as (b2 & E2 & _).
      congruence.
    + cbn [bind] in H. injection H as <-.
      exact (float_of_int_raise _ _ Ef).
Qed.

Lemma step5_total cfg inp b : exists b', step5_below_grade cfg inp b = Ok b'.
Proof.
  unfold step5_below_grade. cbv zeta.
  destruct (underground_garage inp); [|eauto].
  destruct (garage_add_ok cfg inp) as [a ->]. cbn [bind]. eauto.
Qed.

Lemma breakdown_pre_raise cfg inp e :
  breakdown_pre cfg inp = Raise e ->
  (e = KeyError (boundary_key (system_boundary inp))
   /\ dict_get (boundary_key (system_boundary inp)) (median_kg_per_m2 cfg)
      = None)
  \/ (e = ZeroDivisionError
      /\ (F64.is_zero (ref_form_factor cfg) = true
          \/ F64.is_zero (window_mix (ref_window_ratio cfg)
                            (window_to_wall_intensity_ratio cfg)) = true))
  \/ (e = OverflowError
      /\ (2 ^ 1023 <= floors inp \/ floors inp <= - 2 ^ 1023 + 4)).
Proof.
  unfold breakdown_pre, dict_index. cbv zeta.
  destruct (dict_get _ (median_kg_per_m2 cfg)) as [base|] eqn:Eb.
  2:{ intros [= <-]. auto. }
  cbn [bind].
  destruct (step2_envelope cfg inp _) as [b2|e2] eqn:E2.
  2:{ cbn [bind]. intros [= <-].
      destruct (step2_raise _ _ _ _ E2) as [[-> H]|[-> H]]; auto. }
  cbn [bind].
  destruct (step3_lowrise inp b2) as [b3|e3] eqn:E3.
  2:{ cbn [bind]. intros [= <-].
      destruct (step3_raise _ _ _ E3) as [-> H]. auto. }
  cbn [bind].
  destruct (step4_ok cfg inp b3) as (b4 & -> & _). cbn [bind].
  destruct (step5_total cfg inp b4) as (b5 & ->). discriminate.
Qed.

Lemma step6_raise cfg inp b ns e :
  step6_improved cfg inp (b, ns) = Raise e ->
  climate_improved_materials inp = true
  /\ ((e = KeyError (boundary_key (system_boundary inp))
       /\ (dict_get (boundary_key (system_boundary inp))
             (median_kg_per_m2_climate_improved cfg) = None
           \/ dict_get (boundary_key (system_boundary inp))
                (median_kg_per_m2 cfg) = None))
      \/ (e = ZeroDivisionError
          /\ exists g,
               dict_get (boundary_key (system_boundary inp))
                 (median_kg_per_m2 cfg) = Some g
               /\ F64.is_zero g = true)).
Proof.
  unfold step6_improved, dict_index. intros H.
  destruct (climate_improved_materials inp); [|discriminate].
  split; [reflexivity|].
  destruct (dict_get _ (median_kg_per_m2_climate_improved cfg)) as [gi|].
  2:{ injection H as <-. auto. }
  cbn [bind] in H.
  destruct (dict_get _ (median_kg_per_m2 cfg)) as [gg|] eqn:Eg.
  2:{ injection H as <-. auto. }
  cbn [bind] in H.
  destruct (F64.gtb _ f0 && F64.gtb _ f0)%bool eqn:G; [|discriminate].
  apply andb_true_iff in G as [_ Ga].
  unfold fdiv in H. destruct (F64.is_zero gg) eqn:Zg.
  { injection H as <-. right. eauto. }
  cbn [bind] in H.
  match type of H with
  | context [reduce_keys ?tr ?asum ?ks ?b0] =>
      destruct (reduce_keys_ok tr asum ks b0 (gtb_f0_not_zero _ Ga))
        as (b' & E & _); rewrite E in H
  end.
  discriminate.
Qed.

(** X6: for every input and configuration, [estimate] raises only these
    exceptions, each for its own cause: KeyError with the boundary as
    key, when the generic medians, or with the climate-improved flag set
    the improved medians, have no entry for the boundary; KeyError with
    the structural system as key, when no timber override is given and
    the timber table has no entry for the system; ZeroDivisionError, when
    the reference form factor is zero, or the reference window mix is
    zero, or the flag is set and the generic median of the boundary is
    zero; OverflowError, when the floor count is at least 2^1023 or at
    most -2^1023 + 4.  In particular no category of the breakdown ever
    raises a KeyError: every access is guarded. *)
Theorem X6_exceptions inp cfg e :
  estimate inp (Some cfg) = Raise e ->
  (e = KeyError (boundary_key (system_boundary inp))
   /\ (dict_get (boundary_key (system_boundary inp)) (median_kg_per_m2 cfg)
       = None
       \/ (climate_improved_materials inp = true
           /\ dict_get (boundary_key (system_boundary inp))
                (median_kg_per_m2_climate_improved cfg) = None)))
  \/ (e = KeyError (system_key (structural_system inp))
      /\ timber_t_per_m2_override inp = None
      /\ dict_get (system_key (structural_system inp))
           (timber_t_per_m2_default_by_system cfg) = None)
  \/ (e = ZeroDivisionError
      /\ (F64.is_zero (ref_form_factor cfg) = true
          \/ F64.is_zero (window_mix (ref_window_ratio cfg)
                            (window_to_wall_intensity_ratio cfg)) = true
          \/ (climate_improved_materials inp = true
              /\ exists g,
                   dict_get (boundary_key (system_boundary inp))
                     (median_kg_per_m2 cfg) = Some g
                   /\ F64.is_zero g = true)))
  \/ (e = OverflowError
      /\ (2 ^ 1023 <= floors inp \/ floors inp <= - 2 ^ 1023 + 4)).
Proof.
  unfold estimate. cbn [config_or_default]. cbv zeta.
  destruct (breakdown_pre cfg inp) as [b5|e5] eqn:E5.
  2:{ cbn [bind]. intros [= <-].
      destruct (breakdown_pre_raise _ _ _ E5)
        as [[-> H]|[[-> H]|[-> H]]].
      - left. auto.
      - right. right. left. split; [reflexivity|]. tauto.
      - right. right. right. auto. }
  cbn [bind].
  destruct (step6_improved cfg inp (b5, validate_inputs inp))
    as [[b6 ns]|e6] eqn:E6.
  2:{ cbn [bind]. intros [= <-].
      destruct (step6_raise _ _ _ _ _ E6) as [Hon [[-> H]|[-> H]]].
      - left. split; [reflexivity|]. destruct H as [H|H]; auto.
      - right. right. left. split; [reflexivity|]. auto. }
  cbn [bind]. unfold timber_mass, dict_index.
  destruct (timber_t_per_m2_override inp) as [v|] eqn:Ev.
  { cbn [bind]. rewrite !fdiv_ok by (vm_compute; reflexivity). discriminate. }
  destruct (dict_get _ (timber_t_per_m2_default_by_system cfg)) eqn:Et.
  { cbn [bind]. rewrite !fdiv_ok by (vm_compute; reflexivity). discriminate. }
  cbn [bind]. intros [= <-]. right. left. auto.
Qed.

Lemma X6_exceptions_witness :
  estimate (with_system Stal scenarioA)
    (Some (with_timber_table [("Betong", F64.dec 5 1000)] default_config))
  = Raise (KeyError "Stål").
Proof.
  destruct (estimate (with_system Stal scenarioA)
              (Some (with_timber_table [("Betong", F64.dec 5 1000)]
                       default_config))) as [r|e] eqn:E.
  - vm_compute in E. discriminate.
  - destruct (X6_exceptions _ _ e E) as [[He H]|[[He H]|[[He H]|[He H]]]].
    + exfalso. destruct H as [H|[H _]]; vm_compute in H; discriminate.
    + rewrite He. reflexivity.
    + exfalso. destruct H as [H|[H|[H _]]]; vm_compute in H; discriminate.
    + exfalso. change (floors (with_system Stal scenarioA)) with 6 in H. lia.
Defined.

(** ** What is read only when it is needed *)

(** X7: the configuration is read lazily.  With a timber override in the
    input, [estimate] never reads the timber table: replacing the table
    by any other, the empty one included, changes nothing.  With the
    climate-improved flag off it never reads the improved medians. *)
Theorem X7_config_lazy inp cfg d :
  (timber_t_per_m2_override inp <> None ->
   estimate inp (Some (with_timber_table d cfg)) = estimate inp (Some cfg))
  /\ (climate_improved_materials inp = false ->
      estimate inp (Some (with_median_improved d cfg))
      = estimate inp (Some cfg)).
Proof.
  split.
  - intros Hov. unfold estimate. cbn [config_or_default]. cbv zeta.
    change (breakdown_pre (with_timber_table d cfg) inp)
      with (breakdown_pre cfg inp).
    destruct (breakdown_pre cfg inp) as [b5|e]; [|reflexivity].
    cbn [bind].
    change (step6_improved (with_timber_table d cfg) inp)
      with (step6_improved cfg inp).
    destruct (step6_improved cfg inp _) as [[b6 ns]|e]; [|reflexivity].
    cbn [bind]. unfold timber_mass.
    destruct (timber_t_per_m2_override inp); [reflexivity|congruence].
  - intros Hoff. unfold estimate. cbn [config_or_default]. cbv zeta.
    change (breakdown_pre (with_median_improved d cfg) inp)
      with (breakdown_pre cfg inp).
    destruct (breakdown_pre cfg inp) as [b5|e]; [|reflexivity].
    cbn [bind]. unfold step6_improved. rewrite Hoff. reflexivity.
Qed.

Lemma X7_config_lazy_witness :
  estimate (with_timber_override (Some (F64.dec 3 100)) scenarioA)
    (Some (with_timber_table [] default_config))
  = estimate (with_timber_override (Some (F64.dec 3 100)) scenarioA)
      (Some default_config).
Proof.
  refine (proj1 (X7_config_lazy _ default_config []) _). discriminate.
Defined.

Lemma validate_ranges_nil inp :
  in_validated_ranges inp = true -> validate_inputs inp = [].
Proof.
  unfold in_validated_ranges. intros H.
  do 5 (apply andb_true_iff in H; destruct H as [H ?H]).
  unfold validate_inputs.
  apply negb_true_iff in H0. rewrite H, H1, H2, H4, H0.
  apply Z.leb_le in H3.
  assert (Hf : (floors inp <? 1) = false) by (apply Z.ltb_ge; lia).
  rewrite Hf. reflexivity.
Qed.

(** X8: the validator returns no note exactly when all six of its tests
    pass: form factor in [0.2, 1.5], window ratio in [0, 0.9], at least
    one floor, parking ratio in [0, 2], heated-area ratio in [0.7, 1.0],
    and an applicability that is neither below 0 nor above 1. *)
Theorem X8_validate_empty inp :
  validate_inputs inp = [] <-> in_validated_ranges inp = true.
Proof.
  split.
  - unfold in_validated_ranges.
    intros H. destruct (validate_nil_app inp H) as [H0 H1].
    apply validate_nil in H as (Hff & Hw & Hf & Hp & Ha).
    rewrite Hff, Hw, Hp, Ha, H0, H1.
    apply Z.leb_le in Hf. rewrite Hf. reflexivity.
  - exact (validate_ranges_nil inp).
Qed.

Lemma note_if_In c s x : In x (note_if c s) -> c = true /\ x = s.
Proof. destruct c; simpl; [intros [<-|[]]; auto|tauto]. Qed.

Lemma is_nan_eq x : F64.is_nan x = true -> x = S754_nan.
Proof. destruct x; try discriminate. reflexivity. Qed.

Lemma between_nan lo hi : between lo S754_nan hi = false.
Proof. unfold between. destruct lo as [s|s| |s m e]; reflexivity. Qed.

(** X9: how the validator treats a NaN.  Its four range tests are written
    [not (lo <= x <= hi)], which a NaN fails: a NaN form factor, window
    ratio, parking ratio or heated-area ratio gets its advisory.  The
    test of the applicability is written [x < 0 or x > 1], which a NaN
    passes: a NaN applicability never gets the applicability advisory. *)
Theorem X9_validate_nan inp :
  (F64.is_nan (form_factor inp) = true ->
   In note_form_factor (validate_inputs inp))
  /\ (F64.is_nan (window_ratio inp) = true ->
      In note_window_ratio (validate_inputs inp))
  /\ (F64.is_nan (parking_ratio inp) = true ->
      In note_parking (validate_inputs inp))
  /\ (F64.is_nan (atemp_to_bta inp) = true ->
      In note_atemp (validate_inputs inp))
  /\ (F64.is_nan (climate_improved_applicability inp) = true ->
      ~ In note_applicability (validate_inputs inp)).
Proof.
  unfold validate_inputs.
  split; [|split; [|split; [|split]]].
  - intros H. apply is_nan_eq in H. rewrite H, between_nan.
    apply in_or_app. left. left. reflexivity.
  - intros H. apply is_nan_eq in H. rewrite H, between_nan.
    apply in_or_app. right. apply in_or_app. left. left. reflexivity.
  - intros H. apply is_nan_eq in H. rewrite H, between_nan.
    do 3 (apply in_or_app; right). apply in_or_app. left. left. reflexivity.
  - intros H. apply is_nan_eq in H. rewrite H, between_nan.
    do 4 (apply in_or_app; right). apply in_or_app. left. left. reflexivity.
  - intros H. apply is_nan_eq in H. rewrite H. intros Hin.
    change (F64.ltb S754_nan f0 || F64.gtb S754_nan f1)%bool with false
      in Hin.
    repeat (apply in_app_or in Hin; destruct Hin as [Hin|Hin]);
      apply note_if_In in Hin as [Hc He]; try discriminate He.
    discriminate Hc.
Qed.

Lemma X9_validate_nan_witness :
  In note_form_factor (validate_inputs (with_form_factor S754_nan scenarioA))
  /\ ~ In note_applicability
         (validate_inputs (with_applicability S754_nan scenarioA)).
Proof.
  split.
  - exact (proj1 (X9_validate_nan (with_form_factor S754_nan scenarioA))
             eq_refl).
  - exact (proj2 (proj2 (proj2 (proj2
             (X9_validate_nan (with_applicability S754_nan scenarioA)))))
             eq_refl).
Defined.

(** ** Inputs that are not used *)

Lemma breakdown_pre_garage_off cfg inp pr at_ :
  underground_garage inp = false ->
  breakdown_pre cfg (with_garage false pr at_ inp) = breakdown_pre cfg inp.
Proof.
  intros H. unfold breakdown_pre, step5_below_grade. rewrite H.
  reflexivity.
Qed.

Lemma same_outcome_tail inp inp' cfg b5 ns ns' :
  climate_improved_materials inp' = climate_improved_materials inp ->
  step6_improved cfg inp' (b5, []) = step6_improved cfg inp (b5, []) ->
  timber_mass cfg inp' = timber_mass cfg inp ->
  same_outcome_but_notes
    (st <- step6_improved cfg inp' (b5, ns') ;;
     let '(b6, notes6) := st in
     let total := fsum (dict_values b6) in
     timber_t <- timber_mass cfg inp' ;;
     let delta := F64.sub total reference_threshold in
     pct <- fdiv delta reference_threshold ;;
     let delta_pct := F64.mul pct (F64.of_Z 100) in
     t1000 <- fdiv total (F64.of_Z 1000) ;;
     Ok {| total_kg_per_m2_bta := total;
           total_t_per_m2_bta := t1000;
           reference_kg_per_m2_bta := reference_threshold;
           delta_vs_reference_kg := delta;
           delta_vs_reference_percent := delta_pct;
           breakdown_kg_per_m2_bta := b6;
           timber_t_per_m2_bta := timber_t;
           notes := notes6 |})
    (st <- step6_improved cfg inp (b5, ns) ;;
     let '(b6, notes6) := st in
     let total := fsum (dict_values b6) in
     timber_t <- timber_mass cfg inp ;;
     let delta := F64.sub total reference_threshold in
     pct <- fdiv delta reference_threshold ;;
     let delta_pct := F64.mul pct (F64.of_Z 100) in
     t1000 <- fdiv total (F64.of_Z 1000) ;;
     Ok {| total_kg_per_m2_bta := total;
           total_t_per_m2_bta := t1000;
           reference_kg_per_m2_bta := reference_threshold;
           delta_vs_reference_kg := delta;
           delta_vs_reference_percent := delta_pct;
           breakdown_kg_per_m2_bta := b6;
           timber_t_per_m2_bta := timber_t;
           notes := notes6 |}).
Proof.
  intros _ E6 Et.
  rewrite (step6_notes cfg inp' b5 ns'), (step6_notes cfg inp b5 ns), E6, Et.
  destruct (step6_improved cfg inp (b5, [])) as [[b6 n6]|e];
    [|reflexivity].
  cbn [bind fst snd].
  destruct (timber_mass cfg inp) as [t|e]; [|reflexivity].
  cbn [bind]. rewrite !fdiv_ok by (vm_compute; reflexivity).
  cbn [bind same_outcome_but_notes]. unfold same_numbers.
  cbn. repeat split.
Qed.

(** X10: without the garage flag, the parking ratio and the heated-area
    ratio are used by the validator only: changing them changes no
    number of the result (total, delta, breakdown, timber mass) and not
    whether, or with which exception, [estimate] fails; only the notes
    can differ.  This holds for every configuration. *)
Theorem X10_garage_inputs_unused inp cfg pr at_ :
  underground_garage inp = false ->
  same_outcome_but_notes (estimate (with_garage false pr at_ inp) cfg)
                         (estimate inp cfg).
Proof.
  intros H. unfold estimate. cbv zeta.
  rewrite (breakdown_pre_garage_off _ inp pr at_ H).
  destruct (breakdown_pre (config_or_default cfg) inp) as [b5|e];
    [|reflexivity].
  cbn [bind]. apply same_outcome_tail; reflexivity.
Qed.

Lemma X10_garage_inputs_unused_witness :
  same_outcome_but_notes
    (estimate (with_garage false (F64.of_Z 7) S754_nan scenarioA) None)
    (estimate scenarioA None).
Proof. apply (X10_garage_inputs_unused scenarioA None). reflexivity. Defined.

(** X11: without the climate-improved flag, the applicability is used by
    the validator only: changing it changes no number of the result and
    not whether, or with which exception, [estimate] fails; only the
    notes can differ.  This holds for every configuration. *)
Theorem X11_applicability_unused inp cfg x :
  climate_improved_materials inp = false ->
  same_outcome_but_notes (estimate (with_applicability x inp) cfg)
                         (estimate inp cfg).
Proof.
  intros H. unfold estimate. cbv zeta.
  change (breakdown_pre (config_or_default cfg) (with_applicability x inp))
    with (breakdown_pre (config_or_default cfg) inp).
  destruct (breakdown_pre (config_or_default cfg) inp) as [b5|e];
    [|reflexivity].
  cbn [bind]. apply same_outcome_tail; [reflexivity| |reflexivity].
  unfold step6_improved.
  change (climate_improved_materials (with_applicability x inp))
    with (climate_improved_materials inp).
  rewrite H. reflexivity.
Qed.

Lemma X11_applicability_unused_witness :
  same_outcome_but_notes
    (estimate (with_applicability (F64.of_Z 5) scenarioA) None)
    (estimate scenarioA None).
Proof. apply (X11_applicability_unused scenarioA None). reflexivity. Defined.

(** ** Positive sums *)

Lemma positive_float_gtb x : positive_float x -> F64.gtb x f0 = true.
Proof. destruct x as [[]|[]| |[] m e]; simpl; try tauto; reflexivity. Qed.

Lemma FP_positive a b x : F64.FP a b x -> F64.emin < a -> positive_float x.
Proof.
  destruct x as [s|s| |[] m e]; simpl; try tauto. lia.
Qed.

Lemma positive_float_P0 x : positive_float x -> F64.P0 x.
Proof. destruct x as [[]|[]| |[] m e]; simpl; tauto. Qed.

Lemma add_finite_positive mx ex my ey :
  F64.emin < F64.mag mx ex ->
  positive_float (F64.add (S754_finite false mx ex) (S754_finite false my ey)).
Proof.
  intros Hx. rewrite add_finite_pos.
  set (ez := Z.min ex ey).
  pose proof (shl_align_le mx ex ez ltac:(lia)) as Ex.
  pose proof (shl_align_le my ey ez ltac:(lia)) as Ey.
  set (px := fst (shl_align mx ex ez)) in *.
  set (py := fst (shl_align my ey ez)) in *.
  pose proof (binary_round_mag false (px + py) ez) as H.
  pose proof (Zdigits2_add (Zpos px) (Zpos py) ltac:(lia) ltac:(lia)) as Hd.
  rewrite <- Pos2Z.inj_add in Hd.
  rewrite Ex in Hd.
  rewrite !Zdigits2_shiftl in Hd by lia.
  unfold F64.mag in *. unfold F64.emin in *.
  change (Zdigits2 (Z.pos mx)) with (Z.pos (digits2_pos mx)) in Hd.
  change (Zdigits2 (Z.pos (px + py)))
    with (Z.pos (digits2_pos (px + py))) in Hd.
  destruct (binary_round F64.prec F64.emax false (px + py) ez)
    as [s|s| |s m e]; try contradiction.
  - lia.
  - destruct H as [-> _]. exact I.
  - destruct H as (-> & Hr1 & Hr2 & _). unfold positive_float, F64.mag.
    unfold F64.emin. lia.
Qed.

Lemma add_comm_finite mx ex my ey :
  F64.add (S754_finite false mx ex) (S754_finite false my ey)
  = F64.add (S754_finite false my ey) (S754_finite false mx ex).
Proof.
  rewrite !add_finite_pos. rewrite (Z.min_comm ey ex).
  rewrite (Pos.add_comm (fst (shl_align my ey (Z.min ex ey)))). reflexivity.
Qed.

Lemma add_positive_l x y :
  positive_float x -> F64.P0 y -> positive_float (F64.add x y).
Proof.
  destruct x as [[]|[]| |[] mx ex]; destruct y as [[]|[]| |[] my ey];
    try (simpl; tauto).
  intros Hx _. apply add_finite_positive. exact Hx.
Qed.

Lemma add_positive_r x y :
  F64.P0 x -> positive_float y -> positive_float (F64.add x y).
Proof.
  destruct x as [[]|[]| |[] mx ex]; destruct y as [[]|[]| |[] my ey];
    try (simpl; tauto).
  intros _ Hy. rewrite add_comm_finite. apply add_finite_positive. exact Hy.
Qed.

(** ** The configuration of the app: another window intensity *)

Lemma r_win_FP r :
  F64.valid r = true -> between (F64.dec 15 10) r (F64.of_Z 8) = true ->
  F64.FP 1 4 r.
Proof.
  intros Hv H.
  pose proof (between_PF (F64.dec 15 10) r (F64.of_Z 8)
                ltac:(fp_const) ltac:(fp_const) H) as Hpf.
  destruct r as [[]|[]| |[] m e]; try contradiction.
  unfold between in H. apply andb_true_iff in H as [H1 H2].
  change (F64.dec 15 10) with (S754_finite false 6755399441055744 (-52)) in H1.
  change (F64.of_Z 8) with (S754_finite false 4503599627370496 (-49)) in H2.
  apply leb_finite in H1. apply leb_finite in H2.
  apply bounded_inv in Hv as [Hc _]. unfold F64.fx, F64.emin in Hc.
  unfold F64.FP. lia.
Qed.

Lemma window_mix_with_FP w r :
  F64.valid w = true -> between f0 w (F64.dec 9 10) = true ->
  F64.FP 1 4 r ->
  F64.FP (-3) 7 (window_mix w r).
Proof.
  intros Hv H Hr.
  destruct (window_ratio_cases w Hv H) as [[s ->] | (m & e & -> & Hb & Hle)].
  - destruct r as [|[]| |[] mr er]; try contradiction.
    destruct s; fp_const.
  - unfold window_mix.
    assert (Hw : F64.NN 0 (S754_finite false m e)).
    { destruct (bounded_digits m e Hb) as [_ Hm]. unfold F64.NN. lia. }
    assert (H1 : F64.FP 1 1 f1) by fp_const.
    pose proof (mul_NN_FP 0 1 4 _ _ Hw Hr ltac:(unfold F64.emin; lia)
                  ltac:(lia)) as Hm4.
    pose proof (sub_one_FP m e Hb Hle) as Hs.
    change (S754_finite false 4503599627370496 (-52)) with f1 in Hs.
    pose proof (mul_FP (-3) 1 1 1 _ _ Hs H1 ltac:(unfold F64.emin; lia)
                  ltac:(lia)) as Hm1.
    pose proof (add_NN_FP _ _ _ _ _ Hm4 Hm1 ltac:(unfold F64.emin; lia)
                  ltac:(lia)) as Ha.
    eapply FP_weaken; [exact Ha|lia|lia].
Qed.

Lemma window_mix_ref_FP r :
  F64.FP 1 4 r -> F64.FP (-3) 7 (window_mix (F64.dec 20 100) r).
Proof.
  apply window_mix_with_FP; vm_compute; reflexivity.
Qed.

Lemma FP_not_zero a b x : F64.FP a b x -> F64.is_zero x = false.
Proof. destruct x as [|[]| |[] m e]; simpl; try tauto. Qed.

Lemma klimat_with_P0 r inp hf lf :
  F64.FP 1 4 r ->
  F64.valid (window_ratio inp) = true ->
  between (F64.dec 2 10) (form_factor inp) (F64.dec 15 10) = true ->
  between f0 (window_ratio inp) (F64.dec 9 10) = true ->
  1 <= floors inp -> lowrise_opt inp = Ok lf ->
  height_factor inp = Ok hf ->
  F64.P0 (klimat_with r inp hf lf).
Proof.
  intros Hr Hv Hff Hw Hf Hl Hh. unfold klimat_with.
  assert (He : F64.P0 (envelope_with r inp hf)).
  { unfold envelope_with, envelope_factor.
    apply mul_P0_PF; [apply mul_P0_PF|].
    - apply quot_P0_PF; [|fp_const].
      apply PF_P0. apply form_factor_PF. assumption.
    - exact (height_factor_PF inp hf Hh).
    - pose proof (window_mix_with_FP _ r Hv Hw Hr) as Hn.
      pose proof (window_mix_ref_FP r Hr) as Hd.
      pose proof (quot_FP _ _ _ _ _ _ Hn Hd ltac:(unfold F64.emin; lia)
                    ltac:(lia)) as Hq.
      exact (FP_PF _ _ _ Hq). }
  assert (Hk : F64.P0 (F64.mul (F64.mul (base_of (system_boundary inp))
                                  (share_of (system_boundary inp) Klimatskarm))
                               (envelope_with r inp hf))).
  { apply mul_PF_P0; [|assumption].
    destruct (system_boundary inp); fp_const. }
  unfold scale_opt.
  destruct (lowrise_opt_cases inp lf Hf Hl) as [-> | [-> | [-> | ->]]];
    [assumption| | |]; (apply mul_P0_PF; [assumption|fp_const]).
Qed.

Lemma stomme_pre_positive inp : positive_float (stomme_pre inp).
Proof.
  unfold stomme_pre, struct_mult, heavy_mult, system_struct_mult.
  destruct (method_mult_cases inp) as [-> | [-> | ->]];
    destruct (system_boundary inp), (heavy_concrete_design inp),
      (structural_system inp); vm_compute; reflexivity.
Qed.

Lemma inner_pre_positive inp : positive_float (inner_pre inp).
Proof.
  unfold inner_pre, struct_mult, heavy_mult, system_struct_mult.
  destruct (method_mult_cases inp) as [-> | [-> | ->]];
    destruct (system_boundary inp), (heavy_concrete_design inp),
      (structural_system inp); vm_compute; reflexivity.
Qed.

Lemma breakdown_pre_closed_with r inp hf lf :
  F64.is_zero (window_mix (F64.dec 20 100) r) = false ->
  height_factor inp = Ok hf ->
  lowrise_opt inp = Ok lf ->
  breakdown_pre (with_window_intensity r default_config) inp
  = Ok (pre_closed_with r inp hf lf).
Proof.
  intros Hz Hh Hl.
  unfold breakdown_pre, pre_closed_with, tail_of, stomme_pre, grund_pre,
    grund_base, klimat_with,
    inner_pre, ytskikt_pre, envelope_with, garage_of, share_of, base_of,
    step2_envelope, step3_lowrise, step4_structure, step5_below_grade,
    garage_add.
  unfold lowrise_opt in Hl.
  rewrite Hh.
  rewrite (fdiv_ok (form_factor inp)) by (vm_compute; reflexivity).
  rewrite (fdiv_ok (window_mix (window_ratio inp) _)) by exact Hz.
  rewrite (fdiv_ok (parking_ratio inp) (F64.dec 5 10))
    by (vm_compute; reflexivity).
  change (struct_mult (with_window_intensity r default_config) inp)
    with (struct_mult default_config inp).
  unfold with_window_intensity.
  destruct (system_boundary inp) eqn:Eb.
  - dict_eval.
    destruct (floors inp <? 4).
    + destruct (float_of_int (4 - floors inp)) as [n|]; [|discriminate].
      cbn [bind] in Hl. injection Hl as <-. dict_eval.
      destruct (basement inp), (underground_garage inp); reflexivity.
    + injection Hl as <-. dict_eval.
      destruct (basement inp), (underground_garage inp); reflexivity.
  - dict_eval.
    destruct (floors inp <? 4).
    + destruct (float_of_int (4 - floors inp)) as [n|]; [|discriminate].
      cbn [bind] in Hl. injection Hl as <-. dict_eval.
      destruct (basement inp), (underground_garage inp); reflexivity.
    + injection Hl as <-. dict_eval.
      destruct (basement inp), (underground_garage inp); reflexivity.
Qed.

Lemma breakdown_pre_with_inv r inp b :
  F64.is_zero (window_mix (F64.dec 20 100) r) = false ->
  breakdown_pre (with_window_intensity r default_config) inp = Ok b ->
  exists hf lf,
    height_factor inp = Ok hf /\ lowrise_opt inp = Ok lf
    /\ b = pre_closed_with r inp hf lf.
Proof.
  intros Hz H.
  destruct (height_factor inp) as [hf|e] eqn:Hh.
  - destruct (lowrise_opt inp) as [lf|e] eqn:Hl.
    + rewrite (breakdown_pre_closed_with r inp hf lf Hz Hh Hl) in H.
      injection H as <-. eauto.
    + exfalso. revert H.
      unfold breakdown_pre, step2_envelope, step3_lowrise.
      unfold lowrise_opt in Hl. rewrite Hh.
      rewrite (fdiv_ok (form_factor inp)) by (vm_compute; reflexivity).
      rewrite (fdiv_ok (window_mix (window_ratio inp) _)) by exact Hz.
      destruct (floors inp <? 4); [|discriminate].
      destruct (float_of_int (4 - floors inp)) as [n|e']; [discriminate|].
      unfold with_window_intensity.
      destruct (system_boundary inp); dict_eval; discriminate.
  - exfalso. revert H. unfold breakdown_pre, step2_envelope. rewrite Hh.
    rewrite (fdiv_ok (form_factor inp)) by (vm_compute; reflexivity).
    unfold with_window_intensity.
    destruct (system_boundary inp); dict_eval; discriminate.
Qed.

Lemma fsum_snoc xs x : fsum (xs ++ [x]) = F64.add (fsum xs) x.
Proof. unfold fsum. rewrite fold_left_app. reflexivity. Qed.

(** Within the validated ranges the sums that guard the reduction are
    positive, and so is the total of the result. *)
Lemma estimate_with_in_range r inp res :
  F64.FP 1 4 r ->
  floats_valid inp = true ->
  validate_inputs inp = [] ->
  estimate inp (Some (with_window_intensity r default_config)) = Ok res ->
  notes res = [] /\ positive_float (total_kg_per_m2_bta res).
Proof.
  intros Hr Hv Hn H.
  pose proof (FP_not_zero _ _ _ (window_mix_ref_FP r Hr)) as Hz.
  destruct (estimate_inv _ _ _ H) as (b5 & b6 & ns & t & E5 & E6 & Et & ->).
  cbn [config_or_default] in E5, E6.
  destruct (breakdown_pre_with_inv r inp b5 Hz E5)
    as (hf & lf & Hh & Hl & ->).
  pose proof Hn as Hn'.
  apply validate_nil in Hn' as (Hff & Hw & Hf & Hp & Ha).
  unfold floats_valid in Hv.
  repeat (apply andb_true_iff in Hv; destruct Hv as [Hv ?Hv]).
  pose proof (grund_pre_P0 inp lf ltac:(assumption) Hp Ha Hf Hl) as HG.
  pose proof (klimat_with_P0 r inp hf lf Hr ltac:(assumption) Hff Hw Hf Hl Hh)
    as HK.
  pose proof (stomme_pre_positive inp) as HS.
  pose proof (inner_pre_positive inp) as HI.
  change (step6_improved (with_window_intensity r default_config) inp
            (pre_closed_with r inp hf lf, validate_inputs inp))
    with (step6_improved default_config inp
            (pre_closed_with r inp hf lf, validate_inputs inp)) in E6.
  unfold pre_closed_with in E6.
  rewrite (step6_closed_correct inp _ _ _ _ (tail_of inp) _
             (tail_of_cases inp)) in E6.
  injection E6 as E6. rewrite Hn in E6.
  set (s := stomme_pre inp) in *. set (g := grund_pre inp lf) in *.
  set (k := klimat_with r inp hf lf) in *. set (i := inner_pre inp) in *.
  assert (Hsg : positive_float (F64.add (F64.add f0 s) g)).
  { apply add_positive_l; [|exact HG].
    apply add_positive_r; [exact I|exact HS]. }
  assert (Hasum : positive_float (fsum [s; g; k])).
  { change (fsum [s; g; k]) with (F64.add (F64.add (F64.add f0 s) g) k).
    apply add_positive_l; assumption. }
  assert (Htl : forall a, positive_float a ->
                  positive_float (fold_left F64.add (dict_values (tail_of inp)) a)).
  { intros a Hpa. unfold tail_of. destruct (system_boundary inp); [exact Hpa|].
    cbn [dict_values map snd fold_left].
    apply add_positive_l; [exact Hpa|apply ytskikt_pre_P0]. }
  assert (Htot : forall s' g' k',
             F64.P0 s' -> F64.P0 g' -> F64.P0 k' ->
             positive_float
               (fsum (dict_values
                        ([(Stomme, s'); (Grund, g'); (Klimatskarm, k');
                          (Innervaggar, i)] ++ tail_of inp)))).
  { intros s' g' k' Hs' Hg' Hk'. unfold fsum, dict_values.
    rewrite map_app, fold_left_app. apply Htl.
    cbn [map snd fold_left]. apply add_positive_r; [|exact HI].
    apply add_P0_P0; [|exact Hk'].
    apply add_P0_P0; [|exact Hg'].
    apply add_P0_P0; [exact I|exact Hs']. }
  unfold step6_closed in E6. cbv zeta in E6.
  unfold result_of. cbn [notes total_kg_per_m2_bta fst snd].
  destruct (climate_improved_materials inp).
  - pose proof (positive_float_gtb _
                  (Htot s g k (positive_float_P0 _ HS) HG HK)) as G1.
    pose proof (positive_float_gtb _ Hasum) as G2.
    match type of E6 with
    | (if ?c then _ else _) = _ =>
        replace c with true in E6
          by (symmetry; apply andb_true_intro; split; [exact G1|exact G2])
    end.
    injection E6 as <- <-. split; [reflexivity|].
    apply Htot; apply reduced_P0.
  - injection E6 as <- <-. split; [reflexivity|].
    apply Htot; [exact (positive_float_P0 _ HS)|exact HG|exact HK].
Qed.

Lemma estimate_with_ok r inp :
  F64.FP 1 4 r ->
  - 2 ^ 1023 + 4 < floors inp < 2 ^ 1023 ->
  exists res,
    estimate inp (Some (with_window_intensity r default_config)) = Ok res.
Proof.
  intros Hr [Hlo Hhi].
  pose proof (FP_not_zero _ _ _ (window_mix_ref_FP r Hr)) as Hz.
  destruct (height_factor_ok inp Hhi) as [hf Hh].
  destruct (lowrise_opt_ok inp Hlo) as [lf Hl].
  pose proof (breakdown_pre_closed_with r inp hf lf Hz Hh Hl) as E5.
  pose proof (step6_closed_correct inp (stomme_pre inp) (grund_pre inp lf)
                (klimat_with r inp hf lf) (inner_pre inp) (tail_of inp)
                (validate_inputs inp) (tail_of_cases inp)) as E6.
  destruct (step6_closed inp _ _ _ _ _ _) as [b6 ns] eqn:E.
  exists (result_of inp (timber_of inp) (b6, ns)).
  apply (estimate_intro inp (Some (with_window_intensity r default_config))
           (pre_closed_with r inp hf lf) b6 ns (timber_of inp)).
  - exact E5.
  - exact E6.
  - exact (timber_mass_default inp).
Qed.

(** ** In-range inputs: no note, a positive total *)

(** X12: for an input that the validator accepts without a note, all of
    whose floats are values of the format, [estimate] under the default
    configuration returns a result without any note: the advisory of
    step 6 cannot appear, whatever the climate-improved flag and the
    applicability, because the structure category is positive and the
    foundation and the envelope are not negative.  The total compares
    strictly greater than 0.0 (so it is not a NaN either).  With a floor
    count below 2^1023 such a result is returned. *)
Theorem X12_in_range_no_notes inp :
  floats_valid inp = true ->
  validate_inputs inp = [] ->
  (forall res,
      estimate inp None = Ok res ->
      notes res = [] /\ F64.gtb (total_kg_per_m2_bta res) f0 = true)
  /\ (floors inp < 2 ^ 1023 -> exists res, estimate inp None = Ok res).
Proof.
  intros Hv Hn.
  assert (H4 : F64.FP 1 4 (F64.of_Z 4)) by fp_const.
  split.
  - intros res H.
    destruct (estimate_with_in_range (F64.of_Z 4) inp res H4 Hv Hn H)
      as [N P].
    split; [exact N|exact (positive_float_gtb _ P)].
  - intros Hf.
    pose proof (validate_nil inp Hn) as (_ & _ & H1 & _).
    exact (estimate_with_ok (F64.of_Z 4) inp H4 ltac:(lia)).
Qed.

Lemma X12_in_range_no_notes_witness :
  exists res,
    estimate (with_improved true scenarioB) None = Ok res
    /\ notes res = []
    /\ F64.gtb (total_kg_per_m2_bta res) f0 = true.
Proof.
  destruct (X12_in_range_no_notes (with_improved true scenarioB))
    as [H1 H2].
  - vm_compute. reflexivity.
  - vm_compute. reflexivity.
  - destruct H2 as [res E]; [vm_compute; reflexivity|].
    exists res. split; [exact E|]. exact (H1 res E).
Defined.

(** ** The sidebar of the app *)

Lemma leb_finite_intro m1 e1 m2 e2 :
  e1 < e2 \/ (e1 = e2 /\ Zpos m1 <= Zpos m2) ->
  F64.leb (S754_finite false m1 e1) (S754_finite false m2 e2) = true.
Proof.
  unfold F64.leb, SFleb, SFcompare. intros H.
  destruct (Z.compare_spec e1 e2) as [E|E|E]; [|reflexivity|lia].
  change (PosDef.Pos.compare_cont Eq m1 m2) with (Pos.compare m1 m2).
  destruct (Pos.compare_spec m1 m2); try reflexivity; lia.
Qed.

Lemma between_widen lo lo' x hi hi' :
  F64.PF lo -> F64.PF lo' -> F64.PF hi -> F64.PF hi' ->
  F64.leb lo' lo = true -> F64.leb hi hi' = true ->
  between lo x hi = true -> between lo' x hi' = true.
Proof.
  intros Pl Pl' Ph Ph' Hl Hh H.
  pose proof (between_PF lo x hi Pl Ph H) as Px.
  unfold between in *. apply andb_true_iff in H as [H1 H2].
  destruct lo as [|[]| |[] ml el]; try contradiction.
  destruct lo' as [|[]| |[] ml' el']; try contradiction.
  destruct hi as [|[]| |[] mh eh]; try contradiction.
  destruct hi' as [|[]| |[] mh' eh']; try contradiction.
  destruct x as [|[]| |[] mx ex]; try contradiction.
  apply leb_finite in Hl, Hh, H1, H2.
  apply andb_true_intro; split; apply leb_finite_intro; lia.
Qed.

Lemma between_zero_widen x hi hi' :
  F64.PF hi -> F64.PF hi' -> F64.leb hi hi' = true ->
  between f0 x hi = true -> between f0 x hi' = true.
Proof.
  intros Ph Ph' Hh H.
  pose proof (between_zero_P0 x hi H) as Px.
  unfold between in *. apply andb_true_iff in H as [H1 H2].
  destruct hi as [|[]| |[] mh eh]; try contradiction.
  destruct hi' as [|[]| |[] mh' eh']; try contradiction.
  destruct x as [[]|[]| |[] mx ex]; try contradiction;
    try reflexivity; try discriminate.
  apply leb_finite in Hh, H2.
  apply andb_true_intro; split; [reflexivity|].
  apply leb_finite_intro; lia.
Qed.

Lemma in_int_range lo n k :
  lo <= n < lo + Z.of_nat k ->
  In n (map (fun i => lo + Z.of_nat i) (seq 0 k)).
Proof.
  intros H. apply in_map_iff. exists (Z.to_nat (n - lo)).
  split; [lia|]. apply in_seq. lia.
Qed.

Lemma percent_window n :
  5 <= n <= 70 ->
  exists x, percent n = Ok x /\ F64.valid x = true
            /\ between f0 x (F64.dec 9 10) = true.
Proof.
  intros H.
  assert (Hall : forallb
            (fun k => match percent k with
                      | Ok x => F64.valid x && between f0 x (F64.dec 9 10)
                      | Raise _ => false
                      end)
            (map (fun i => 5 + Z.of_nat i) (seq 0 66)) = true)
    by (vm_compute; reflexivity).
  rewrite forallb_forall in Hall.
  specialize (Hall n (in_int_range 5 n 66 ltac:(lia))).
  destruct (percent n) as [x|]; [|discriminate].
  apply andb_true_iff in Hall as [Hv Hb]. eauto.
Qed.

Lemma percent_applicability n :
  0 <= n <= 100 ->
  exists x, percent n = Ok x /\ F64.valid x = true
            /\ F64.ltb x f0 = false /\ F64.gtb x f1 = false.
Proof.
  intros H.
  assert (Hall : forallb
            (fun k => match percent k with
                      | Ok x => F64.valid x
                                && negb (F64.ltb x f0 || F64.gtb x f1)
                      | Raise _ => false
                      end)
            (map (fun i => 0 + Z.of_nat i) (seq 0 101)) = true)
    by (vm_compute; reflexivity).
  rewrite forallb_forall in Hall.
  specialize (Hall n (in_int_range 0 n 101 ltac:(lia))).
  destruct (percent n) as [x|]; [|discriminate].
  apply andb_true_iff in Hall as [Hv Hb].
  apply negb_true_iff in Hb. apply orb_false_iff in Hb as [Hb1 Hb2]. eauto.
Qed.

Lemma none_if_not_positive_valid x :
  F64.valid x = true -> opt_valid (none_if_not_positive x) = true.
Proof.
  intros H. unfold none_if_not_positive.
  destruct (F64.leb x f0); [reflexivity|exact H].
Qed.

(** X13: the sidebar cannot produce an input that the validator flags.
    With every widget within the bounds it is declared with, the script
    builds an input all six tests of the validator accept, [estimate]
    returns a result for it under the configuration with the window
    intensity of the slider, and this result has no note at all, so
    that the warning box of the script is never shown, and a total that
    compares strictly greater than 0.0. *)
Theorem X13_app_in_range w :
  in_widget_ranges w ->
  exists inp res,
    app_inputs w = Ok inp
    /\ validate_inputs inp = []
    /\ floats_valid inp = true
    /\ app_estimate w = Ok res
    /\ notes res = []
    /\ F64.gtb (total_kg_per_m2_bta res) f0 = true.
Proof.
  intros (Vff & Bff & Bw & Vr & Br & Bfl & Vh & Bh & Bm & Bap & Vp & Bp
          & Va & Ba & Vt & Bt).
  destruct (percent_window _ Bw) as (wr & Ew & Vw & Bwr).
  destruct (percent_applicability _ Bap) as (ap & Eap & Vap & Bap1 & Bap2).
  pose proof (r_win_FP _ Vr Br) as Hr.
  unfold app_estimate, app_inputs. rewrite Ew, Eap. cbn [bind].
  match goal with
  | |- exists i r, Ok ?x = Ok i /\ _ => set (inp := x)
  end.
  assert (Hn : validate_inputs inp = []).
  { apply validate_ranges_nil. unfold in_validated_ranges.
    cbn [inp form_factor window_ratio floors parking_ratio atemp_to_bta
         climate_improved_applicability].
    rewrite (between_widen (F64.dec 25 100) (F64.dec 2 10) (ui_form_factor w)
               (F64.dec 120 100) (F64.dec 15 10)
               ltac:(fp_const) ltac:(fp_const) ltac:(fp_const)
               ltac:(fp_const) ltac:(vm_compute; reflexivity)
               ltac:(vm_compute; reflexivity) Bff).
    rewrite Bwr.
    rewrite (between_zero_widen (ui_parking_ratio w) (F64.dec 15 10)
               (F64.of_Z 2)
               ltac:(fp_const) ltac:(fp_const)
               ltac:(vm_compute; reflexivity) Bp).
    rewrite (between_widen (F64.dec 75 100) (F64.dec 7 10) (ui_atemp_to_bta w)
               (F64.dec 98 100) f1
               ltac:(fp_const) ltac:(fp_const) ltac:(fp_const)
               ltac:(fp_const) ltac:(vm_compute; reflexivity)
               ltac:(vm_compute; reflexivity) Ba).
    rewrite Bap1, Bap2.
    replace (1 <=? ui_floors w) with true
      by (symmetry; apply Z.leb_le; lia).
    reflexivity. }
  assert (Hv : floats_valid inp = true).
  { unfold floats_valid.
    cbn [inp form_factor window_ratio building_height_m parking_ratio
         atemp_to_bta climate_improved_applicability
         timber_t_per_m2_override].
    rewrite Vff, Vw, Vap, Vp, Va.
    rewrite !none_if_not_positive_valid by assumption. reflexivity. }
  destruct (estimate_with_ok (ui_r_win w) inp Hr) as [res E].
  { cbn [inp floors]. lia. }
  destruct (estimate_with_in_range (ui_r_win w) inp res Hr Hv Hn E)
    as [N P].
  exists inp, res.
  split; [reflexivity|]. split; [exact Hn|]. split; [exact Hv|].
  split; [exact E|]. split; [exact N|exact (positive_float_gtb _ P)].
Qed.

Lemma X13_app_in_range_witness :
  exists inp res,
    app_inputs widgets_default = Ok inp
    /\ validate_inputs inp = []
    /\ floats_valid inp = true
    /\ app_estimate widgets_default = Ok res
    /\ notes res = []
    /\ F64.gtb (total_kg_per_m2_bta res) f0 = true.
Proof.
  apply (X13_app_in_range widgets_default).
  unfold in_widget_ranges, widgets_default.
  cbn [ui_form_factor ui_window_percent ui_r_win ui_floors
       ui_building_height_m ui_method ui_structural_system
       ui_applicability_percent ui_parking_ratio ui_atemp_to_bta
       ui_timber_override ui_methods].
  split; [vm_compute; reflexivity|].
  split; [vm_compute; reflexivity|].
  split; [lia|].
  split; [vm_compute; reflexivity|].
  split; [vm_compute; reflexivity|].
  split; [lia|].
  split; [vm_compute; reflexivity|].
  split; [vm_compute; reflexivity|].
  split; [left; reflexivity|].
  split; [lia|].
  split; [vm_compute; reflexivity|].
  split; [vm_compute; reflexivity|].
  split; [vm_compute; reflexivity|].
  split; [vm_compute; reflexivity|].
  split; vm_compute; reflexivity.
Defined.

Lemma float_of_int_of_Z z :
  0 < z < 2 ^ 1023 -> float_of_int z = Ok (F64.of_Z z).
Proof.
  intros H. destruct (float_of_int_pos z H) as (m & e & E).
  unfold float_of_int in *.
  destruct (F64.of_Z z); first [discriminate|reflexivity].
Qed.

Lemma gtb_f0_not_leb x : F64.gtb x f0 = true -> F64.leb x f0 = false.
Proof. destruct x as [[]|[]| |[] m e]; simpl; try reflexivity; discriminate. Qed.

Lemma app_inputs_inv w inp :
  app_inputs w = Ok inp ->
  building_height_m inp = none_if_not_positive (ui_building_height_m w)
  /\ timber_t_per_m2_override inp
     = none_if_not_positive (ui_timber_override w)
  /\ floors inp = ui_floors w
  /\ structural_system inp = ui_structural_system w.
Proof.
  unfold app_inputs. intros H. inv_bind H. injection H as <-.
  repeat split.
Qed.

(** X14: in the app a widget left at 0 means that the value is not
    given.  A timber override of 0 (or below) makes the result show the
    default timber mass of the structural system, a positive one is
    shown as entered; a building height of 0 (or below) gives the
    floor-height factor 1.0, a positive one the clamp of
    (height / floors) / 2.8 to [0.8, 1.3]. *)
Theorem X14_app_zero_means_absent w inp res :
  app_inputs w = Ok inp ->
  app_estimate w = Ok res ->
  (F64.leb (ui_timber_override w) f0 = true ->
   dict_get (system_key (ui_structural_system w))
     (timber_t_per_m2_default_by_system default_config)
   = Some (timber_t_per_m2_bta res))
  /\ (F64.gtb (ui_timber_override w) f0 = true ->
      timber_t_per_m2_bta res = ui_timber_override w)
  /\ (F64.leb (ui_building_height_m w) f0 = true ->
      height_factor inp = Ok f1)
  /\ (F64.gtb (ui_building_height_m w) f0 = true ->
      1 <= ui_floors w <= 16 ->
      height_factor inp
      = Ok (clamp_height
              (F64.quot (F64.quot (ui_building_height_m w)
                                  (F64.of_Z (ui_floors w)))
                        ref_floor_height))).
Proof.
  intros Hi He. unfold app_estimate in He. rewrite Hi in He.
  cbn [bind] in He.
  destruct (app_inputs_inv w inp Hi) as (Eh & Et & Ef & Es).
  destruct (estimate_inv _ _ _ He) as (b5 & b6 & ns & t & _ & _ & Em & ->).
  cbn [config_or_default] in Em. unfold result_of.
  cbn [timber_t_per_m2_bta].
  unfold timber_mass in Em. rewrite Et, Es in Em.
  unfold none_if_not_positive in Em, Eh.
  split; [|split; [|split]].
  - intros H. rewrite H in Em. unfold dict_index in Em.
    change (timber_t_per_m2_default_by_system (app_config w))
      with (timber_t_per_m2_default_by_system default_config) in Em.
    destruct (dict_get _ _) as [v|]; [|discriminate].
    injection Em as <-. reflexivity.
  - intros H. rewrite (gtb_f0_not_leb _ H) in Em. injection Em as <-.
    unfold pymax. rewrite H. reflexivity.
  - intros H. rewrite H in Eh. unfold height_factor. rewrite Eh.
    reflexivity.
  - intros H Hf. rewrite (gtb_f0_not_leb _ H) in Eh.
    unfold height_factor. rewrite Eh, Ef.
    unfold F64.truthy. rewrite (gtb_f0_not_zero _ H).
    replace (ui_floors w >? 0) with true by (symmetry; apply Z.gtb_lt; lia).
    cbn [negb andb].
    assert (Hb : 0 < ui_floors w < 2 ^ 1023).
    { split; [lia|]. apply Z.le_lt_trans with 16; [lia|]. reflexivity. }
    rewrite (float_of_int_of_Z _ Hb). cbn [bind].
    destruct (float_of_int_pos _ Hb) as (m & e & E).
    rewrite (float_of_int_of_Z _ Hb) in E. injection E as E.
    rewrite E.
    rewrite fdiv_ok by reflexivity. cbn [bind].
    rewrite fdiv_ok by (vm_compute; reflexivity). reflexivity.
Qed.

Lemma X14_app_zero_means_absent_witness :
  exists inp res,
    app_inputs widgets_default = Ok inp
    /\ app_estimate widgets_default = Ok res
    /\ timber_t_per_m2_bta res = F64.dec 5 1000
    /\ height_factor inp = Ok f1.
Proof.
  match eval vm_compute in (app_inputs widgets_default) with
  | Ok ?i =>
      match eval vm_compute in (app_estimate widgets_default) with
      | Ok ?r =>
          exists i, r;
          assert (Hi : app_inputs widgets_default = Ok i)
            by (vm_compute; reflexivity);
          assert (He : app_estimate widgets_default = Ok r)
            by (vm_compute; reflexivity);
          destruct (X14_app_zero_means_absent widgets_default i r Hi He)
            as (H1 & _ & H3 & _)
      end
  end.
  split; [exact Hi|]. split; [exact He|]. split.
  - specialize (H1 ltac:(vm_compute; reflexivity)).
    exact (f_equal (fun o => match o with Some v => v | None => f0 end)
             (eq_sym H1)).
  - apply H3. vm_compute. reflexivity.
Defined.

(** ** The window share at its reference value *)

Lemma div_eucl_self m k :
  Z.div_eucl (Zpos m * 2 ^ k) (Zpos m) = (2 ^ k, 0).
Proof.
  pose proof (Z.div_mul (2 ^ k) (Zpos m) ltac:(lia)) as Hq.
  pose proof (Z.mod_mul (2 ^ k) (Zpos m) ltac:(lia)) as Hr.
  rewrite Z.mul_comm in Hq, Hr. unfold Z.div in Hq. unfold Z.modulo in Hr.
  destruct (Z.div_eucl (Zpos m * 2 ^ k) (Zpos m)) as [q r].
  cbn [fst snd] in *. congruence.
Qed.

(** A finite float divided by itself is exactly 1.0. *)
Lemma quot_self s m e :
  F64.quot (S754_finite s m e) (S754_finite s m e) = f1.
Proof.
  rewrite quot_finite. unfold SFdiv_core_binary.
  replace (Zdigits2 (Z.pos m) + e - (Zdigits2 (Z.pos m) + e)) with 0 by lia.
  replace (e - e) with 0 by lia.
  change (Z.min (fexp F64.prec F64.emax 0) 0) with (-53).
  change (0 - -53) with 53.
  rewrite (Z.shiftl_mul_pow2 (Z.pos m) 53) by lia.
  rewrite div_eucl_self.
  assert (Hl : new_location (Z.pos m) 0 = loc_Exact).
  { unfold new_location. destruct (Z.even (Z.pos m)); reflexivity. }
  rewrite Hl. destruct s; vm_compute; reflexivity.
Qed.

Lemma step2_window_reference r inp b :
  F64.FP 1 4 r ->
  window_ratio inp = F64.dec 20 100 ->
  step2_envelope (with_window_intensity r default_config) inp b
  = step2_envelope default_config inp b.
Proof.
  intros Hr Hw. unfold step2_envelope.
  destruct (dict_mem Klimatskarm b); [|reflexivity].
  change (ref_form_factor (with_window_intensity r default_config))
    with (ref_form_factor default_config).
  destruct (fdiv (form_factor inp) (ref_form_factor default_config));
    [|reflexivity].
  cbn [bind].
  destruct (height_factor inp); [|reflexivity].
  cbn [bind]. cbv zeta. rewrite Hw.
  change (window_to_wall_intensity_ratio
            (with_window_intensity r default_config)) with r.
  change (ref_window_ratio (with_window_intensity r default_config))
    with (F64.dec 20 100).
  change (ref_window_ratio default_config) with (F64.dec 20 100).
  change (window_to_wall_intensity_ratio default_config) with (F64.of_Z 4).
  assert (E4 : fdiv (window_mix (F64.dec 20 100) (F64.of_Z 4))
                    (window_mix (F64.dec 20 100) (F64.of_Z 4)) = Ok f1)
    by (vm_compute; reflexivity).
  rewrite E4.
  pose proof (window_mix_ref_FP r Hr) as Hm.
  destruct (window_mix (F64.dec 20 100) r) as [|[]| |[] m e];
    try contradiction.
  unfold fdiv. cbn [F64.is_zero]. rewrite quot_self. reflexivity.
Qed.

Lemma estimate_window_reference r inp :
  F64.FP 1 4 r ->
  window_ratio inp = F64.dec 20 100 ->
  estimate inp (Some (with_window_intensity r default_config))
  = estimate inp None.
Proof.
  intros Hr Hw. unfold estimate. cbn [config_or_default]. cbv zeta.
  assert (E : breakdown_pre (with_window_intensity r default_config) inp
              = breakdown_pre default_config inp).
  { unfold breakdown_pre. cbv zeta.
    change (median_kg_per_m2 (with_window_intensity r default_config))
      with (median_kg_per_m2 default_config).
    destruct (dict_index _ (median_kg_per_m2 default_config));
      [|reflexivity].
    cbn [bind].
    change (shares_2022 (with_window_intensity r default_config))
      with (shares_2022 default_config).
    change (shares_2027 (with_window_intensity r default_config))
      with (shares_2027 default_config).
    rewrite (step2_window_reference r inp _ Hr Hw). reflexivity. }
  rewrite E. reflexivity.
Qed.

(** X15: with the window share of the facade at its reference value of
    20 %, the slider of the relative window intensity has no effect: the
    window mix is divided by itself, and a finite float divided by
    itself is exactly 1.0.  For every intensity between 1.5 and 8 the
    app shows what [estimate] returns under the default
    configuration. *)
Theorem X15_window_reference w :
  ui_window_percent w = 20 ->
  F64.valid (ui_r_win w) = true ->
  between (F64.dec 15 10) (ui_r_win w) (F64.of_Z 8) = true ->
  app_estimate w = (inp <- app_inputs w ;; estimate inp None).
Proof.
  intros Hw Vr Br. pose proof (r_win_FP _ Vr Br) as Hr.
  unfold app_estimate, app_inputs. rewrite Hw.
  change (percent 20) with (Ok (F64.dec 20 100)). cbn [bind].
  destruct (percent (ui_applicability_percent w)) as [ap|e];
    [|reflexivity].
  cbn [bind]. apply estimate_window_reference; [exact Hr|reflexivity].
Qed.

Lemma X15_window_reference_witness :
  app_estimate (with_ui_r_win (F64.of_Z 8) widgets_default)
  = (inp <- app_inputs (with_ui_r_win (F64.of_Z 8) widgets_default) ;;
     estimate inp None).
Proof.
  apply (X15_window_reference (with_ui_r_win (F64.of_Z 8) widgets_default)).
  - reflexivity.
  - vm_compute. reflexivity.
  - vm_compute. reflexivity.
Defined.

(** ** The floor count above three floors *)

(** X16: when no building height is given, the floor count matters only
    below four floors.  For every configuration, two inputs that differ
    only in floor counts of at least four have the same outcome, notes
    and exceptions included: the low-rise correction is skipped, and
    the floor count is otherwise read only for the floor height. *)
Theorem X16_floors_above_three inp cfg n n' :
  building_height_m inp = None ->
  4 <= n -> 4 <= n' ->
  estimate (with_floors n inp) cfg = estimate (with_floors n' inp) cfg.
Proof.
  intros Hh Hn Hn'.
  unfold estimate, validate_inputs, breakdown_pre, step2_envelope,
    height_factor, step3_lowrise, step4_structure, struct_mult, method_mult,
    heavy_mult, system_struct_mult, step5_below_grade, garage_add,
    step6_improved, timber_mass.
  cbn [with_floors system_boundary form_factor window_ratio floors
       building_height_m structural_system method heavy_concrete_design
       climate_improved_materials climate_improved_applicability basement
       underground_garage parking_ratio atemp_to_bta
       timber_t_per_m2_override].
  rewrite Hh.
  replace (n <? 4) with false by (symmetry; apply Z.ltb_ge; lia).
  replace (n' <? 4) with false by (symmetry; apply Z.ltb_ge; lia).
  replace (n <? 1) with false by (symmetry; apply Z.ltb_ge; lia).
  replace (n' <? 1) with false by (symmetry; apply Z.ltb_ge; lia).
  reflexivity.
Qed.

Lemma X16_floors_above_three_witness :
  estimate (with_floors 4 scenarioA) None
  = estimate (with_floors 16 scenarioA) None.
Proof.
  apply (X16_floors_above_three scenarioA None 4 16).
  - reflexivity.
  - lia.
  - lia.
Defined.

(** ** An applicability of zero *)

Lemma GP_FP lo hi x : F64.GP lo hi x -> F64.FP lo hi x.
Proof. destruct x as [[]|[]| |[] m e]; simpl; tauto. Qed.

Lemma stomme_pre_GP inp : F64.GP 1 24 (stomme_pre inp).
Proof.
  unfold stomme_pre, struct_mult, heavy_mult, system_struct_mult.
  destruct (method_mult_cases inp) as [-> | [-> | ->]];
    destruct (system_boundary inp), (heavy_concrete_design inp),
      (structural_system inp); fp_const.
Qed.

Lemma inner_pre_GP inp : F64.GP 1 24 (inner_pre inp).
Proof.
  unfold inner_pre, struct_mult, heavy_mult, system_struct_mult.
  destruct (method_mult_cases inp) as [-> | [-> | ->]];
    destruct (system_boundary inp), (heavy_concrete_design inp),
      (structural_system inp); fp_const.
Qed.

Lemma ytskikt_pre_GP inp :
  system_boundary inp = B2027 -> F64.GP 1 24 (ytskikt_pre inp).
Proof. intros Hb. unfold ytskikt_pre. rewrite Hb. fp_const. Qed.

Lemma grund_base_GP inp lf :
  1 <= floors inp -> lowrise_opt inp = Ok lf ->
  F64.GP 1 20 (grund_base inp lf).
Proof.
  intros Hf Hl.
  unfold grund_base, struct_mult, heavy_mult, system_struct_mult, scale_opt.
  destruct (lowrise_opt_cases inp lf Hf Hl) as [-> | [-> | [-> | ->]]];
    destruct (method_mult_cases inp) as [-> | [-> | ->]];
    destruct (system_boundary inp), (heavy_concrete_design inp),
      (structural_system inp), (basement inp); fp_const.
Qed.

(** The target reduction is a zero when the applicability is. *)
Lemma target_reduction_zero inp T :
  F64.is_zero (climate_improved_applicability inp) = true ->
  F64.GP 1 32 T ->
  F64.is_zero (target_reduction_of inp T) = true.
Proof.
  intros Hz HT. unfold target_reduction_of.
  assert (Hq : F64.FP (-8) 25
                 (F64.quot T (base_of (system_boundary inp)))).
  { assert (Hb : F64.FP 9 9 (base_of (system_boundary inp)))
      by (destruct (system_boundary inp); fp_const).
    pose proof (quot_FP _ _ _ _ _ _ (GP_FP _ _ _ HT) Hb
                  ltac:(unfold F64.emin; lia) ltac:(lia)) as H.
    eapply FP_weaken; [exact H|lia|lia]. }
  assert (Hd : F64.FP 6 6 (diff_of (system_boundary inp)))
    by (destruct (system_boundary inp); fp_const).
  pose proof (mul_FP _ _ _ _ _ _ Hd Hq ltac:(unfold F64.emin; lia)
                ltac:(lia)) as Hm.
  destruct (F64.mul (diff_of (system_boundary inp)) _)
    as [|[]| |[] m e]; try contradiction.
  destruct (climate_improved_applicability inp); try discriminate.
  reflexivity.
Qed.

(** A zero target reduction leaves a positive category as it is. *)
Lemma reduced_zero tr a v :
  F64.is_zero tr = true -> F64.GP 1 28 a -> F64.GP (-100) 24 v ->
  reduced tr a v = v.
Proof.
  intros Hz Ha Hv. unfold reduced.
  pose proof (quot_FP _ _ _ _ _ _ (GP_FP _ _ _ Hv) (GP_FP _ _ _ Ha)
                ltac:(unfold F64.emin; lia) ltac:(lia)) as Hq.
  destruct (F64.quot v a) as [|[]| |[] mq eq]; try contradiction.
  destruct tr as [s| | |]; try discriminate.
  destruct v as [|[]| |[] m e]; try contradiction.
  reflexivity.
Qed.

Lemma step6_closed_zero inp s g k i tl ns :
  F64.is_zero (climate_improved_applicability inp) = true ->
  F64.GP 1 24 s -> F64.GP 1 24 g -> F64.GP (-100) 24 k -> F64.GP 1 24 i ->
  tl = [] \/ (exists y, tl = [(Ytskikt, y)] /\ F64.GP 1 24 y) ->
  step6_closed inp s g k i tl ns
  = ([(Stomme, s); (Grund, g); (Klimatskarm, k); (Innervaggar, i)] ++ tl, ns).
Proof.
  intros Hz Hs Hg Hk Hi Htl. unfold step6_closed. cbv zeta.
  destruct (climate_improved_materials inp); [|reflexivity].
  destruct (fsum3_V s g k Hs Hg Hk) as (Ha & _).
  destruct (add_GP _ _ _ _ _ i Ha Hi ltac:(unfold F64.emin; lia)
              ltac:(lia)) as (H4 & _).
  match goal with
  | |- (if reduction_applies ?T ?A then _ else _) = _ =>
      assert (HT : F64.GP 1 32 T);
      [ destruct Htl as [-> | (y & -> & Hy)];
        [ eapply GP_weaken; [exact H4|lia|lia]
        | destruct (add_GP _ _ _ _ _ y H4 Hy ltac:(unfold F64.emin; lia)
                      ltac:(lia)) as (H5 & _);
          eapply GP_weaken; [exact H5|lia|lia] ]
      | replace (reduction_applies T A) with true
          by (symmetry; exact (reduction_applies_GP _ _ _ _ _ _ HT Ha));
        pose proof (target_reduction_zero inp T Hz HT) as Htr;
        rewrite (reduced_zero _ A s Htr Ha ltac:(gp_weaken Hs));
        rewrite (reduced_zero _ A g Htr Ha ltac:(gp_weaken Hg));
        rewrite (reduced_zero _ A k Htr Ha Hk) ]
  end.
  reflexivity.
Qed.

(** X17: an applicability of zero switches the climate-improved
    materials off.  For an input within the validated ranges whose
    applicability is 0.0, [estimate] under the default configuration has
    the same outcome with the climate-improved flag set as without it:
    the same breakdown to the last bit, the same total, the same notes,
    or the same exception. *)
Theorem X17_applicability_zero inp :
  floats_valid inp = true ->
  validate_inputs inp = [] ->
  F64.is_zero (climate_improved_applicability inp) = true ->
  estimate (with_improved true inp) None
  = estimate (with_improved false inp) None.
Proof.
  intros Hv Hn Hz.
  destruct (height_factor inp) as [hf|e] eqn:Hh.
  2:{ unfold estimate. cbn [config_or_default]. cbv zeta.
      rewrite (breakdown_pre_height_raise (with_improved true inp) e Hh).
      rewrite (breakdown_pre_height_raise (with_improved false inp) e Hh).
      reflexivity. }
  destruct (lowrise_opt inp) as [lf|e] eqn:Hl.
  2:{ unfold estimate. cbn [config_or_default]. cbv zeta.
      rewrite (breakdown_pre_lowrise_raise (with_improved true inp) hf e
                 Hh Hl).
      rewrite (breakdown_pre_lowrise_raise (with_improved false inp) hf e
                 Hh Hl).
      reflexivity. }
  rewrite (estimate_closed_correct (with_improved true inp) hf lf Hh Hl).
  rewrite (estimate_closed_correct (with_improved false inp) hf lf Hh Hl).
  f_equal. unfold estimate_closed.
  pose proof Hn as Hn'.
  apply validate_nil in Hn' as (Hff & Hw & Hf & Hp & Ha).
  unfold floats_valid in Hv.
  repeat (apply andb_true_iff in Hv; destruct Hv as [Hv ?Hv]).
  pose proof (stomme_pre_GP inp) as HS.
  pose proof (inner_pre_GP inp) as HI.
  pose proof (klimat_pre_GP inp hf lf ltac:(assumption) ltac:(assumption)
                Hff Hw Hf Hl Hh) as HK.
  destruct (grund_pre_V inp lf ltac:(assumption) ltac:(assumption) Hp Ha
              (grund_base_GP inp lf Hf Hl)) as [HG _].
  assert (Htl : tail_of inp = []
                \/ (exists y, tail_of inp = [(Ytskikt, y)]
                              /\ F64.GP 1 24 y)).
  { unfold tail_of. destruct (system_boundary inp) eqn:Eb; [auto|].
    right. eexists. split; [reflexivity|].
    apply ytskikt_pre_GP. exact Eb. }
  change (step6_closed (with_improved true inp)
            (stomme_pre (with_improved true inp))
            (grund_pre (with_improved true inp) lf)
            (klimat_pre (with_improved true inp) hf lf)
            (inner_pre (with_improved true inp))
            (tail_of (with_improved true inp))
            (validate_inputs (with_improved true inp)))
    with (step6_closed (with_improved true inp) (stomme_pre inp)
            (grund_pre inp lf) (klimat_pre inp hf lf) (inner_pre inp)
            (tail_of inp) (validate_inputs inp)).
  rewrite (step6_closed_zero (with_improved true inp) _ _ _ _ _ _
             Hz HS HG HK HI Htl).
  reflexivity.
Qed.

Lemma X17_applicability_zero_witness :
  estimate (with_improved true (with_applicability f0 scenarioB)) None
  = estimate (with_improved false (with_applicability f0 scenarioB)) None.
Proof.
  apply (X17_applicability_zero (with_applicability f0 scenarioB)).
  - vm_compute. reflexivity.
  - vm_compute. reflexivity.
  - reflexivity.
Defined.
